(** * Realtime gateway of the group messaging backend

    A shallow embedding of the Socket.io layer of the repository:

    - [src/utils/errors.js]                     (module [Errors])
    - [src/models/Group.js], the membership test (module [GroupModel])
    - [src/services/groupService.js], [getGroupById]
    - [src/services/messageService.js], [sendMessage]
    - [src/utils/encryption.js], [encryptMessage]
    - [src/realtime/handlers/messageHandlers.js]
    - [src/realtime/handlers/presenceHandlers.js]
    - [src/realtime/middleware/authMiddleware.js]
    - [src/realtime/socket.js], the connection handler

    and, for the documents behind it:

    - [src/models/Group.js], the methods, virtuals and pre-save hook of a
      group document                            (module [GroupDocument])
    - [src/services/groupService.js], [deleteGroup], [addMember],
      [removeMember], [transferOwnership]       (module [GroupMembers])
    - [src/services/messageService.js], [deleteMessage]
                                                (module [MessageDeletion])

    Handlers are asynchronous functions; each of them touches the shared
    gateway state (rooms and the presence map) only in the synchronous
    stretch that follows its last [await], so a handler is embedded as a
    function of the state at that point.  What the awaited collaborators
    (Mongoose, the cipher, the JWT library, the clock) answer is an input,
    gathered in the record [Collab].

    Calls to [logger] are left out: they produce no value and change no
    state of the gateway.  Payload fields are optional strings, which is
    what the clients of this server send.  A string is held as its bytes:
    the white space test and the length bound of the message service are
    those of single byte characters.

    The handlers of [MessageHandlers] and [PresenceHandlers] take an object
    as payload and an acknowledgement function.  Module [Listeners] has
    them as Socket.io calls them, with a payload that may be [null] and an
    acknowledgement function that may be missing.

    Socket.io itself is modelled after its in-memory adapter: a room is the
    set of socket ids that joined it, an emit on a room reaches each
    connected socket of the room once, [socket.to(room)] leaves the emitting
    socket out and [io.in(room)] nobody.  The room that Socket.io keeps per
    socket under the socket's own id is left out; no group room can bear
    such a name, since socket ids hold no colon.  A JavaScript [Set] is a
    [gset]; where the code enumerates one ([Array.from]), the model
    enumerates it with [elements], in an order that need not be the order
    of insertion, and no statement below depends on that order. *)

From stdpp Require Import gmap strings list fin_maps.

(** ** JavaScript values and helpers *)

Module Js.

Inductive JsVal :=
| VStr (s : string)
| VNum (n : Z)
| VBool (b : bool).

#[global] Instance JsVal_eq_dec : EqDecision JsVal.
Proof. solve_decision. Defined.

(** Truthiness of an optional string field: [undefined] and the empty
    string are falsy. *)
Definition truthy (v : option string) : bool :=
  match v with
  | Some s => negb (String.eqb s "")
  | None => false
  end.

(** The value of a field once it is known to be truthy. *)
Definition str (v : option string) : string := default "" v.

(** [s.replace(pat, rep)] with a string pattern: the first occurrence
    only. *)
Definition replace (pat rep s : string) : string :=
  match String.index 0 pat s with
  | Some i =>
      String.substring 0 i s +:+ rep +:+
      String.substring (i + String.length pat)
                       (String.length s - (i + String.length pat)) s
  | None => s
  end.

(** White space removed by [String.prototype.trim], for single byte
    characters: tab, line feed, vertical tab, form feed, carriage return
    and space. *)
Definition is_space (a : Ascii.ascii) : bool :=
  let n := Ascii.nat_of_ascii a in
  ((9 <=? n)%nat && (n <=? 13)%nat) || (n =? 32)%nat.

Fixpoint all_space (s : string) : bool :=
  match s with
  | EmptyString => true
  | String a s' => is_space a && all_space s'
  end.

(** [s.trim().length === 0] *)
Definition trim_is_empty (s : string) : bool := all_space s.

End Js.

Import Js.

(** ** [src/utils/errors.js] *)

Module Errors.

Inductive ErrorClass :=
| Error | TypeError
| AppError | ValidationError | AuthenticationError | AuthorizationError
| ConflictError | NotFoundError | RateLimitError | BadRequestError
| InternalError.

#[global] Instance ErrorClass_eq_dec : EqDecision ErrorClass.
Proof. solve_decision. Defined.

(** An error object: its class and the properties its constructor
    assigned.  Reading a property that was never assigned gives
    [undefined], here [None]. *)
Record ErrorObj := {
  cls : ErrorClass;
  props : gmap string JsVal;
}.

Definition get (e : ErrorObj) (p : string) : option JsVal := props e !! p.

(** [error.name]: none of the classes overrides the inherited name
    ["Error"]; driver errors carry their own. *)
Definition name (e : ErrorObj) : string :=
  match get e "name" with
  | Some (VStr n) => n
  | _ => match cls e with TypeError => "TypeError" | _ => "Error" end
  end.

Definition message (e : ErrorObj) : string :=
  match get e "message" with
  | Some (VStr m) => m
  | _ => ""
  end.

Definition extends (c : ErrorClass) : option ErrorClass :=
  match c with
  | Error => None
  | TypeError => Some Error
  | AppError => Some Error
  | _ => Some AppError
  end.

Definition instanceof (e : ErrorObj) (c : ErrorClass) : bool :=
  bool_decide (cls e = c)
  || bool_decide (extends (cls e) = Some c)
  || bool_decide (extends (cls e) ≫= extends = Some c).

Definition new_Error (c : ErrorClass) (msg : string) : ErrorObj :=
  {| cls := c; props := {[ "message" := VStr msg ]} |}.

(** [class AppError]: the constructor stores the code under
    [errorCode]. *)
Definition new_AppError (c : ErrorClass) (msg : string) (statusCode : Z)
    (errorCode : string) : ErrorObj :=
  {| cls := c;
     props := <[ "message" := VStr msg ]>
             (<[ "statusCode" := VNum statusCode ]>
             (<[ "errorCode" := VStr errorCode ]>
             (<[ "isOperational" := VBool true ]> ∅))) |}.

Definition with_prop (p : string) (v : JsVal) (e : ErrorObj) : ErrorObj :=
  {| cls := cls e; props := <[ p := v ]> (props e) |}.

Definition new_ValidationError (msg : string) (errors : JsVal) : ErrorObj :=
  with_prop "errors" errors (new_AppError ValidationError msg 400 "VALIDATION_ERROR").

Definition new_AuthenticationError (msg errorCode : string) : ErrorObj :=
  new_AppError AuthenticationError msg 401 errorCode.

Definition new_AuthorizationError (msg errorCode : string) : ErrorObj :=
  new_AppError AuthorizationError msg 403 errorCode.

Definition new_NotFoundError (msg errorCode : string) : ErrorObj :=
  new_AppError NotFoundError msg 404 errorCode.

(** The constructor of [InternalError] takes the message only; a second
    argument passed by a caller is dropped. *)
Definition new_InternalError (msg : string) : ErrorObj :=
  new_AppError InternalError msg 500 "INTERNAL_SERVER_ERROR".

End Errors.

Import Errors.

(** ** [src/models/Group.js] *)

Module GroupModel.

Inductive MemberStatus := active | pending | banned.

#[global] Instance MemberStatus_eq_dec : EqDecision MemberStatus.
Proof. solve_decision. Defined.

(** An entry of [members]; [user] is the hexadecimal string of the
    ObjectId, what [member.user.toString()] gives. *)
Record Member := {
  user : string;
  status : MemberStatus;
}.

Record Group := {
  _id : string;
  members : list Member;
}.

(** [group.members.some(member => member.user.toString() === userId &&
    member.status === 'active')], the test of the handlers and of
    [groupSchema.methods.isMember]. *)
Definition isMember (group : Group) (userId : string) : bool :=
  existsb (fun member =>
             bool_decide (user member = userId) &&
             bool_decide (status member = active))
          (members group).

End GroupModel.

Import GroupModel.

(** ** [src/models/Message.js]: the fields of a message document that the
    service sets or returns *)

Module MessageModel.

Record Message := {
  _id : string;
  group : string;
  sender : string;
  content : string;
  encryptedContent : string;
  iv : string;
  algorithm : string;
  keyVersion : Z;
  timestamp : string;
}.

#[global] Instance Message_eq_dec : EqDecision Message.
Proof. solve_decision. Defined.

(** [messageObj.content = content] *)
Definition set_content (m : Message) (c : string) : Message :=
  {| _id := _id m; group := group m; sender := sender m; content := c;
     encryptedContent := encryptedContent m; iv := iv m;
     algorithm := algorithm m; keyVersion := keyVersion m;
     timestamp := timestamp m |}.

End MessageModel.

(** ** The wire protocol: payloads, acknowledgements, server events *)

Module Wire.

(** [socket.user], attached by the authentication middleware. *)
Record Identity := {
  userId : string;
  email : string;
}.

#[global] Instance Identity_eq_dec : EqDecision Identity.
Proof. solve_decision. Defined.

(** The object a client sends with an event. *)
Record Payload := {
  groupId : option string;
  content : option string;
  messageId : option string;
}.

(** An entry of the answer to [group:active_users]. *)
Record ActiveUser := {
  au_userId : string;
  au_email : string;
  au_status : string;
}.

#[global] Instance ActiveUser_eq_dec : EqDecision ActiveUser.
Proof. solve_decision. Defined.

Inductive AckData :=
| message_data (m : MessageModel.Message)
| users_data (l : list ActiveUser).

#[global] Instance AckData_eq_dec : EqDecision AckData.
Proof. solve_decision. Defined.

(** The object passed to the acknowledgement callback; a field that the
    handler does not write, or writes as [undefined], is [None]. *)
Record Response := {
  success : bool;
  message : option string;
  error : option JsVal;
  data : option AckData;
  details : option JsVal;
}.

#[global] Instance Response_eq_dec : EqDecision Response.
Proof. solve_decision. Defined.

(** Events the server emits, named after the event strings
    ['connect:success'], ['user:active'], ['user:inactive'],
    ['message:new'], ['user:typing'] and ['message:read']. *)
Inductive ServerEvent :=
| connect_success (userId userEmail socketId timestamp : string)
| user_active (userId email groupId status : string)
| user_inactive (userId email groupId status : string)
| message_new (success : bool) (data : MessageModel.Message)
| user_typing (userId userEmail groupId : string) (typing : bool)
| message_read (messageId readBy_userId readBy_email readBy_timestamp : string).

#[global] Instance ServerEvent_eq_dec : EqDecision ServerEvent.
Proof. solve_decision. Defined.

End Wire.

Import Wire.

(** ** The gateway: state, collaborators, effects *)

Module Gateway.

(** A connection as the handlers see it: [socket.id] and [socket.user]. *)
Record Socket := {
  id : string;
  user : option Identity;
}.

#[global] Instance Socket_eq_dec : EqDecision Socket.
Proof. solve_decision. Defined.

(** The state shared by all connections of the process:
    the connected sockets of the namespace, the rooms of the in-memory
    adapter, and [globalActiveUsers] of presenceHandlers.js
    ([Map<userId, Set<groupId>>]). *)
Record State := {
  sockets : gmap string Socket;
  rooms : gmap string (gset string);
  globalActiveUsers : gmap string (gset string);
}.

Definition initial : State :=
  {| sockets := ∅; rooms := ∅; globalActiveUsers := ∅ |}.

Inductive Outcome (A : Type) :=
| Return (a : A)
| Throw (e : ErrorObj).
Arguments Return {A} a.
Arguments Throw {A} e.

(** What the awaited collaborators answer. *)
Record Collab := {
  (** [Group.findById(groupId).populate('owner', 'email')] of the group
      service: a document, [null], or a driver error. *)
  Group_findById_populate : string → Outcome (option Group);
  (** [Group.findById(groupId)] of the message service. *)
  Group_findById : string → Outcome (option Group);
  (** The cipher of [encryptMessage]: cipher text and initialisation
      vector, or a failure of the key lookup or of the cipher. *)
  cipher : string → Outcome (string * string);
  (** [message.save()] *)
  Message_save : MessageModel.Message → Outcome MessageModel.Message;
  (** [jwtUtils.verifyToken(token)]: the decoded [userId] and [email],
      or an error for a token that is malformed, expired or wrongly
      signed. *)
  verifyToken : string → Outcome Identity;
  (** [new Date()] as an ISO string. *)
  now : string;
}.

Inductive Call :=
| getGroupById_call (groupId : string)
| sendMessage_call (userId groupId content : string).

(** What a handler does that can be observed from outside. *)
Inductive Effect :=
(** one [emit] on a room; the second argument lists the connections the
    adapter delivered it to *)
| Broadcast (room : string) (recipients : list string) (ev : ServerEvent)
(** [socket.emit] on one connection *)
| Emit (to : string) (ev : ServerEvent)
(** the acknowledgement callback was called *)
| Ack (r : Response)
(** a service was called *)
| Called (c : Call)
(** a message document was saved *)
| Saved (m : MessageModel.Message)
(** the connection attempt was refused with the error given to [next] *)
| Refused (e : ErrorObj).

Record Res (A : Type) := {
  outcome : Outcome A;
  final : State;
  effects : list Effect;
}.
Arguments outcome {A} r.
Arguments final {A} r.
Arguments effects {A} r.

(** Handler code: reads the collaborators, threads the state, may throw,
    and logs its effects. *)
Definition M (A : Type) : Type := Collab → State → Res A.

Definition ret {A} (a : A) : M A :=
  fun _ st => {| outcome := Return a; final := st; effects := [] |}.

Definition bind {A B} (m : M A) (f : A → M B) : M B :=
  fun c st =>
    let r := m c st in
    match outcome r with
    | Return a =>
        let r' := f a c (final r) in
        {| outcome := outcome r'; final := final r';
           effects := effects r ++ effects r' |}
    | Throw e =>
        {| outcome := Throw e; final := final r; effects := effects r |}
    end.

Definition throw {A} (e : ErrorObj) : M A :=
  fun _ st => {| outcome := Throw e; final := st; effects := [] |}.

(** [try { body } catch (error) { handler }]: what the body did before it
    threw stays done. *)
Definition try_catch {A} (body : M A) (handler : ErrorObj → M A) : M A :=
  fun c st =>
    let r := body c st in
    match outcome r with
    | Return _ => r
    | Throw e =>
        let r' := handler e c (final r) in
        {| outcome := outcome r'; final := final r';
           effects := effects r ++ effects r' |}
    end.

Definition tell (e : Effect) : M unit :=
  fun _ st => {| outcome := Return tt; final := st; effects := [e] |}.

Definition get_state : M State :=
  fun _ st => {| outcome := Return st; final := st; effects := [] |}.

Definition modify (f : State → State) : M unit :=
  fun _ st => {| outcome := Return tt; final := f st; effects := [] |}.

Definition ask : M Collab :=
  fun c st => {| outcome := Return c; final := st; effects := [] |}.

(** An awaited call that settles with the given outcome. *)
Definition await {A} (o : Outcome A) : M A :=
  fun _ st => {| outcome := o; final := st; effects := [] |}.

#[global] Instance M_ret : MRet M := @ret.
#[global] Instance M_bind : MBind M := fun A B f m => bind m f.

Definition callback (r : Response) : M unit := tell (Ack r).

(** A failure answer [{ success: false, message, error }]. *)
Definition failure (msg : string) (err : option JsVal) : Response :=
  {| success := false; message := Some msg; error := err;
     data := None; details := None |}.

(** [socket.user.userId] and [socket.user.email]: a TypeError when the
    connection carries no identity. *)
Definition socket_user (socket : Socket) : M Identity :=
  match user socket with
  | Some u => ret u
  | None => throw (new_Error TypeError "Cannot read properties of undefined")
  end.

(** *** Socket.io rooms (in-memory adapter) *)

Definition group_room (groupId : string) : string := "group:" +:+ groupId.

Definition room_sids (st : State) (room : string) : gset string :=
  default ∅ (rooms st !! room).

(** The connections an emit on [room] reaches: every connected socket of
    the room once, but those in [except]. *)
Definition targets (st : State) (room : string) (except : gset string)
    : list string :=
  filter (fun sid => (sid ∉ except) ∧ is_Some (sockets st !! sid))
         (elements (room_sids st room)).

(** [socket.join(room)]; without effect once the socket is closed. *)
Definition join (socket : Socket) (room : string) (st : State) : State :=
  if decide (is_Some (sockets st !! id socket)) then
    {| sockets := sockets st;
       rooms := <[ room := {[ id socket ]} ∪ room_sids st room ]> (rooms st);
       globalActiveUsers := globalActiveUsers st |}
  else st.

(** The adapter removes a socket id from a room and drops the room when
    it becomes empty. *)
Definition del (sid : string) (members : gset string) : option (gset string) :=
  let members' := members ∖ {[ sid ]} in
  if decide (members' = ∅) then None else Some members'.

(** [socket.leave(room)] *)
Definition leave (socket : Socket) (room : string) (st : State) : State :=
  {| sockets := sockets st;
     rooms := match rooms st !! room with
              | Some members =>
                  match del (id socket) members with
                  | Some members' => <[ room := members' ]> (rooms st)
                  | None => delete room (rooms st)
                  end
              | None => rooms st
              end;
     globalActiveUsers := globalActiveUsers st |}.

(** What Socket.io does to a socket that closes, before the
    ['disconnect'] listeners run: it leaves every room it is in and is
    taken out of the namespace. *)
Definition close (socket : Socket) (st : State) : State :=
  {| sockets := delete (id socket) (sockets st);
     rooms := omap (fun members =>
                      if decide (id socket ∈ members)
                      then del (id socket) members
                      else Some members)
                   (rooms st);
     globalActiveUsers := globalActiveUsers st |}.

(** [socket.to(room).emit(ev)]: the room but this socket. *)
Definition socket_to_emit (socket : Socket) (room : string)
    (ev : ServerEvent) : M unit :=
  st ← get_state;
  tell (Broadcast room (targets st room {[ id socket ]}) ev).

(** [io.in(room).emit(ev)]: the whole room. *)
Definition io_in_emit (room : string) (ev : ServerEvent) : M unit :=
  st ← get_state;
  tell (Broadcast room (targets st room ∅) ev).

(** [io.in(room).fetchSockets()] *)
Definition fetchSockets (room : string) : M (list Socket) :=
  st ← get_state;
  mret (omap (fun sid => sockets st !! sid) (targets st room ∅)).

(** The events delivered to connection [sid] by a run, in order. *)
Definition received (sid : string) (es : list Effect) : list ServerEvent :=
  flat_map (fun e =>
              match e with
              | Broadcast _ recipients ev =>
                  fmap (fun _ => ev) (filter (fun r => r = sid) recipients)
              | Emit to ev => if decide (to = sid) then [ev] else []
              | _ => []
              end) es.

Definition acks (es : list Effect) : list Response :=
  omap (fun e => match e with Ack r => Some r | _ => None end) es.

Definition broadcasts (es : list Effect)
    : list (string * list string * ServerEvent) :=
  omap (fun e => match e with
                 | Broadcast room rs ev => Some (room, rs, ev)
                 | _ => None
                 end) es.

Definition calls (es : list Effect) : list Call :=
  omap (fun e => match e with Called c => Some c | _ => None end) es.

Definition saved (es : list Effect) : list MessageModel.Message :=
  omap (fun e => match e with Saved m => Some m | _ => None end) es.

End Gateway.

Import Gateway.

(** ** [src/services/groupService.js] *)

Module GroupService.

(** [getGroupById]: the document as JSON; [NotFoundError] when the query
    gives [null], [ValidationError] on a cast error of the driver,
    [InternalError] on any other failure. *)
Definition getGroupById (groupId : string) : M Group :=
  tell (Called (getGroupById_call groupId));;
  c ← ask;
  try_catch
    (group ← await (Group_findById_populate c groupId);
     match group with
     | None => throw (new_NotFoundError "Group not found" "GROUP_NOT_FOUND")
     | Some g => mret g
     end)
    (fun error =>
       if String.eqb (Errors.name error) "CastError" then
         throw (new_ValidationError "Invalid group ID format" (VStr "INVALID_ID"))
       else if instanceof error NotFoundError then
         throw error
       else
         throw (new_InternalError "Group service error")).

End GroupService.

(** ** [src/utils/encryption.js] *)

Module Encryption.

Record EncryptionResult := {
  r_encryptedContent : string;
  r_iv : string;
  r_algorithm : string;
  r_keyVersion : Z;
}.

Definition ALGORITHM : string := "aes-128-cbc".

(** [encryptMessage]: every failure, of the checks or of the cipher,
    leaves as the same plain [Error]. *)
Definition encryptMessage (plaintext : string) : M EncryptionResult :=
  c ← ask;
  try_catch
    (if String.eqb plaintext "" then
       throw (new_Error Error "Plaintext must be a non-empty string")
     else if (10000 <? Z.of_nat (String.length plaintext))%Z then
       throw (new_Error Error "Message content too large for encryption")
     else
       '(encrypted, iv) ← await (cipher c plaintext);
       mret {| r_encryptedContent := encrypted; r_iv := iv;
               r_algorithm := ALGORITHM; r_keyVersion := 1 |})
    (fun _ => throw (new_Error Error "Failed to encrypt message content")).

End Encryption.

(** ** [src/services/messageService.js] *)

Module MessageService.

Import MessageModel.

(** [sendMessage(userId, groupId, content)] *)
Definition sendMessage (userId groupId content : string) : M Message :=
  tell (Called (sendMessage_call userId groupId content));;
  c ← ask;
  try_catch
    (group ← await (Group_findById c groupId);
     match group with
     | None => throw (new_NotFoundError "Group not found" "GROUP_NOT_FOUND")
     | Some group =>
         if negb (isMember group userId) then
           throw (new_AuthorizationError
                    "Only group members can send messages to the group"
                    "NOT_GROUP_MEMBER")
         else if String.eqb content "" || trim_is_empty content then
           throw (new_ValidationError "Message content cannot be empty"
                                      (VStr "EMPTY_MESSAGE"))
         else
           encryptionResult ← Encryption.encryptMessage content;
           (* [new Message({...})]; the identifier is the store's to give *)
           let message :=
             {| _id := ""; group := groupId; sender := userId;
                content := content;
                encryptedContent := Encryption.r_encryptedContent encryptionResult;
                iv := Encryption.r_iv encryptionResult;
                algorithm := Encryption.r_algorithm encryptionResult;
                keyVersion := Encryption.r_keyVersion encryptionResult;
                timestamp := now c |} in
           savedMessage ← await (Message_save c message);
           tell (Saved savedMessage);;
           mret (set_content savedMessage content)
     end)
    (fun error =>
       if instanceof error NotFoundError
          || instanceof error AuthorizationError
          || instanceof error ValidationError then
         throw error
       else if String.eqb (Errors.name error) "MongoError"
               || String.eqb (Errors.name error) "MongooseError" then
         throw (new_InternalError ("Database error: " +:+ Errors.message error))
       else if String.eqb (Errors.name error) "EncryptionError" then
         throw (new_InternalError ("Encryption error: " +:+ Errors.message error))
       else
         throw (new_InternalError ("Message service error: " +:+ Errors.message error))).

End MessageService.

(** ** [src/realtime/handlers/presenceHandlers.js] *)

Module PresenceHandlers.

(** The test repeated in the handlers:
    [group.members.some(member => member.user.toString() === userId &&
    member.status === 'active')]. *)
Definition some_active_member (group : Group) (userId : string) : bool :=
  existsb (fun member =>
             bool_decide (GroupModel.user member = userId) &&
             bool_decide (GroupModel.status member = active))
          (members group).

(** [globalActiveUsers]: add [groupId] to the set of [userId], creating
    the set when the user has none. *)
Definition track (userId groupId : string) (st : State) : State :=
  let active_users :=
    if decide (is_Some (globalActiveUsers st !! userId))
    then globalActiveUsers st
    else <[ userId := ∅ ]> (globalActiveUsers st) in
  {| sockets := sockets st;
     rooms := rooms st;
     globalActiveUsers :=
       alter (fun groups => {[ groupId ]} ∪ groups) userId active_users |}.

(** [globalActiveUsers]: remove [groupId] from the set of [userId], and
    the user when the set is empty afterwards. *)
Definition untrack (userId groupId : string) (st : State) : State :=
  {| sockets := sockets st;
     rooms := rooms st;
     globalActiveUsers :=
       match globalActiveUsers st !! userId with
       | Some groups =>
           let groups' := groups ∖ {[ groupId ]} in
           if decide (size groups' = 0)
           then delete userId (globalActiveUsers st)
           else <[ userId := groups' ]> (globalActiveUsers st)
       | None => globalActiveUsers st
       end |}.

(** [globalActiveUsers.delete(userId)] *)
Definition forget (userId : string) (st : State) : State :=
  {| sockets := sockets st;
     rooms := rooms st;
     globalActiveUsers := delete userId (globalActiveUsers st) |}.

Definition handleJoinGroup (socket : Socket) (data : Payload) : M unit :=
  try_catch
    (u ← socket_user socket;
     let userId := userId u in
     if negb (truthy (groupId data)) then
       callback (failure "Group ID is required" (Some (VStr "INVALID_INPUT")))
     else
       let groupId := str (groupId data) in
       try_catch
         (group ← GroupService.getGroupById groupId;
          let isMember := some_active_member group userId in
          (if negb isMember then
             throw (new_AuthorizationError "You are not a member of this group"
                                           "NOT_GROUP_MEMBER")
           else mret tt);;
          modify (join socket (group_room groupId));;
          modify (track userId groupId);;
          socket_to_emit socket (group_room groupId)
            (user_active userId (email u) groupId "online");;
          callback {| success := true;
                      message := Some "Successfully joined group room";
                      error := None; data := None; details := None |})
         (fun error =>
            if instanceof error NotFoundError then
              callback (failure "Group not found" (Some (VStr "GROUP_NOT_FOUND")))
            else if instanceof error AuthorizationError then
              callback (failure (Errors.message error) (Errors.get error "code"))
            else throw error))
    (fun error =>
       callback (failure "Failed to join group room" (Some (VStr "INTERNAL_ERROR")))).

Definition handleLeaveGroup (socket : Socket) (data : Payload) : M unit :=
  try_catch
    (u ← socket_user socket;
     let userId := userId u in
     if negb (truthy (groupId data)) then
       callback (failure "Group ID is required" (Some (VStr "INVALID_INPUT")))
     else
       let groupId := str (groupId data) in
       modify (leave socket (group_room groupId));;
       modify (untrack userId groupId);;
       socket_to_emit socket (group_room groupId)
         (user_inactive userId (email u) groupId "offline");;
       callback {| success := true;
                   message := Some "Successfully left group room";
                   error := None; data := None; details := None |})
    (fun error =>
       callback (failure "Failed to leave group room" (Some (VStr "INTERNAL_ERROR")))).

(** [sockets.map(s => ({ userId: s.user.userId, email: s.user.email,
    status: 'online' }))] *)
Fixpoint activeUsers_of (sockets : list Socket) : M (list ActiveUser) :=
  match sockets with
  | [] => mret []
  | s :: rest =>
      u ← socket_user s;
      us ← activeUsers_of rest;
      mret ({| au_userId := userId u; au_email := email u;
               au_status := "online" |} :: us)
  end.

Definition handleGetActiveUsers (socket : Socket) (data : Payload) : M unit :=
  try_catch
    (u ← socket_user socket;
     let userId := userId u in
     if negb (truthy (groupId data)) then
       callback (failure "Group ID is required" (Some (VStr "INVALID_INPUT")))
     else
       let groupId := str (groupId data) in
       try_catch
         (group ← GroupService.getGroupById groupId;
          let isMember := some_active_member group userId in
          (if negb isMember then
             throw (new_AuthorizationError "You are not a member of this group"
                                           "NOT_GROUP_MEMBER")
           else mret tt);;
          sockets ← fetchSockets (group_room groupId);
          activeUsers ← activeUsers_of sockets;
          callback {| success := true; message := None; error := None;
                      data := Some (users_data activeUsers);
                      details := None |})
         (fun error =>
            if instanceof error NotFoundError then
              callback (failure "Group not found" (Some (VStr "GROUP_NOT_FOUND")))
            else if instanceof error AuthorizationError then
              callback (failure (Errors.message error) (Errors.get error "code"))
            else throw error))
    (fun error =>
       callback (failure "Failed to get active users" (Some (VStr "INTERNAL_ERROR")))).

(** [groups.forEach(groupId => socket.to(`group:${groupId}`).emit(...))] *)
Fixpoint notify_offline (socket : Socket) (u : Identity)
    (groups : list string) : M unit :=
  match groups with
  | [] => mret tt
  | groupId :: rest =>
      socket_to_emit socket (group_room groupId)
        (user_inactive (userId u) (email u) groupId "offline");;
      notify_offline socket u rest
  end.

(** [handleDisconnect]: [socket.user?.userId] is [undefined] on a socket
    without identity; nothing happens unless the user id is truthy and
    known to the presence map. *)
Definition handleDisconnect (socket : Socket) : M unit :=
  st ← get_state;
  let userId := userId <$> user socket in
  if truthy userId
     && bool_decide (is_Some (globalActiveUsers st !! str userId)) then
    let groups := elements (default ∅ (globalActiveUsers st !! str userId)) in
    notify_offline socket {| userId := str userId;
                             email := str (email <$> user socket) |} groups;;
    modify (forget (str userId))
  else mret tt.

End PresenceHandlers.

(** ** [src/realtime/handlers/messageHandlers.js] *)

Module MessageHandlers.

(** [handleError(error, defaultMessage, callback)] *)
Definition handleError (error : ErrorObj) (defaultMessage : string) : M unit :=
  if instanceof error NotFoundError then
    callback (failure (Errors.message error) (Errors.get error "code"))
  else if instanceof error ValidationError then
    callback {| success := false; message := Some (Errors.message error);
                error := Errors.get error "code"; data := None;
                details := Errors.get error "details" |}
  else if instanceof error AuthorizationError then
    callback (failure (Errors.message error) (Errors.get error "code"))
  else
    callback (failure (if String.eqb defaultMessage ""
                       then "An error occurred" else defaultMessage)
                      (Some (VStr "INTERNAL_ERROR"))).

Definition handleSendMessage (socket : Socket) (data : Payload) : M unit :=
  try_catch
    (u ← socket_user socket;
     let userId := userId u in
     if negb (truthy (groupId data)) || negb (truthy (content data)) then
       callback (failure "Group ID and message content are required"
                         (Some (VStr "INVALID_INPUT")))
     else
       let groupId := str (groupId data) in
       let content := str (content data) in
       try_catch
         (group ← GroupService.getGroupById groupId;
          let isMember :=
            existsb (fun member =>
                       bool_decide (GroupModel.user member = userId) &&
                       bool_decide (GroupModel.status member = active))
                    (members group) in
          if negb isMember then
            callback (failure "You are not a member of this group"
                              (Some (VStr "NOT_GROUP_MEMBER")))
          else
            message ← MessageService.sendMessage userId groupId content;
            socket_to_emit socket (group_room groupId) (message_new true message);;
            callback {| success := true;
                        Wire.message := Some "Message sent successfully";
                        error := None;
                        data := Some (message_data message);
                        details := None |})
         (fun error =>
            if instanceof error NotFoundError then
              callback (failure "Group not found" (Some (VStr "GROUP_NOT_FOUND")))
            else throw error))
    (fun error => handleError error "Error sending message").

(** [handleTypingStart] and [handleTypingStop] differ in the flag only. *)
Definition handleTyping (typing : bool) (socket : Socket) (data : Payload)
    : M unit :=
  try_catch
    (u ← socket_user socket;
     if negb (truthy (groupId data)) then mret tt
     else
       let groupId := str (groupId data) in
       socket_to_emit socket (group_room groupId)
         (user_typing (userId u) (email u) groupId typing))
    (fun error => mret tt).

Definition handleTypingStart := handleTyping true.
Definition handleTypingStop := handleTyping false.

Definition handleMessageRead (socket : Socket) (data : Payload) : M unit :=
  try_catch
    (u ← socket_user socket;
     let userId := userId u in
     if negb (truthy (messageId data)) || negb (truthy (groupId data)) then
       callback (failure "Message ID and group ID are required"
                         (Some (VStr "INVALID_INPUT")))
     else
       let messageId := str (messageId data) in
       let groupId := str (groupId data) in
       c ← ask;
       io_in_emit (group_room groupId)
         (message_read messageId userId (email u) (now c));;
       callback {| success := true; message := None; error := None;
                   data := None; details := None |})
    (fun error => handleError error "Error processing read receipt").

End MessageHandlers.

(** ** [src/realtime/middleware/authMiddleware.js] *)

Module AuthMiddleware.

(** [socket.handshake]: [auth.token] and [headers.authorization]. *)
Record Handshake := {
  auth_token : option string;
  authorization : option string;
}.

(** [socket.handshake.auth.token ||
     socket.handshake.headers.authorization?.replace('Bearer ', '')] *)
Definition token_of (h : Handshake) : option string :=
  if truthy (auth_token h) then auth_token h
  else replace "Bearer " "" <$> authorization h.

(** The middleware on a fresh socket [sid]: the socket as it leaves the
    middleware, and the error given to [next], if any. *)
Definition createAuthMiddleware (c : Collab) (sid : string) (h : Handshake)
    : Socket * option ErrorObj :=
  let socket := {| id := sid; user := None |} in
  let token := token_of h in
  if negb (truthy token) then
    (socket, Some (new_AuthenticationError "Authentication error" "NO_AUTH_TOKEN"))
  else
    match verifyToken c (str token) with
    | Return decoded =>
        ({| id := sid;
            user := Some {| userId := userId decoded; email := email decoded |} |},
         None)
    | Throw error =>
        (socket, Some (new_AuthenticationError "Invalid or expired token"
                                               "INVALID_TOKEN"))
    end.

End AuthMiddleware.

(** ** [src/realtime/socket.js] *)

Module SocketServer.

Import AuthMiddleware PresenceHandlers MessageHandlers.

(** The namespace registers a socket that passed the middleware. *)
Definition register (socket : Socket) (st : State) : State :=
  {| sockets := <[ id socket := socket ]> (sockets st);
     rooms := rooms st;
     globalActiveUsers := globalActiveUsers st |}.

(** The listener of ['connection']. *)
Definition on_connection (socket : Socket) : M unit :=
  u ← socket_user socket;
  c ← ask;
  tell (Emit (id socket)
             (connect_success (userId u) (email u) (id socket) (now c))).

(** A connection attempt: [io.use(createAuthMiddleware())], then the
    ['connection'] listener for a socket that passed. *)
Definition connect (sid : string) (h : Handshake) : M (option Socket) :=
  c ← ask;
  match createAuthMiddleware c sid h with
  | (_, Some error) => tell (Refused error);; mret None
  | (socket, None) =>
      modify (register socket);;
      on_connection socket;;
      mret (Some socket)
  end.

(** The events a client sends, named after the event strings. *)
Inductive ClientEvent :=
| message_send | user_typing_start | user_typing_stop | message_read_receipt
| group_join | group_leave | group_active_users.

(** [socket.on(event, handler)] *)
Definition on (socket : Socket) (ev : ClientEvent) (data : Payload) : M unit :=
  match ev with
  | message_send => handleSendMessage socket data
  | user_typing_start => handleTypingStart socket data
  | user_typing_stop => handleTypingStop socket data
  | message_read_receipt => handleMessageRead socket data
  | group_join => handleJoinGroup socket data
  | group_leave => handleLeaveGroup socket data
  | group_active_users => handleGetActiveUsers socket data
  end.

(** A socket closes: Socket.io takes it out of its rooms and of the
    namespace, then the ['disconnect'] listener runs. *)
Definition on_disconnect (socket : Socket) : M unit :=
  modify (close socket);;
  handleDisconnect socket.

End SocketServer.

(** ** Vocabulary of the statements *)

(** Connection [sid] is connected and in [room]. *)
Definition joined (st : State) (room sid : string) : Prop :=
  sid ∈ room_sids st room ∧ is_Some (sockets st !! sid).

#[global] Instance joined_dec st room sid : Decision (joined st room sid).
Proof. unfold joined. apply _. Defined.

(** The groups the presence map records for a user. *)
Definition presence (st : State) (userId : string) : gset string :=
  default ∅ (globalActiveUsers st !! userId).

Definition join_ok : Response :=
  {| success := true; message := Some "Successfully joined group room";
     error := None; data := None; details := None |}.

Definition leave_ok : Response :=
  {| success := true; message := Some "Successfully left group room";
     error := None; data := None; details := None |}.

(** The answer to a read receipt: the success flag and nothing else. *)
Definition read_ok : Response :=
  {| success := true; message := None; error := None; data := None;
     details := None |}.

(** The entry of [group:active_users] for a connection with identity [u]. *)
Definition active_user (u : Identity) : ActiveUser :=
  {| au_userId := userId u; au_email := email u; au_status := "online" |}.

Definition users_ok (l : list ActiveUser) : Response :=
  {| success := true; message := None; error := None;
     data := Some (users_data l); details := None |}.

(** C9 as the specification words it, for one request: the answer lists
    identities that are distinct, one entry per identity. *)
Definition answers_distinct_identities (c : Collab) (st : State)
    (socket : Socket) (data : Payload) : Prop :=
  ∃ l, acks (effects (PresenceHandlers.handleGetActiveUsers socket data c st))
       = [users_ok l]
       ∧ NoDup (au_userId <$> l).

(** The notification that the room of [groupId] gets when [socket] goes. *)
Definition offline_notice (st : State) (socket : Socket) (u : Identity)
    (groupId : string) : Effect :=
  Broadcast (group_room groupId)
            (targets st (group_room groupId) {[ id socket ]})
            (user_inactive (userId u) (email u) groupId "offline").

(** Connection [sid] is registered with identity [v], and [entry] is what
    the answer to [group:active_users] holds for it. *)
Definition entry_for (st : State) (sid : string) (entry : ActiveUser) : Prop :=
  ∃ s v, sockets st !! sid = Some s ∧ user s = Some v ∧ entry = active_user v.

(** The errors the authentication middleware gives to [next]. *)
Definition no_token_error : ErrorObj :=
  new_AuthenticationError "Authentication error" "NO_AUTH_TOKEN".

Definition invalid_token_error : ErrorObj :=
  new_AuthenticationError "Invalid or expired token" "INVALID_TOKEN".

(** Every registered socket is registered under its own id and carries an
    identity. *)
Definition identified (st : State) : Prop :=
  ∀ sid s, sockets st !! sid = Some s → id s = sid ∧ is_Some (user s).

(** The states the gateway can be in: it starts empty; connections are
    attempted, registered sockets send events and close.  The collaborators
    may answer differently each time. *)
Inductive reachable : State → Prop :=
| reach_initial : reachable initial
| reach_connect c st sid h :
    reachable st →
    sockets st !! sid = None →
    reachable (final (SocketServer.connect sid h c st))
| reach_event c st socket ev data :
    reachable st →
    sockets st !! id socket = Some socket →
    reachable (final (SocketServer.on socket ev data c st))
| reach_disconnect c st socket :
    reachable st →
    sockets st !! id socket = Some socket →
    reachable (final (SocketServer.on_disconnect socket c st)).

(** Code that leaves the set of registered sockets alone. *)
Definition keeps_sockets {A} (m : M A) : Prop :=
  ∀ c st, sockets (final (m c st)) = sockets st.

(** C3 as the specification words it, for one connection and one request:
    of two leave requests in a row the second is acknowledged with
    success, and no connection receives an event from it. *)
Definition second_leave_is_silent (c : Collab) (st : State) (socket : Socket)
    (data : Payload) : Prop :=
  let r1 := PresenceHandlers.handleLeaveGroup socket data c st in
  let r2 := PresenceHandlers.handleLeaveGroup socket data c (final r1) in
  acks (effects r2) = [leave_ok] ∧ ∀ sid, received sid (effects r2) = [].

(** A payload that carries a group id only. *)
Definition for_group (groupId : string) : Payload :=
  {| groupId := Some groupId; content := None; messageId := None |}.

(** ** A small deployment used to exercise the statements *)

Module Scenario.

Definition alice : Identity := {| userId := "a1"; email := "alice@example.com" |}.
Definition bob : Identity := {| userId := "b2"; email := "bob@example.com" |}.
Definition carol : Identity := {| userId := "c3"; email := "carol@example.com" |}.

Definition s1 : Socket := {| id := "s1"; user := Some alice |}.
Definition s2 : Socket := {| id := "s2"; user := Some bob |}.
Definition s3 : Socket := {| id := "s3"; user := Some carol |}.
(** a second connection of alice *)
Definition s4 : Socket := {| id := "s4"; user := Some alice |}.

(** Group [g1]: alice and bob are active, carol is pending. *)
Definition g1 : Group :=
  {| GroupModel._id := "g1";
     members := [ {| GroupModel.user := "a1"; status := active |};
                  {| GroupModel.user := "b2"; status := active |};
                  {| GroupModel.user := "c3"; status := pending |} ] |}.

Definition find (groupId : string) : Outcome (option Group) :=
  if String.eqb groupId "g1" then Return (Some g1) else Return None.

Definition collab : Collab :=
  {| Group_findById_populate := find;
     Group_findById := find;
     cipher := fun plaintext => Return ("c2VjcmV0", "00112233445566778899aabbccddeeff");
     Message_save := fun m => Return m;
     verifyToken := fun token =>
       if String.eqb token "token-of-alice" then Return alice
       else Throw (new_Error Error "Invalid token");
     now := "2024-05-01T10:00:00.000Z" |}.

(** Four connections; bob and alice's second connection are in the room
    of [g1]. *)
Definition st : State :=
  {| sockets := <[ "s1" := s1 ]> (<[ "s2" := s2 ]> (<[ "s3" := s3 ]> (<[ "s4" := s4 ]> ∅)));
     rooms := {[ "group:g1" := {[ "s2"; "s4" ]} ]};
     globalActiveUsers := <[ "b2" := {[ "g1" ]} ]> {[ "a1" := {[ "g1" ]} ]} |}.

(** The same with alice's first connection in the room too: she is there
    twice. *)
Definition st_twice : State :=
  {| sockets := sockets st;
     rooms := {[ "group:g1" := {[ "s1"; "s2"; "s4" ]} ]};
     globalActiveUsers := globalActiveUsers st |}.

End Scenario.

(** The events that come with an acknowledgement callback: all but the two
    typing events. *)
Definition expects_ack (ev : SocketServer.ClientEvent) : bool :=
  match ev with
  | SocketServer.user_typing_start | SocketServer.user_typing_stop => false
  | _ => true
  end.

(** The events whose handler writes to the rooms or to the presence map. *)
Definition changes_state (ev : SocketServer.ClientEvent) : bool :=
  match ev with
  | SocketServer.group_join | SocketServer.group_leave => true
  | _ => false
  end.

(** A run that returned, left the state [st] alone and answered once. *)
Definition answered_once (st : State) (r : Res unit) : Prop :=
  ∃ response, outcome r = Return tt ∧ final r = st
              ∧ acks (effects r) = [response].

(** [after es r]: the run [r], preceded by the effects [es]. *)
Definition after {A} (es : list Effect) (r : Res A) : Res A :=
  {| outcome := outcome r; final := final r; effects := es ++ effects r |}.

(** A run that threw [e] and did nothing else. *)
Definition thrown {A} (st : State) (es : list Effect) (e : ErrorObj) : Res A :=
  {| outcome := Throw e; final := st; effects := es |}.

(** A run that returned [a]. *)
Definition returned {A} (st : State) (es : list Effect) (a : A) : Res A :=
  {| outcome := Return a; final := st; effects := es |}.

(** What a [catch] makes of the run [r] of its [try] block. *)
Definition handle {A} (H : ErrorObj → M A) (c : Collab) (r : Res A) : Res A :=
  match outcome r with
  | Return _ => r
  | Throw e => after (effects r) (H e c (final r))
  end.

(** The error that leaves the catch block of [getGroupById] when the query
    threw [error]. *)
Definition group_service_error (error : ErrorObj) : ErrorObj :=
  if String.eqb (Errors.name error) "CastError" then
    new_ValidationError "Invalid group ID format" (VStr "INVALID_ID")
  else if instanceof error NotFoundError then error
  else new_InternalError "Group service error".

(** The error that leaves the catch block of [sendMessage] when its body
    threw [error]. *)
Definition message_service_error (error : ErrorObj) : ErrorObj :=
  if instanceof error NotFoundError || instanceof error AuthorizationError
     || instanceof error ValidationError then error
  else if String.eqb (Errors.name error) "MongoError"
          || String.eqb (Errors.name error) "MongooseError" then
    new_InternalError ("Database error: " +:+ Errors.message error)
  else if String.eqb (Errors.name error) "EncryptionError" then
    new_InternalError ("Encryption error: " +:+ Errors.message error)
  else
    new_InternalError ("Message service error: " +:+ Errors.message error).

(** The one error [encryptMessage] lets out. *)
Definition encrypt_failed : ErrorObj :=
  new_Error Error "Failed to encrypt message content".

(** The document that [sendMessage] hands to [save]. *)
Definition new_message (c : Collab) (userId groupId content : string)
    (encrypted iv : string) : MessageModel.Message :=
  {| MessageModel._id := ""; MessageModel.group := groupId;
     MessageModel.sender := userId; MessageModel.content := content;
     MessageModel.encryptedContent := encrypted; MessageModel.iv := iv;
     MessageModel.algorithm := Encryption.ALGORITHM;
     MessageModel.keyVersion := 1; MessageModel.timestamp := now c |}.

(** The rooms of the adapter are in order: no room is empty, and a room
    holds registered sockets only. *)
Definition rooms_ok (st : State) : Prop :=
  ∀ room members, rooms st !! room = Some members →
    members ≠ ∅ ∧ ∀ sid, sid ∈ members → is_Some (sockets st !! sid).

(** The presence map holds no empty set. *)
Definition presence_ok (st : State) : Prop :=
  ∀ userId groups, globalActiveUsers st !! userId = Some groups → groups ≠ ∅.

Definition well_formed (st : State) : Prop :=
  identified st ∧ rooms_ok st ∧ presence_ok st.

(** Code that keeps the property [P] of the gateway state. *)
Definition preserves (P : State → Prop) {A} (m : M A) : Prop :=
  ∀ c st, P st → P (final (m c st)).

(** ** [src/models/Group.js]: the methods of a group document

    The document with the fields that the methods read and write; dates
    are in milliseconds.  A method that ends in [this.save()] is modelled up
    to the document that is written: the method body, then the pre-save
    hook on the members.  Whether the store accepts the write, and the hook
    on [stats.lastActivity], are not part of the model. *)

Module GroupDocument.

Record MemberDoc := {
  user : string;
  status : MemberStatus;
  joinedAt : Z;
  lastBannedAt : option Z;
  banReason : option string;
}.

Record GroupDoc := {
  owner : string;
  members : list MemberDoc;
  (** [settings.cooldownPeriod], in hours *)
  cooldownPeriod : Z;
  createdAt : option Z;
  memberLimit : Z;
}.

Definition set_members (g : GroupDoc) (l : list MemberDoc) : GroupDoc :=
  {| owner := owner g; members := l; cooldownPeriod := cooldownPeriod g;
     createdAt := createdAt g; memberLimit := memberLimit g |}.

Definition set_owner (g : GroupDoc) (o : string) : GroupDoc :=
  {| owner := o; members := members g; cooldownPeriod := cooldownPeriod g;
     createdAt := createdAt g; memberLimit := memberLimit g |}.

(** [member.user.toString() === userId.toString()] *)
Definition is_user (userId : string) (member : MemberDoc) : bool :=
  bool_decide (user member = userId).

Definition has_status (s : MemberStatus) (member : MemberDoc) : bool :=
  bool_decide (status member = s).

(** [const m = members.find(p); if (m) { m.field = ... }]: the first
    element that satisfies [p] is changed in place. *)
Fixpoint update_first (p : MemberDoc → bool) (f : MemberDoc → MemberDoc)
    (l : list MemberDoc) : list MemberDoc :=
  match l with
  | [] => []
  | m :: l' => if p m then f m :: l' else m :: update_first p f l'
  end.

(** The virtual [memberCount] *)
Definition memberCount (g : GroupDoc) : nat :=
  length (List.filter (has_status active) (members g)).

(** The virtual [pendingMemberCount] *)
Definition pendingMemberCount (g : GroupDoc) : nat :=
  length (List.filter (has_status pending) (members g)).

Definition isMember (g : GroupDoc) (userId : string) : bool :=
  existsb (fun member => is_user userId member && has_status active member)
          (members g).

Definition isOwner (g : GroupDoc) (userId : string) : bool :=
  bool_decide (owner g = userId).

Definition getMember (g : GroupDoc) (userId : string) : option MemberDoc :=
  List.find (is_user userId) (members g).

Definition isBanned (g : GroupDoc) (userId : string) : bool :=
  match List.find (is_user userId) (members g) with
  | Some member => has_status banned member
  | None => false
  end.

Definition hasPendingRequest (g : GroupDoc) (userId : string) : bool :=
  existsb (fun member => is_user userId member && has_status pending member)
          (members g).

(** [isInCooldownPeriod], with [now] for [Date.now()] *)
Definition isInCooldownPeriod (now : Z) (g : GroupDoc) (userId : string) : bool :=
  match List.find (fun member => is_user userId member && has_status banned member)
                  (members g) with
  | Some member =>
      match lastBannedAt member with
      | Some bannedAt =>
          let cooldownMs := (cooldownPeriod g * 60 * 60 * 1000)%Z in
          let timeSinceBan := (now - bannedAt)%Z in
          (timeSinceBan <? cooldownMs)%Z
      | None => false
      end
  | None => false
  end.

(** The pre-save hook: the owner is in [members] with status [active]. *)
Definition pre_save (now : Z) (g : GroupDoc) : GroupDoc :=
  match List.find (is_user (owner g)) (members g) with
  | None =>
      set_members g
        ({| user := owner g; status := active;
            joinedAt := default now (createdAt g);
            lastBannedAt := None; banReason := None |} :: members g)
  | Some ownerMember =>
      if negb (has_status active ownerMember) then
        set_members g
          (update_first (is_user (owner g))
             (fun m => {| user := user m; status := active;
                          joinedAt := joinedAt m;
                          lastBannedAt := lastBannedAt m;
                          banReason := banReason m |})
             (members g))
      else g
  end.

(** [this.save()], up to the document that is written. *)
Definition save (now : Z) (g : GroupDoc) : GroupDoc := pre_save now g.

Definition addMember (now : Z) (userId : string) (st : MemberStatus)
    (g : GroupDoc) : GroupDoc :=
  save now
    (match List.find (is_user userId) (members g) with
     | Some _ =>
         set_members g
           (update_first (is_user userId)
              (fun m => {| user := user m; status := st; joinedAt := now;
                           lastBannedAt :=
                             if bool_decide (st = banned) then Some now
                             else lastBannedAt m;
                           banReason := banReason m |})
              (members g))
     | None =>
         set_members g
           (members g ++
            [{| user := userId; status := st; joinedAt := now;
                lastBannedAt :=
                  if bool_decide (st = banned) then Some now else None;
                banReason := None |}])
     end).

Definition removeMember (now : Z) (userId : string) (g : GroupDoc) : GroupDoc :=
  save now
    (set_members g (List.filter (fun member => negb (is_user userId member))
                                (members g))).

Definition banMember (now : Z) (userId : string) (reason : string)
    (g : GroupDoc) : GroupDoc :=
  save now
    (set_members g
       (update_first (is_user userId)
          (fun m => {| user := user m; status := banned;
                       joinedAt := joinedAt m;
                       lastBannedAt := Some now;
                       banReason := Some reason |})
          (members g))).

Definition approveMember (now : Z) (userId : string) (g : GroupDoc) : GroupDoc :=
  save now
    (set_members g
       (update_first
          (fun member => is_user userId member && has_status pending member)
          (fun m => {| user := user m; status := active; joinedAt := now;
                       lastBannedAt := lastBannedAt m;
                       banReason := banReason m |})
          (members g))).

(** [group.toJSON()], as far as the realtime handlers read it. *)
Definition toJSON (groupId : string) (g : GroupDoc) : Group :=
  {| GroupModel._id := groupId;
     GroupModel.members :=
       List.map (fun m => {| GroupModel.user := user m;
                             GroupModel.status := status m |})
                (members g) |}.

(** The users of the entries, in order. *)
Definition users (g : GroupDoc) : list string := List.map user (members g).

End GroupDocument.

(** ** The document store as the services use it

    The services that change documents ask the store for a document,
    decide, and write.  The answers of the store are given; what is
    observed is the result of the call and the writes the store took. *)

Module DocumentStore.

Import GroupDocument.

Record Store := {
  (** [User.findById(userId)]: a user, [null], or a driver error *)
  User_findById : string → Outcome (option Identity);
  (** [Group.findById(groupId)] *)
  Group_findById : string → Outcome (option GroupDoc);
  (** [group.save()] on the document as the caller left it: the error of
      the validation or of the driver, if any *)
  Group_save : GroupDoc → option ErrorObj;
  (** [Group.findByIdAndDelete(groupId)]: the error of the driver, if any *)
  Group_findByIdAndDelete : string → option ErrorObj;
  (** [Message.findById(messageId)] *)
  Message_findById : string → Outcome (option MessageModel.Message);
  (** [Message.findByIdAndDelete(messageId)] *)
  Message_findByIdAndDelete : string → option ErrorObj;
  (** [new Date()] and [Date.now()], in milliseconds *)
  now : Z;
}.

Inductive Write :=
| Group_saved (g : GroupDoc)
| Group_deleted (groupId : string)
| Message_deleted (messageId : string).

Record Run (A : Type) := {
  result : Outcome A;
  writes : list Write;
}.
Arguments result {A} r.
Arguments writes {A} r.

Definition pure {A} (a : A) : Run A := {| result := Return a; writes := [] |}.

Definition raise {A} (e : ErrorObj) : Run A :=
  {| result := Throw e; writes := [] |}.

Definition and_then {A B} (m : Run A) (f : A → Run B) : Run B :=
  match result m with
  | Return a =>
      let r := f a in
      {| result := result r; writes := writes m ++ writes r |}
  | Throw e => {| result := Throw e; writes := writes m |}
  end.

(** [try { body } catch (error) { handler }] *)
Definition catch {A} (body : Run A) (handler : ErrorObj → Run A) : Run A :=
  match result body with
  | Return _ => body
  | Throw e =>
      let r := handler e in
      {| result := result r; writes := writes body ++ writes r |}
  end.

(** An awaited query that settles with the given outcome. *)
Definition awaited {A} (o : Outcome A) : Run A :=
  {| result := o; writes := [] |}.

(** An awaited write: taken by the store, or refused with an error. *)
Definition write (refusal : option ErrorObj) (w : Write) : Run unit :=
  match refusal with
  | None => {| result := Return tt; writes := [w] |}
  | Some error => raise error
  end.

#[global] Instance Run_ret : MRet Run := @pure.
#[global] Instance Run_bind : MBind Run := fun A B f m => and_then m f.

(** [await group.save()]: the hooks run, the store takes the document and
    the promise gives the document back.  The log lists every document
    handed to the store; Mongoose sends nothing for a document without a
    modified path, so the log may hold a write that changes nothing. *)
Definition group_save (s : Store) (g : GroupDoc) : Run GroupDoc :=
  let doc := save (now s) g in
  write (Group_save s g) (Group_saved doc);;
  mret doc.

(** [{ success: true, message }] *)
Record Confirmation := {
  confirmed : bool;
  confirmation : string;
}.

(** [class ConflictError]; its [field], [null] here, is left out. *)
Definition new_ConflictError (msg errorCode : string) : ErrorObj :=
  new_AppError ConflictError msg 409 errorCode.

End DocumentStore.

(** ** [src/services/groupService.js]: deleting a group, members, owner

    The functions return [updatedGroup.toJSON()]; here they return the
    document. *)

Module GroupMembers.

Import GroupDocument DocumentStore.

Definition deleteGroup (s : Store) (userId groupId : string)
    : Run Confirmation :=
  catch
    (group ← awaited (Group_findById s groupId);
     match group with
     | None => raise (new_NotFoundError "Group not found" "GROUP_NOT_FOUND")
     | Some group =>
         if negb (bool_decide (owner group = userId)) then
           raise (new_AuthorizationError
                    "Only the group owner can delete the group"
                    "NOT_GROUP_OWNER")
         else
           let memberCount := length (members group) in
           if (1 <? memberCount)%nat then
             raise (new_ValidationError
                      "Group still has members and cannot be deleted"
                      (VStr "GROUP_HAS_MEMBERS"))
           else
             write (Group_findByIdAndDelete s groupId) (Group_deleted groupId);;
             mret {| confirmed := true;
                     confirmation := "Group deleted successfully" |}
     end)
    (fun error =>
       if instanceof error NotFoundError
          || instanceof error AuthorizationError
          || instanceof error ValidationError then
         raise error
       else
         raise (new_InternalError "Group service error")).

Definition addMember (s : Store) (userId groupId : string) : Run GroupDoc :=
  catch
    (user ← awaited (User_findById s userId);
     match user with
     | None => raise (new_NotFoundError "User not found" "USER_NOT_FOUND")
     | Some _ =>
         group ← awaited (Group_findById s groupId);
         match group with
         | None => raise (new_NotFoundError "Group not found" "GROUP_NOT_FOUND")
         | Some group =>
             let isMember := existsb (is_user userId) (members group) in
             if isMember then
               raise (new_ConflictError
                        "User is already a member of this group"
                        "ALREADY_MEMBER")
             else if negb (memberLimit group =? 0)%Z
                     && (memberLimit group
                         <=? Z.of_nat (length (members group)))%Z then
               raise (new_ValidationError
                        "Group has reached maximum member capacity"
                        (VStr "GROUP_FULL"))
             else
               (* [group.members.push({ user: userId })]: the schema gives
                  the status [active] and the time of the call *)
               group_save s
                 (set_members group
                    (members group ++
                     [{| user := userId; status := active;
                         joinedAt := now s;
                         lastBannedAt := None; banReason := None |}]))
         end
     end)
    (fun error =>
       if instanceof error NotFoundError
          || instanceof error ValidationError
          || instanceof error ConflictError then
         raise error
       else
         raise (new_InternalError "Group service error")).

Definition removeMember (s : Store) (userId groupId requesterId : string)
    : Run GroupDoc :=
  catch
    (group ← awaited (Group_findById s groupId);
     match group with
     | None => raise (new_NotFoundError "Group not found" "GROUP_NOT_FOUND")
     | Some group =>
         let isOwner := bool_decide (owner group = requesterId) in
         let isSelfRemoval := bool_decide (userId = requesterId) in
         if negb isOwner && negb isSelfRemoval then
           raise (new_AuthorizationError
                    "You do not have permission to remove this member"
                    "REMOVE_MEMBER_UNAUTHORIZED")
         else if bool_decide (userId = owner group)
                 && (1 <? length (members group))%nat then
           raise (new_ValidationError
                    "Group owner cannot leave while other members exist. Transfer ownership first."
                    (VStr "OWNER_CANNOT_LEAVE"))
         else
           (* [memberIndex === -1] *)
           if negb (existsb (is_user userId) (members group)) then
             raise (new_NotFoundError "User is not a member of this group"
                                      "NOT_A_MEMBER")
           else
             group_save s
               (set_members group
                  (List.filter (fun member => negb (is_user userId member))
                               (members group)))
     end)
    (fun error =>
       if instanceof error NotFoundError
          || instanceof error ValidationError
          || instanceof error AuthorizationError then
         raise error
       else
         raise (new_InternalError "Group service error")).

Definition transferOwnership (s : Store)
    (currentOwnerId newOwnerId groupId : string) : Run GroupDoc :=
  catch
    (group ← awaited (Group_findById s groupId);
     match group with
     | None => raise (new_NotFoundError "Group not found" "GROUP_NOT_FOUND")
     | Some group =>
         if negb (bool_decide (owner group = currentOwnerId)) then
           raise (new_AuthorizationError
                    "Only the current owner can transfer ownership"
                    "NOT_GROUP_OWNER")
         else
           let isNewOwnerMember :=
             existsb (fun member => is_user newOwnerId member
                                    && has_status active member)
                     (members group) in
           if negb isNewOwnerMember then
             raise (new_ValidationError
                      "New owner must be a current active member of the group"
                      (VStr "NEW_OWNER_NOT_MEMBER"))
           else
             group_save s (set_owner group newOwnerId)
     end)
    (fun error =>
       if instanceof error NotFoundError
          || instanceof error ValidationError
          || instanceof error AuthorizationError then
         raise error
       else
         raise (new_InternalError "Group service error")).

End GroupMembers.

(** ** [src/services/messageService.js]: deleting a message *)

Module MessageDeletion.

Import GroupDocument DocumentStore.

Definition deleteMessage (s : Store) (userId messageId : string)
    : Run Confirmation :=
  catch
    (message ← awaited (Message_findById s messageId);
     match message with
     | None => raise (new_NotFoundError "Message not found" "MESSAGE_NOT_FOUND")
     | Some message =>
         let isSender := bool_decide (MessageModel.sender message = userId) in
         (if negb isSender then
            group ← awaited (Group_findById s (MessageModel.group message));
            match group with
            | None =>
                raise (new_AuthorizationError
                         "Only the message sender or group owner can delete a message"
                         "DELETE_UNAUTHORIZED")
            | Some group =>
                (* [group.ownerId.toString()]: the schema has [owner] and
                   no [ownerId], so this reads a property of
                   [undefined] *)
                raise (new_Error TypeError
                         "Cannot read properties of undefined (reading 'toString')")
            end
          else mret tt);;
         write (Message_findByIdAndDelete s messageId) (Message_deleted messageId);;
         mret {| confirmed := true;
                 confirmation := "Message deleted successfully" |}
     end)
    (fun error =>
       if instanceof error NotFoundError
          || instanceof error AuthorizationError then
         raise error
       else if String.eqb (Errors.name error) "MongoError"
               || String.eqb (Errors.name error) "MongooseError" then
         raise (new_InternalError ("Database error: " +:+ Errors.message error))
       else
         raise (new_InternalError
                  ("Message service error: " +:+ Errors.message error))).

End MessageDeletion.

(** What the membership functions of the group service throw: one of the
    errors they raise themselves, or the [InternalError] of their [catch]. *)
Definition group_service_failure (e : ErrorObj) : Prop :=
  instanceof e NotFoundError = true
  ∨ instanceof e ValidationError = true
  ∨ instanceof e AuthorizationError = true
  ∨ instanceof e ConflictError = true
  ∨ e = new_InternalError "Group service error".

(** ** A group document used to exercise the statements *)

Module Sample.

Import GroupDocument DocumentStore.

Definition entry (u : string) (s : MemberStatus) (t : Z) : MemberDoc :=
  {| user := u; status := s; joinedAt := t;
     lastBannedAt := None; banReason := None |}.

(** The document of [g1]: alice owns the group, bob is active, carol is
    pending; the cooldown is the default of 48 hours. *)
Definition doc : GroupDoc :=
  {| owner := "a1";
     members := [entry "a1" active 1000%Z; entry "b2" active 2000%Z;
                 entry "c3" pending 3000%Z];
     cooldownPeriod := 48%Z;
     createdAt := Some 1000%Z;
     memberLimit := 100%Z |}.

(** A group of alice alone. *)
Definition solo : GroupDoc :=
  {| owner := "a1";
     members := [entry "a1" active 1000%Z];
     cooldownPeriod := 48%Z;
     createdAt := Some 1000%Z;
     memberLimit := 100%Z |}.

(** A message of bob in [g1]. *)
Definition m1 : MessageModel.Message :=
  {| MessageModel._id := "m1"; MessageModel.group := "g1";
     MessageModel.sender := "b2"; MessageModel.content := "hi";
     MessageModel.encryptedContent := "c2VjcmV0";
     MessageModel.iv := "00112233445566778899aabbccddeeff";
     MessageModel.algorithm := "aes-128-cbc";
     MessageModel.keyVersion := 1;
     MessageModel.timestamp := "2024-05-01T10:00:00.000Z" |}.

(** A store with the groups [g1] and [g2], the user dave and the message
    [m1], that takes every write. *)
Definition store : Store :=
  {| User_findById := fun userId =>
       if String.eqb userId "d4"
       then Return (Some {| userId := "d4"; email := "dave@example.com" |})
       else Return None;
     Group_findById := fun groupId =>
       if String.eqb groupId "g1" then Return (Some doc)
       else if String.eqb groupId "g2" then Return (Some solo)
       else Return None;
     Group_save := fun _ => None;
     Group_findByIdAndDelete := fun _ => None;
     Message_findById := fun messageId =>
       if String.eqb messageId "m1" then Return (Some m1) else Return None;
     Message_findByIdAndDelete := fun _ => None;
     now := 5000%Z |}.

(** The collaborators of [Scenario], with a store that answers with the
    JSON of [doc] for [g1]. *)
Definition collab : Collab :=
  {| Group_findById_populate := fun groupId =>
       if String.eqb groupId "g1" then Return (Some (toJSON "g1" doc))
       else Return None;
     Gateway.Group_findById := Gateway.Group_findById Scenario.collab;
     cipher := cipher Scenario.collab;
     Message_save := Message_save Scenario.collab;
     verifyToken := verifyToken Scenario.collab;
     Gateway.now := Gateway.now Scenario.collab |}.

End Sample.

(** ** The listeners as Socket.io calls them

    [socket.on(event, handler)] calls the handler with what the client
    sent with the event: [data], an object or [null], and [callback], the
    acknowledgement function, which is [undefined] when the client passed
    none.  A client that passes the function alone makes it the first
    argument: [data] is then an object without any of the fields and
    [callback] is [undefined].

    The handlers of [PresenceHandlers] and [MessageHandlers] above are
    these listeners for a request that carries an object and an
    acknowledgement function. *)

Module Listeners.

Import PresenceHandlers.

Record Request := {
  (** [data]: the object the client sent, [None] for [null] *)
  payload : option Payload;
  (** whether [callback] is a function *)
  ack : bool;
}.

(** [const { groupId, ... } = data]: a TypeError when [data] is [null]. *)
Definition destructure (property : string) (data : option Payload) : M Payload :=
  match data with
  | Some p => mret p
  | None =>
      throw (new_Error TypeError
               ("Cannot destructure property '" +:+ property
                +:+ "' of 'data' as it is null."))
  end.

(** [callback(r)]: a TypeError when [callback] is [undefined]. *)
Definition call (ack : bool) (r : Response) : M unit :=
  if ack then Gateway.callback r
  else throw (new_Error TypeError "callback is not a function").

(** [handleError(error, defaultMessage, callback)] *)
Definition handleError (error : ErrorObj) (defaultMessage : string)
    (callback : Response → M unit) : M unit :=
  if instanceof error NotFoundError then
    callback (failure (Errors.message error) (Errors.get error "code"))
  else if instanceof error ValidationError then
    callback {| success := false; message := Some (Errors.message error);
                error := Errors.get error "code"; data := None;
                details := Errors.get error "details" |}
  else if instanceof error AuthorizationError then
    callback (failure (Errors.message error) (Errors.get error "code"))
  else
    callback (failure (if String.eqb defaultMessage ""
                       then "An error occurred" else defaultMessage)
                      (Some (VStr "INTERNAL_ERROR"))).

Definition handleSendMessage (socket : Socket) (req : Request) : M unit :=
  let callback := call (ack req) in
  try_catch
    (data ← destructure "groupId" (payload req);
     u ← socket_user socket;
     let userId := userId u in
     if negb (truthy (groupId data)) || negb (truthy (content data)) then
       callback (failure "Group ID and message content are required"
                         (Some (VStr "INVALID_INPUT")))
     else
       let groupId := str (groupId data) in
       let content := str (content data) in
       try_catch
         (group ← GroupService.getGroupById groupId;
          let isMember :=
            existsb (fun member =>
                       bool_decide (GroupModel.user member = userId) &&
                       bool_decide (GroupModel.status member = active))
                    (members group) in
          if negb isMember then
            callback (failure "You are not a member of this group"
                              (Some (VStr "NOT_GROUP_MEMBER")))
          else
            message ← MessageService.sendMessage userId groupId content;
            socket_to_emit socket (group_room groupId) (message_new true message);;
            callback {| success := true;
                        Wire.message := Some "Message sent successfully";
                        error := None;
                        data := Some (message_data message);
                        details := None |})
         (fun error =>
            if instanceof error NotFoundError then
              callback (failure "Group not found" (Some (VStr "GROUP_NOT_FOUND")))
            else throw error))
    (fun error => handleError error "Error sending message" callback).

(** [handleTypingStart] and [handleTypingStop] differ in the flag only;
    they take no [callback]. *)
Definition handleTyping (typing : bool) (socket : Socket) (req : Request)
    : M unit :=
  try_catch
    (data ← destructure "groupId" (payload req);
     u ← socket_user socket;
     if negb (truthy (groupId data)) then mret tt
     else
       let groupId := str (groupId data) in
       socket_to_emit socket (group_room groupId)
         (user_typing (userId u) (email u) groupId typing))
    (fun error => mret tt).

Definition handleTypingStart := handleTyping true.
Definition handleTypingStop := handleTyping false.

Definition handleMessageRead (socket : Socket) (req : Request) : M unit :=
  let callback := call (ack req) in
  try_catch
    (data ← destructure "messageId" (payload req);
     u ← socket_user socket;
     let userId := userId u in
     if negb (truthy (messageId data)) || negb (truthy (groupId data)) then
       callback (failure "Message ID and group ID are required"
                         (Some (VStr "INVALID_INPUT")))
     else
       let messageId := str (messageId data) in
       let groupId := str (groupId data) in
       c ← ask;
       io_in_emit (group_room groupId)
         (message_read messageId userId (email u) (now c));;
       callback {| success := true; message := None; error := None;
                   data := None; details := None |})
    (fun error => handleError error "Error processing read receipt" callback).

Definition handleJoinGroup (socket : Socket) (req : Request) : M unit :=
  let callback := call (ack req) in
  try_catch
    (data ← destructure "groupId" (payload req);
     u ← socket_user socket;
     let userId := userId u in
     if negb (truthy (groupId data)) then
       callback (failure "Group ID is required" (Some (VStr "INVALID_INPUT")))
     else
       let groupId := str (groupId data) in
       try_catch
         (group ← GroupService.getGroupById groupId;
          let isMember := some_active_member group userId in
          (if negb isMember then
             throw (new_AuthorizationError "You are not a member of this group"
                                           "NOT_GROUP_MEMBER")
           else mret tt);;
          modify (join socket (group_room groupId));;
          modify (track userId groupId);;
          socket_to_emit socket (group_room groupId)
            (user_active userId (email u) groupId "online");;
          callback {| success := true;
                      message := Some "Successfully joined group room";
                      error := None; data := None; details := None |})
         (fun error =>
            if instanceof error NotFoundError then
              callback (failure "Group not found" (Some (VStr "GROUP_NOT_FOUND")))
            else if instanceof error AuthorizationError then
              callback (failure (Errors.message error) (Errors.get error "code"))
            else throw error))
    (fun error =>
       callback (failure "Failed to join group room" (Some (VStr "INTERNAL_ERROR")))).

Definition handleLeaveGroup (socket : Socket) (req : Request) : M unit :=
  let callback := call (ack req) in
  try_catch
    (data ← destructure "groupId" (payload req);
     u ← socket_user socket;
     let userId := userId u in
     if negb (truthy (groupId data)) then
       callback (failure "Group ID is required" (Some (VStr "INVALID_INPUT")))
     else
       let groupId := str (groupId data) in
       modify (leave socket (group_room groupId));;
       modify (untrack userId groupId);;
       socket_to_emit socket (group_room groupId)
         (user_inactive userId (email u) groupId "offline");;
       callback {| success := true;
                   message := Some "Successfully left group room";
                   error := None; data := None; details := None |})
    (fun error =>
       callback (failure "Failed to leave group room" (Some (VStr "INTERNAL_ERROR")))).

Definition handleGetActiveUsers (socket : Socket) (req : Request) : M unit :=
  let callback := call (ack req) in
  try_catch
    (data ← destructure "groupId" (payload req);
     u ← socket_user socket;
     let userId := userId u in
     if negb (truthy (groupId data)) then
       callback (failure "Group ID is required" (Some (VStr "INVALID_INPUT")))
     else
       let groupId := str (groupId data) in
       try_catch
         (group ← GroupService.getGroupById groupId;
          let isMember := some_active_member group userId in
          (if negb isMember then
             throw (new_AuthorizationError "You are not a member of this group"
                                           "NOT_GROUP_MEMBER")
           else mret tt);;
          sockets ← fetchSockets (group_room groupId);
          activeUsers ← activeUsers_of sockets;
          callback {| success := true; message := None; error := None;
                      data := Some (users_data activeUsers);
                      details := None |})
         (fun error =>
            if instanceof error NotFoundError then
              callback (failure "Group not found" (Some (VStr "GROUP_NOT_FOUND")))
            else if instanceof error AuthorizationError then
              callback (failure (Errors.message error) (Errors.get error "code"))
            else throw error))
    (fun error =>
       callback (failure "Failed to get active users" (Some (VStr "INTERNAL_ERROR")))).

(** [socket.on(event, handler)] *)
Definition on (socket : Socket) (ev : SocketServer.ClientEvent) (req : Request)
    : M unit :=
  match ev with
  | SocketServer.message_send => handleSendMessage socket req
  | SocketServer.user_typing_start => handleTypingStart socket req
  | SocketServer.user_typing_stop => handleTypingStop socket req
  | SocketServer.message_read_receipt => handleMessageRead socket req
  | SocketServer.group_join => handleJoinGroup socket req
  | SocketServer.group_leave => handleLeaveGroup socket req
  | SocketServer.group_active_users => handleGetActiveUsers socket req
  end.

(** A request with the object [data] and an acknowledgement function. *)
Definition with_ack (data : Payload) : Request :=
  {| payload := Some data; ack := true |}.

(** A request with [null] for the object, and an acknowledgement
    function: [socket.emit(event, null, callback)]. *)
Definition without_payload : Request := {| payload := None; ack := true |}.

(** A request with the object [data] and no acknowledgement function:
    [socket.emit(event, data)]. *)
Definition without_ack (data : Payload) : Request :=
  {| payload := Some data; ack := false |}.

End Listeners.

(** The error of a call of [callback] when the client passed none. *)
Definition no_callback_error : ErrorObj :=
  new_Error TypeError "callback is not a function".

(** The answer when a handler fails outside its checks. *)
Definition internal_error (msg : string) : Response :=
  failure msg (Some (VStr "INTERNAL_ERROR")).

(** C7 as the specification words it, for one request: when the group id
    or the content is missing, the one answer is [INVALID_INPUT]. *)
Definition send_needs_fields (req : Listeners.Request) : bool :=
  match Listeners.payload req with
  | Some data => negb (truthy (groupId data)) || negb (truthy (content data))
  | None => true
  end.

Definition send_missing_is_invalid_input (c : Collab) (st : State)
    (socket : Socket) (req : Listeners.Request) : Prop :=
  send_needs_fields req = true →
  ∃ response,
    acks (effects (Listeners.handleSendMessage socket req c st)) = [response]
    ∧ error response = Some (VStr "INVALID_INPUT").

(** C8 as the specification words it, for one request: when the message
    id or the group id is missing, the one answer is [INVALID_INPUT]. *)
Definition read_needs_fields (req : Listeners.Request) : bool :=
  match Listeners.payload req with
  | Some data => negb (truthy (messageId data)) || negb (truthy (groupId data))
  | None => true
  end.

Definition read_missing_is_invalid_input (c : Collab) (st : State)
    (socket : Socket) (req : Listeners.Request) : Prop :=
  read_needs_fields req = true →
  ∃ response,
    acks (effects (Listeners.handleMessageRead socket req c st)) = [response]
    ∧ error response = Some (VStr "INVALID_INPUT").

(** C6 as the specification words it, for one attempt: a credential that
    is present, in the auth payload or in the authorization header, and
    that the verifier rejects, is refused with [INVALID_TOKEN]. *)
Definition present_invalid_is_invalid_token (c : Collab) (st : State)
    (sid : string) (h : AuthMiddleware.Handshake) : Prop :=
  is_Some (AuthMiddleware.auth_token h)
  ∨ is_Some (AuthMiddleware.authorization h) →
  (∀ token,
     AuthMiddleware.auth_token h = Some token
     ∨ AuthMiddleware.authorization h = Some token
     ∨ AuthMiddleware.authorization h = Some ("Bearer " +:+ token) →
     ∃ error, verifyToken c token = Throw error) →
  effects (SocketServer.connect sid h c st) = [Refused invalid_token_error].

(** Code that never calls the acknowledgement. *)
Definition never_acks {A} (m : M A) : Prop :=
  ∀ c st, acks (effects (m c st)) = [].

(** Code that ends by throwing, whatever the collaborators answer. *)
Definition always_throws {A} (m : M A) : Prop :=
  ∀ c st, ∃ e, outcome (m c st) = Throw e.

(** * Properties *)

(** ** Rooms and deliveries *)

Section Rooms.

Implicit Types (st : State) (room sid : string) (socket : Socket).

Lemma elem_of_targets st room except sid :
  sid ∈ targets st room except ↔ joined st room sid ∧ sid ∉ except.
Proof.
  unfold targets, joined.
  rewrite list_elem_of_filter, elem_of_elements. tauto.
Qed.

Lemma NoDup_targets st room except : NoDup (targets st room except).
Proof. unfold targets. apply NoDup_filter, NoDup_elements. Qed.

Lemma filter_eq_NoDup (l : list string) sid :
  NoDup l →
  filter (fun r => r = sid) l = if decide (sid ∈ l) then [sid] else [].
Proof.
  induction 1 as [|x l Hx Hl IH]; [done|].
  rewrite filter_cons, IH.
  destruct (decide (x = sid)) as [->|Hne].
  - rewrite (decide_False (P := sid ∈ l)) by done.
    by rewrite (decide_True (P := sid ∈ sid :: l)) by left.
  - destruct (decide (sid ∈ l)) as [Hin|Hin].
    + by rewrite (decide_True (P := sid ∈ x :: l)) by (by right).
    + rewrite (decide_False (P := sid ∈ x :: l)); [done|].
      intros [?|?]%elem_of_cons; congruence.
Qed.

(** One emit on a room reaches each of its targets once and nobody
    else. *)
Lemma received_Broadcast st room except ev sid :
  received sid [Broadcast room (targets st room except) ev]
  = if decide (joined st room sid ∧ sid ∉ except) then [ev] else [].
Proof.
  unfold received. simpl. rewrite app_nil_r.
  rewrite filter_eq_NoDup by apply NoDup_targets.
  destruct (decide (sid ∈ targets st room except)) as [Hin|Hin];
    rewrite elem_of_targets in Hin.
  - by rewrite decide_True.
  - by rewrite decide_False.
Qed.

Lemma received_app sid es1 es2 :
  received sid (es1 ++ es2) = received sid es1 ++ received sid es2.
Proof. unfold received. apply flat_map_app. Qed.

Lemma received_cons sid e es :
  received sid (e :: es) = received sid [e] ++ received sid es.
Proof. apply (received_app sid [e] es). Qed.

Lemma truthy_Some (s : string) : s ≠ "" → truthy (Some s) = true.
Proof.
  intros Hs. unfold truthy.
  destruct (String.eqb_spec s ""); [done|done].
Qed.

Lemma truthy_str (v : option string) : truthy v = true → v = Some (str v).
Proof. destruct v; [done|discriminate]. Qed.

Lemma truthy_nonempty (v : option string) : truthy v = true → str v ≠ "".
Proof.
  destruct v as [s|]; [|discriminate]. simpl.
  destruct (String.eqb_spec s ""); [discriminate|done].
Qed.

(** [socket.join] adds the socket to the room and changes nothing for
    the other connections. *)
Lemma joined_join st socket room room' sid :
  is_Some (sockets st !! id socket) →
  joined (join socket room st) room' sid
  ↔ joined st room' sid ∨ (room' = room ∧ sid = id socket).
Proof.
  intros Hconn. unfold joined, join, room_sids.
  rewrite decide_True by done. simpl.
  destruct (decide (room = room')) as [->|Hne].
  - rewrite lookup_insert_eq. simpl.
    rewrite elem_of_union, elem_of_singleton.
    split.
    + intros [[->|Hin] Hs]; [by right|by left].
    + intros [[Hin Hs]|[_ ->]]; [by split; [right|]|by split; [left|]].
  - rewrite lookup_insert_ne by done.
    split; [by left|]. intros [?|[? _]]; [done|congruence].
Qed.

End Rooms.

(** Running handler code: unfold the operations of [M] and compute. *)
Ltac run :=
  cbv beta iota zeta delta
    [mbind M_bind bind mret M_ret ret throw try_catch tell get_state modify
     ask await callback socket_to_emit io_in_emit fetchSockets
     outcome final effects negb];
  cbn [app orb].

(** A run that ends in a throw whatever the tests on the error say. *)
Ltac thrown :=
  right;
  repeat (match goal with
          | |- context [if ?b then _ else _] => destruct b; run
          end);
  by eexists.

(** A run whose only acknowledgement is a failure was not acknowledged with
    a success. *)
Ltac refused :=
  let response := fresh "response" in
  let Hin := fresh "Hin" in
  let Hsuccess := fresh "Hsuccess" in
  intros (response & Hin & Hsuccess);
  cbn in Hin; apply list_elem_of_singleton in Hin; subst response;
  simpl in Hsuccess; congruence.

(** ** The group service as the handlers use it *)

Section GroupLookup.

Variable c : Collab.
Implicit Types (st : State) (groupId : string).

Lemma getGroupById_found st groupId group :
  Group_findById_populate c groupId = Return (Some group) →
  GroupService.getGroupById groupId c st
  = {| outcome := Return group; final := st;
       effects := [Called (getGroupById_call groupId)] |}.
Proof.
  intros Hfind. unfold GroupService.getGroupById. run.
  rewrite Hfind. by run.
Qed.

Lemma getGroupById_absent st groupId :
  Group_findById_populate c groupId = Return None →
  GroupService.getGroupById groupId c st
  = {| outcome := Throw (new_NotFoundError "Group not found" "GROUP_NOT_FOUND");
       final := st;
       effects := [Called (getGroupById_call groupId)] |}.
Proof.
  intros Hfind. unfold GroupService.getGroupById. run.
  rewrite Hfind. by run.
Qed.

End GroupLookup.

(** ** Joining a group room *)

Section JoinGroup.

Import PresenceHandlers.

Variable c : Collab.
Implicit Types (st : State) (socket : Socket) (data : Payload).

(** The run of a join request of an active member. *)
Lemma handleJoinGroup_member st socket data u group :
  user socket = Some u →
  truthy (groupId data) = true →
  Group_findById_populate c (str (groupId data)) = Return (Some group) →
  some_active_member group (userId u) = true →
  let gid := str (groupId data) in
  let st' := track (userId u) gid (join socket (group_room gid) st) in
  handleJoinGroup socket data c st
  = {| outcome := Return tt; final := st';
       effects := [Called (getGroupById_call gid);
                   Broadcast (group_room gid)
                     (targets st' (group_room gid) {[ id socket ]})
                     (user_active (userId u) (email u) gid "online");
                   Ack join_ok] |}.
Proof.
  intros Hu Hgid Hfind Hmem. unfold handleJoinGroup, socket_user.
  rewrite Hu, Hgid. run.
  rewrite (getGroupById_found c st _ group Hfind). run.
  rewrite Hmem. by run.
Qed.

End JoinGroup.

Section JoinGroupClaims.

Import PresenceHandlers.

Variable c : Collab.
Implicit Types (st : State) (socket : Socket) (data : Payload).

Lemma presence_track st userId groupId :
  presence (track userId groupId st) userId = {[ groupId ]} ∪ presence st userId.
Proof.
  unfold presence, track. simpl.
  destruct (decide (is_Some (globalActiveUsers st !! userId))) as [[gs Hgs]|Hnone].
  - rewrite lookup_alter_eq, Hgs. done.
  - rewrite lookup_alter_eq, lookup_insert_eq.
    apply eq_None_not_Some in Hnone. rewrite Hnone. simpl. done.
Qed.

(** C1. A join request of an authenticated, connected socket whose user
    is an active member of the group that the request names succeeds:
    the only acknowledgement is the success answer, the socket is in the
    room afterwards, the presence map holds the group for the user, and
    a connection receives the ['user:active'] event, once and nothing
    else, exactly when it was in the room before and is not the joining
    socket; the joining socket receives nothing. *)
Theorem join_group_active_member st socket data u group :
  user socket = Some u →
  sockets st !! id socket = Some socket →
  truthy (groupId data) = true →
  Group_findById_populate c (str (groupId data)) = Return (Some group) →
  some_active_member group (userId u) = true →
  let gid := str (groupId data) in
  let r := handleJoinGroup socket data c st in
  acks (effects r) = [join_ok]
  ∧ success join_ok = true
  ∧ joined (final r) (group_room gid) (id socket)
  ∧ gid ∈ presence (final r) (userId u)
  ∧ (∀ sid, received sid (effects r)
            = if decide (joined st (group_room gid) sid ∧ sid ≠ id socket)
              then [user_active (userId u) (email u) gid "online"]
              else [])
  ∧ received (id socket) (effects r) = [].
Proof.
  intros Hu Hconn Hgid Hfind Hmem gid r.
  assert (Hr := handleJoinGroup_member c st socket data u group Hu Hgid Hfind Hmem).
  fold gid in Hr. simpl in Hr. subst r. rewrite Hr. clear Hr. simpl effects. simpl final.
  assert (Hrecv : ∀ sid,
    received sid
      [Called (getGroupById_call gid);
       Broadcast (group_room gid)
         (targets (track (userId u) gid (join socket (group_room gid) st))
                  (group_room gid) {[id socket]})
         (user_active (userId u) (email u) gid "online");
       Ack join_ok]
    = if decide (joined st (group_room gid) sid ∧ sid ≠ id socket)
      then [user_active (userId u) (email u) gid "online"] else []).
  { intros sid.
    rewrite received_cons, (received_cons _ (Broadcast _ _ _)).
    rewrite received_Broadcast. simpl. rewrite app_nil_r.
    apply decide_ext.
    change (joined (track (userId u) gid (join socket (group_room gid) st))
                   (group_room gid) sid)
      with (joined (join socket (group_room gid) st) (group_room gid) sid).
    rewrite joined_join by (by rewrite Hconn).
    rewrite not_elem_of_singleton. tauto. }
  split_and!.
  - done.
  - done.
  - change (joined (join socket (group_room gid) st) (group_room gid) (id socket)).
    rewrite joined_join by (by rewrite Hconn). by right.
  - rewrite presence_track. set_solver.
  - apply Hrecv.
  - rewrite Hrecv. apply decide_False. tauto.
Qed.

End JoinGroupClaims.

(** C1 on the deployment of [Scenario]: alice joins the room of [g1] on her
    first connection; bob's connection and her second one are told, carol's
    and the joining one are not. *)
Lemma join_group_active_member_witness :
  let st := Scenario.st in
  let socket := Scenario.s1 in
  let data := for_group "g1" in
  (user socket = Some Scenario.alice
   ∧ sockets st !! id socket = Some socket
   ∧ truthy (groupId data) = true
   ∧ Group_findById_populate Scenario.collab (str (groupId data))
     = Return (Some Scenario.g1)
   ∧ PresenceHandlers.some_active_member Scenario.g1 "a1" = true)
  ∧ let r := PresenceHandlers.handleJoinGroup socket data Scenario.collab st in
    acks (effects r) = [join_ok]
    ∧ joined (final r) "group:g1" "s1"
    ∧ received "s2" (effects r) = [user_active "a1" "alice@example.com" "g1" "online"]
    ∧ received "s4" (effects r) = [user_active "a1" "alice@example.com" "g1" "online"]
    ∧ received "s3" (effects r) = []
    ∧ received "s1" (effects r) = [].
Proof.
  intros st socket data.
  split; [by vm_compute|].
  destruct (join_group_active_member Scenario.collab st socket data
              Scenario.alice Scenario.g1 eq_refl eq_refl eq_refl eq_refl eq_refl)
    as (Hack & _ & Hjoined & _ & Hrecv & Hself).
  split_and!; [exact Hack | exact Hjoined | | | | exact Hself];
    rewrite Hrecv; by vm_compute.
Defined.

(** ** Error objects *)

Section ErrorObjects.

Implicit Types (msg errorCode : string).

(** The constructors store the code as [errorCode]; a property [code]
    is never assigned. *)
Lemma AppError_code cl msg status errorCode :
  Errors.get (new_AppError cl msg status errorCode) "code" = None.
Proof. reflexivity. Qed.

Lemma AppError_errorCode cl msg status errorCode :
  Errors.get (new_AppError cl msg status errorCode) "errorCode"
  = Some (VStr errorCode).
Proof. reflexivity. Qed.

Lemma AppError_message cl msg status errorCode :
  Errors.message (new_AppError cl msg status errorCode) = msg.
Proof. reflexivity. Qed.

Lemma AppError_name cl msg status errorCode :
  cl ≠ TypeError →
  Errors.name (new_AppError cl msg status errorCode) = "Error".
Proof. intros Hcl. unfold Errors.name. by destruct cl. Qed.

End ErrorObjects.

Section JoinGroupRejected.

Import PresenceHandlers.

Variable c : Collab.
Implicit Types (st : State) (socket : Socket) (data : Payload).

(** A join request for a group that the store does not have: one
    acknowledgement, [GROUP_NOT_FOUND], and the state is untouched. *)
Lemma handleJoinGroup_absent st socket data u :
  user socket = Some u →
  truthy (groupId data) = true →
  Group_findById_populate c (str (groupId data)) = Return None →
  handleJoinGroup socket data c st
  = {| outcome := Return tt; final := st;
       effects := [Called (getGroupById_call (str (groupId data)));
                   Ack (failure "Group not found"
                                (Some (VStr "GROUP_NOT_FOUND")))] |}.
Proof.
  intros Hu Hgid Hfind. unfold handleJoinGroup, socket_user.
  rewrite Hu, Hgid. run.
  rewrite (getGroupById_absent c st _ Hfind). by run.
Qed.

(** A join request of a user who is not an active member of the group:
    one acknowledgement and the state is untouched.  The answer carries
    the message of the [AuthorizationError] but no error code: the
    handler reads [error.code], which that error does not have. *)
Lemma handleJoinGroup_not_member st socket data u group :
  user socket = Some u →
  truthy (groupId data) = true →
  Group_findById_populate c (str (groupId data)) = Return (Some group) →
  some_active_member group (userId u) = false →
  handleJoinGroup socket data c st
  = {| outcome := Return tt; final := st;
       effects := [Called (getGroupById_call (str (groupId data)));
                   Ack (failure "You are not a member of this group" None)] |}.
Proof.
  intros Hu Hgid Hfind Hmem. unfold handleJoinGroup, socket_user.
  rewrite Hu, Hgid. run.
  rewrite (getGroupById_found c st _ group Hfind). run.
  rewrite Hmem. by run.
Qed.

(** A user whose entries in [members] are all pending or banned is not
    an active member. *)
Lemma some_active_member_false group userId :
  (∀ member, member ∈ members group →
             GroupModel.user member = userId →
             GroupModel.status member = pending
             ∨ GroupModel.status member = banned) →
  some_active_member group userId = false.
Proof.
  intros Hall. unfold some_active_member.
  apply not_true_is_false. intros (member & Hin & Hm)%existsb_exists.
  apply andb_prop in Hm as [Hu%bool_decide_eq_true Hs%bool_decide_eq_true].
  apply list_elem_of_In in Hin.
  destruct (Hall member Hin Hu); congruence.
Qed.

End JoinGroupRejected.

(** C5, evaluated.  Carol's membership of [g1] is pending.  Her join
    request is answered once, with [success: false] and without an error
    code ([error] is [undefined], not [NOT_GROUP_MEMBER]); rooms and presence
    map stay as they were.  A request for a group that does not exist is
    answered with [GROUP_NOT_FOUND]. *)
Theorem join_group_pending_member_has_no_error_code :
  let r := PresenceHandlers.handleJoinGroup Scenario.s3 (for_group "g1")
             Scenario.collab Scenario.st in
  let r' := PresenceHandlers.handleJoinGroup Scenario.s3 (for_group "g0")
              Scenario.collab Scenario.st in
  final r = Scenario.st
  ∧ acks (effects r) = [failure "You are not a member of this group" None]
  ∧ error (failure "You are not a member of this group" None)
    ≠ Some (VStr "NOT_GROUP_MEMBER")
  ∧ final r' = Scenario.st
  ∧ acks (effects r') = [failure "Group not found" (Some (VStr "GROUP_NOT_FOUND"))].
Proof.
  intros r r'. subst r r'.
  rewrite (handleJoinGroup_not_member Scenario.collab Scenario.st Scenario.s3
             (for_group "g1") Scenario.carol Scenario.g1) by done.
  rewrite (handleJoinGroup_absent Scenario.collab Scenario.st Scenario.s3
             (for_group "g0") Scenario.carol) by done.
  by split_and!.
Qed.

(** ** Leaving rooms: [socket.leave] and the closing of a socket *)

Section LeaveRooms.

Implicit Types (st : State) (room sid : string) (socket : Socket).

Lemma group_room_inj g g' : group_room g = group_room g' → g = g'.
Proof.
  unfold group_room. intros H.
  cbv beta iota delta [String.append] in H. by simplify_eq.
Qed.

Lemma default_del sid (members : gset string) :
  default ∅ (del sid members) = members ∖ {[ sid ]}.
Proof.
  unfold del.
  destruct (decide (members ∖ {[ sid ]} = ∅)) as [Hempty|]; [|done].
  by rewrite Hempty.
Qed.

Lemma room_sids_leave st socket room room' :
  room_sids (leave socket room st) room'
  = if decide (room = room') then room_sids st room' ∖ {[ id socket ]}
    else room_sids st room'.
Proof.
  unfold room_sids, leave. simpl.
  destruct (decide (room = room')) as [<-|Hne].
  - destruct (rooms st !! room) as [members|] eqn:Hroom; simpl.
    + rewrite <- default_del. destruct (del (id socket) members).
      * by rewrite lookup_insert_eq.
      * by rewrite lookup_delete_eq.
    + rewrite Hroom. simpl. set_solver.
  - destruct (rooms st !! room) as [members|]; [|done].
    destruct (del (id socket) members).
    + by rewrite lookup_insert_ne.
    + by rewrite lookup_delete_ne.
Qed.

Lemma room_sids_close st socket room :
  room_sids (close socket st) room = room_sids st room ∖ {[ id socket ]}.
Proof.
  unfold room_sids, close. simpl. rewrite lookup_omap.
  destruct (rooms st !! room) as [members|]; simpl; [|set_solver].
  destruct (decide (id socket ∈ members)) as [Hin|Hin].
  - apply default_del.
  - simpl. set_solver.
Qed.

(** After a socket closed, a room holds the connections it held before,
    but for that socket. *)
Lemma joined_close st socket room sid :
  joined (close socket st) room sid ↔ joined st room sid ∧ sid ≠ id socket.
Proof.
  unfold joined. rewrite room_sids_close.
  rewrite elem_of_difference, not_elem_of_singleton.
  unfold close; simpl.
  destruct (decide (sid = id socket)) as [->|Hne].
  - rewrite lookup_delete_eq. split; [intros [[_ ?] _]; done|tauto].
  - rewrite lookup_delete_ne by done. tauto.
Qed.

Lemma joined_leave st socket room room' sid :
  joined (leave socket room st) room' sid
  ↔ joined st room' sid ∧ ¬ (room' = room ∧ sid = id socket).
Proof.
  unfold joined. rewrite room_sids_leave.
  change (sockets (leave socket room st)) with (sockets st).
  destruct (decide (room = room')) as [Hroom|Hroom].
  - subst room'. rewrite elem_of_difference, not_elem_of_singleton. tauto.
  - split; [|tauto]. intros [? ?]. split; [done|]. intros [? _]. congruence.
Qed.

End LeaveRooms.

(** ** Disconnection *)

Section Disconnect.

Import PresenceHandlers SocketServer.

Variable c : Collab.
Implicit Types (st : State) (socket : Socket) (u : Identity).

Lemma notify_offline_run st socket u groups :
  notify_offline socket u groups c st
  = {| outcome := Return tt; final := st;
       effects := offline_notice st socket u <$> groups |}.
Proof.
  induction groups as [|g groups IH]; [done|].
  simpl. run. fold (notify_offline socket u groups c st).
  rewrite IH. by run.
Qed.

(** The run of the disconnect listener for a user with a presence
    entry. *)
Lemma handleDisconnect_run st socket u entry :
  user socket = Some u →
  userId u ≠ "" →
  globalActiveUsers st !! userId u = Some entry →
  handleDisconnect socket c st
  = {| outcome := Return tt; final := forget (userId u) st;
       effects := offline_notice st socket u <$> elements entry |}.
Proof.
  intros Hu Hid Hentry. unfold handleDisconnect. run. rewrite Hu.
  change (userId <$> Some u) with (Some (userId u)).
  change (email <$> Some u) with (Some (email u)).
  change (str (Some (userId u))) with (userId u).
  change (str (Some (email u))) with (email u).
  rewrite (truthy_Some _ Hid), Hentry, bool_decide_eq_true_2 by done.
  simpl. destruct u as [uid mail].
  rewrite notify_offline_run. run. by rewrite app_nil_r.
Qed.

Lemma received_offline_notices st socket u sid (groups : list string) :
  received sid (offline_notice st socket u <$> groups)
  = (fun g => user_inactive (userId u) (email u) g "offline")
    <$> filter (fun g => joined st (group_room g) sid ∧ sid ≠ id socket) groups.
Proof.
  induction groups as [|g groups IH]; [done|].
  rewrite fmap_cons, received_cons, IH. unfold offline_notice at 1.
  rewrite received_Broadcast, filter_cons.
  destruct (decide (joined st (group_room g) sid ∧ sid ≠ id socket)) as [Hj|Hj].
  - rewrite decide_True; [done|]. by rewrite not_elem_of_singleton.
  - rewrite decide_False; [done|]. by rewrite not_elem_of_singleton.
Qed.

End Disconnect.

Section DisconnectClaims.

Import PresenceHandlers SocketServer.

Variable c : Collab.
Implicit Types (st : State) (socket : Socket) (u : Identity).

Lemma broadcasts_offline_notices st socket u (groups : list string) :
  broadcasts (offline_notice st socket u <$> groups)
  = (fun g => (group_room g,
               targets st (group_room g) {[ id socket ]},
               user_inactive (userId u) (email u) g "offline")) <$> groups.
Proof. induction groups as [|g groups IH]; [done|]. simpl. by f_equal. Qed.

Lemma on_disconnect_run st socket u entry :
  user socket = Some u →
  userId u ≠ "" →
  globalActiveUsers st !! userId u = Some entry →
  on_disconnect socket c st
  = {| outcome := Return tt;
       final := forget (userId u) (close socket st);
       effects := offline_notice (close socket st) socket u <$> elements entry |}.
Proof.
  intros Hu Hid Hentry. unfold on_disconnect. run.
  by rewrite (handleDisconnect_run c (close socket st) socket u entry).
Qed.

(** C2. A socket closes whose user has a truthy id and the presence entry
    [entry].  Then one ['user:inactive'] event is emitted per group of
    the entry and nothing else: as many as the entry has groups, each on
    the room of its group, where it reaches the connections that were in
    that room apart from the closing socket; and the presence map has no
    entry for the user afterwards. *)
Theorem disconnect_notifies_each_group st socket u entry :
  user socket = Some u →
  userId u ≠ "" →
  globalActiveUsers st !! userId u = Some entry →
  let r := on_disconnect socket c st in
  let notice g := user_inactive (userId u) (email u) g "offline" in
  let reached g := targets (close socket st) (group_room g) {[ id socket ]} in
  broadcasts (effects r)
  = (fun g => (group_room g, reached g, notice g)) <$> elements entry
  ∧ NoDup (elements entry)
  ∧ length (broadcasts (effects r)) = size entry
  ∧ (∀ g sid, sid ∈ reached g ↔ joined st (group_room g) sid ∧ sid ≠ id socket)
  ∧ (∀ sid, received sid (effects r)
            = notice <$> filter (fun g => joined st (group_room g) sid
                                          ∧ sid ≠ id socket)
                                (elements entry))
  ∧ acks (effects r) = []
  ∧ globalActiveUsers (final r) !! userId u = None.
Proof.
  intros Hu Hid Hentry r notice reached. subst r.
  rewrite (on_disconnect_run st socket u entry Hu Hid Hentry).
  cbn [effects final].
  assert (Hreached : ∀ g sid,
    sid ∈ reached g ↔ joined st (group_room g) sid ∧ sid ≠ id socket).
  { intros g sid. unfold reached.
    rewrite elem_of_targets, joined_close, not_elem_of_singleton. tauto. }
  split_and!.
  - apply broadcasts_offline_notices.
  - apply NoDup_elements.
  - by rewrite broadcasts_offline_notices, length_fmap.
  - exact Hreached.
  - intros sid. rewrite received_offline_notices.
    f_equal. apply list_filter_iff. intros g.
    rewrite joined_close. tauto.
  - induction (elements entry) as [|g gs IH]; [done|exact IH].
  - unfold forget. simpl. apply lookup_delete_eq.
Qed.

End DisconnectClaims.

(** C2 on the deployment of [Scenario], after alice also joined a second
    group: her first connection closes, one event goes to each of her two
    groups, and bob, who is in the room of [g1], receives that of [g1]. *)
Lemma disconnect_notifies_each_group_witness :
  let st := {| sockets := sockets Scenario.st;
               rooms := <[ "group:g1" := {[ "s1"; "s2" ]} ]>
                          {[ "group:g2" := {[ "s1" ]} ]};
               globalActiveUsers := {[ "a1" := {[ "g1"; "g2" ]} ]} |} in
  (user Scenario.s1 = Some Scenario.alice
   ∧ userId Scenario.alice ≠ ""
   ∧ globalActiveUsers st !! "a1" = Some {[ "g1"; "g2" ]})
  ∧ let r := SocketServer.on_disconnect Scenario.s1 Scenario.collab st in
    length (broadcasts (effects r)) = 2
    ∧ received "s2" (effects r)
      = [user_inactive "a1" "alice@example.com" "g1" "offline"]
    ∧ received "s1" (effects r) = []
    ∧ globalActiveUsers (final r) !! "a1" = None.
Proof.
  intros st.
  split; [by vm_compute|].
  destruct (disconnect_notifies_each_group Scenario.collab st Scenario.s1
              Scenario.alice {[ "g1"; "g2" ]} eq_refl ltac:(done) eq_refl)
    as (_ & _ & Hlen & _ & Hrecv & _ & Hgone).
  split_and!; [by rewrite Hlen | | | exact Hgone];
    rewrite Hrecv; by vm_compute.
Defined.

(** ** Leaving a group room *)

Section LeaveGroup.

Import PresenceHandlers.

Variable c : Collab.
Implicit Types (st : State) (socket : Socket) (data : Payload).

Lemma handleLeaveGroup_run st socket data u :
  user socket = Some u →
  truthy (groupId data) = true →
  let gid := str (groupId data) in
  let st' := untrack (userId u) gid (leave socket (group_room gid) st) in
  handleLeaveGroup socket data c st
  = {| outcome := Return tt; final := st';
       effects := [Broadcast (group_room gid)
                     (targets st' (group_room gid) {[ id socket ]})
                     (user_inactive (userId u) (email u) gid "offline");
                   Ack leave_ok] |}.
Proof.
  intros Hu Hgid. unfold handleLeaveGroup, socket_user.
  rewrite Hu, Hgid. by run.
Qed.

Lemma del_del sid (members members' : gset string) :
  del sid members = Some members' → del sid members' = Some members'.
Proof.
  unfold del.
  destruct (decide (members ∖ {[ sid ]} = ∅)) as [|Hne]; [done|].
  intros [= <-].
  replace (members ∖ {[ sid ]} ∖ {[ sid ]}) with (members ∖ {[ sid ]})
    by (apply set_eq; intros x; rewrite !elem_of_difference; tauto).
  by rewrite decide_False.
Qed.

(** Leaving a room that was just left changes nothing. *)
Lemma leave_leave st socket room :
  leave socket room (leave socket room st) = leave socket room st.
Proof.
  unfold leave. simpl. f_equal.
  destruct (rooms st !! room) as [members|] eqn:Hroom.
  - destruct (del (id socket) members) as [members'|] eqn:Hdel.
    + rewrite lookup_insert_eq, (del_del _ _ _ Hdel).
      apply insert_insert_eq.
    + by rewrite lookup_delete_eq.
  - by rewrite Hroom.
Qed.

Lemma untrack_untrack st userId groupId :
  untrack userId groupId (untrack userId groupId st)
  = untrack userId groupId st.
Proof.
  unfold untrack. simpl. f_equal.
  destruct (globalActiveUsers st !! userId) as [groups|] eqn:Hentry.
  - destruct (decide (size (groups ∖ {[ groupId ]}) = 0)) as [Hsize|Hsize].
    + by rewrite lookup_delete_eq.
    + rewrite lookup_insert_eq.
      replace (groups ∖ {[ groupId ]} ∖ {[ groupId ]})
        with (groups ∖ {[ groupId ]})
        by (apply set_eq; intros x; rewrite !elem_of_difference; tauto).
      rewrite decide_False by done.
      apply insert_insert_eq.
  - by rewrite Hentry.
Qed.

Lemma leave_untrack st socket room userId groupId :
  leave socket room (untrack userId groupId st)
  = untrack userId groupId (leave socket room st).
Proof. reflexivity. Qed.

(** C3, as the code has it.  Of two leave requests in a row for the same
    room, by an authenticated socket, the second is acknowledged with
    success like the first and leaves rooms and presence map as the first
    left them; but it emits ['user:inactive'] once more: every connection
    that is in the room apart from the leaving socket receives the event
    from the first request and again from the second. *)
Theorem leave_group_twice st socket data u :
  user socket = Some u →
  truthy (groupId data) = true →
  let gid := str (groupId data) in
  let r1 := handleLeaveGroup socket data c st in
  let r2 := handleLeaveGroup socket data c (final r1) in
  let notice := user_inactive (userId u) (email u) gid "offline" in
  acks (effects r1) = [leave_ok]
  ∧ acks (effects r2) = [leave_ok]
  ∧ success leave_ok = true
  ∧ final r2 = final r1
  ∧ ¬ joined (final r1) (group_room gid) (id socket)
  ∧ (gid ∉ presence (final r1) (userId u))
  ∧ (∀ sid, received sid (effects r1)
            = if decide (joined st (group_room gid) sid ∧ sid ≠ id socket)
              then [notice] else [])
  ∧ (∀ sid, received sid (effects r2) = received sid (effects r1)).
Proof.
  intros Hu Hgid gid r1 r2 notice.
  assert (Hr1 := handleLeaveGroup_run st socket data u Hu Hgid).
  cbn zeta in Hr1. fold gid in Hr1.
  assert (Hr2 := handleLeaveGroup_run (final r1) socket data u Hu Hgid).
  cbn zeta in Hr2. fold gid in Hr2. fold r2 in Hr2.
  subst r1. rewrite Hr1 in Hr2 |- *. cbn [final effects] in Hr2 |- *.
  rewrite leave_untrack, leave_leave, untrack_untrack in Hr2.
  rewrite Hr2. cbn [final effects].
  set (st' := untrack (userId u) gid (leave socket (group_room gid) st)).
  assert (Hjoined : ∀ sid,
    joined st' (group_room gid) sid
    ↔ joined st (group_room gid) sid ∧ sid ≠ id socket).
  { intros sid.
    change (joined st' (group_room gid) sid)
      with (joined (leave socket (group_room gid) st) (group_room gid) sid).
    rewrite joined_leave. tauto. }
  split_and!; try done.
  - rewrite Hjoined. tauto.
  - unfold presence, st', untrack. simpl.
    destruct (globalActiveUsers st !! userId u) as [groups|] eqn:Hentry.
    + destruct (decide (size (groups ∖ {[ gid ]}) = 0)).
      * rewrite lookup_delete_eq. set_solver.
      * rewrite lookup_insert_eq. set_solver.
    + rewrite Hentry. set_solver.
  - intros sid. rewrite received_cons, received_Broadcast. simpl.
    rewrite app_nil_r. apply decide_ext.
    rewrite Hjoined, not_elem_of_singleton. tauto.
Qed.

End LeaveGroup.

(** C3 as amended, on the deployment of [Scenario]: alice's second
    connection leaves the room of [g1] twice; bob's connection receives the
    event both times. *)
Lemma leave_group_twice_witness :
  let st := Scenario.st in
  let socket := Scenario.s4 in
  let data := for_group "g1" in
  (user socket = Some Scenario.alice ∧ truthy (groupId data) = true)
  ∧ let r1 := PresenceHandlers.handleLeaveGroup socket data Scenario.collab st in
    let r2 := PresenceHandlers.handleLeaveGroup socket data Scenario.collab (final r1) in
    acks (effects r2) = [leave_ok]
    ∧ final r2 = final r1
    ∧ received "s2" (effects r1)
      = [user_inactive "a1" "alice@example.com" "g1" "offline"]
    ∧ received "s2" (effects r2)
      = [user_inactive "a1" "alice@example.com" "g1" "offline"].
Proof.
  intros st socket data.
  split; [by vm_compute|].
  destruct (leave_group_twice Scenario.collab st socket data Scenario.alice
              eq_refl eq_refl)
    as (_ & Hack & _ & Hsame & _ & _ & Hfirst & Hsecond).
  split_and!; [exact Hack | exact Hsame | |].
  - rewrite Hfirst. by vm_compute.
  - rewrite Hsecond, Hfirst. by vm_compute.
Defined.

(** C3 as the specification words it fails: the second leave request of
    alice's second connection reaches bob's connection with a second
    ['user:inactive'] event. *)
Lemma second_leave_is_not_silent :
  ¬ second_leave_is_silent Scenario.collab Scenario.st Scenario.s4 (for_group "g1").
Proof.
  intros [_ Hsilent]. specialize (Hsilent "s2").
  vm_compute in Hsilent. discriminate Hsilent.
Qed.

(** ** Sending a message *)

Section Services.

Variable c : Collab.
Implicit Types (st : State) (error : ErrorObj).

(** The group service gives a group or throws; either way it leaves the
    gateway alone. *)
Lemma getGroupById_cases st groupId :
  (∃ group,
     Group_findById_populate c groupId = Return (Some group)
     ∧ GroupService.getGroupById groupId c st
       = {| outcome := Return group; final := st;
            effects := [Called (getGroupById_call groupId)] |})
  ∨ (∃ error,
       GroupService.getGroupById groupId c st
       = {| outcome := Throw error; final := st;
            effects := [Called (getGroupById_call groupId)] |}).
Proof.
  destruct (Group_findById_populate c groupId) as [[group|]|error] eqn:Hfind.
  - left. exists group. split; [done|]. by apply getGroupById_found.
  - right. eexists. by apply getGroupById_absent.
  - right. unfold GroupService.getGroupById. run. rewrite Hfind. run.
    destruct (String.eqb (Errors.name error) "CastError"); [by eexists|].
    destruct (instanceof error NotFoundError); by eexists.
Qed.

(** The message service saves one document and returns it with the plain
    content, or throws without having saved. *)
Lemma sendMessage_cases st userId groupId content :
  (∃ savedMessage,
     MessageService.sendMessage userId groupId content c st
     = {| outcome := Return (MessageModel.set_content savedMessage content);
          final := st;
          effects := [Called (sendMessage_call userId groupId content);
                      Saved savedMessage] |})
  ∨ (∃ error,
       MessageService.sendMessage userId groupId content c st
       = {| outcome := Throw error; final := st;
            effects := [Called (sendMessage_call userId groupId content)] |}).
Proof.
  unfold MessageService.sendMessage, Encryption.encryptMessage. run.
  destruct (Group_findById c groupId) as [[group|]|error]; run;
    [|thrown..].
  destruct (isMember group userId); run; [|thrown].
  destruct (String.eqb content "" || trim_is_empty content); run; [thrown|].
  destruct (String.eqb content ""); run; [thrown|].
  destruct (10000 <? Z.of_nat (String.length content))%Z; run; [thrown|].
  destruct (cipher c content) as [[encrypted iv]|error]; run; [|thrown].
  destruct (Message_save c _) as [savedMessage|error]; run; [|thrown].
  left. by eexists.
Qed.

(** [handleError] answers once, with a failure. *)
Lemma handleError_run st error defaultMessage :
  ∃ response,
    MessageHandlers.handleError error defaultMessage c st
    = {| outcome := Return tt; final := st; effects := [Ack response] |}
    ∧ success response = false.
Proof.
  unfold MessageHandlers.handleError.
  destruct (instanceof error NotFoundError); [by eexists|].
  destruct (instanceof error ValidationError); [by eexists|].
  destruct (instanceof error AuthorizationError); by eexists.
Qed.

End Services.

Section SendMessage.

Import MessageHandlers.

Variable c : Collab.
Implicit Types (st : State) (socket : Socket) (data : Payload).

Lemma handleSendMessage_invalid st socket data u :
  user socket = Some u →
  truthy (groupId data) = false ∨ truthy (content data) = false →
  handleSendMessage socket data c st
  = {| outcome := Return tt; final := st;
       effects := [Ack (failure "Group ID and message content are required"
                                (Some (VStr "INVALID_INPUT")))] |}.
Proof.
  intros Hu Hmissing. unfold handleSendMessage, socket_user. rewrite Hu.
  destruct Hmissing as [-> | ->]; [by run|].
  destruct (truthy (groupId data)); by run.
Qed.

(** The run of a send request when the group service finds the group, the
    user is an active member of it and the message service succeeds. *)
Lemma handleSendMessage_sent st socket data u group message es :
  user socket = Some u →
  truthy (groupId data) = true →
  truthy (content data) = true →
  Group_findById_populate c (str (groupId data)) = Return (Some group) →
  isMember group (userId u) = true →
  MessageService.sendMessage (userId u) (str (groupId data))
    (str (content data)) c st
  = {| outcome := Return message; final := st; effects := es |} →
  let gid := str (groupId data) in
  handleSendMessage socket data c st
  = {| outcome := Return tt; final := st;
       effects :=
         Called (getGroupById_call gid) ::
         es ++
         [Broadcast (group_room gid) (targets st (group_room gid) {[ id socket ]})
                    (message_new true message);
          Ack {| success := true;
                 Wire.message := Some "Message sent successfully";
                 error := None;
                 data := Some (message_data message);
                 details := None |}] |}.
Proof.
  intros Hu Hgid Hcontent Hfind Hmem Hsend.
  unfold handleSendMessage, socket_user.
  rewrite Hu, Hgid, Hcontent. run.
  rewrite (getGroupById_found c st _ group Hfind). run.
  unfold isMember in Hmem. rewrite Hmem. run.
  rewrite Hsend. by run.
Qed.

(** A send request that is acknowledged with a success went all the way:
    both fields were there, the group service found the group, the user is
    an active member of it, and the message service saved the message. *)
Lemma handleSendMessage_success_inv st socket data u :
  user socket = Some u →
  (∃ response, response ∈ acks (effects (handleSendMessage socket data c st))
               ∧ success response = true) →
  ∃ group savedMessage,
    truthy (groupId data) = true
    ∧ truthy (content data) = true
    ∧ Group_findById_populate c (str (groupId data)) = Return (Some group)
    ∧ isMember group (userId u) = true
    ∧ MessageService.sendMessage (userId u) (str (groupId data))
        (str (content data)) c st
      = {| outcome := Return (MessageModel.set_content savedMessage
                                (str (content data)));
           final := st;
           effects := [Called (sendMessage_call (userId u)
                                 (str (groupId data)) (str (content data)));
                       Saved savedMessage] |}.
Proof.
  intros Hu. unfold handleSendMessage, socket_user. rewrite Hu.
  destruct (truthy (groupId data)) eqn:Hgid; run; [|refused].
  destruct (truthy (content data)) eqn:Hcontent; run; [|refused].
  destruct (getGroupById_cases c st (str (groupId data)))
    as [(group & Hfind & ->)|(error & ->)]; run.
  - fold (isMember group (userId u)).
    destruct (isMember group (userId u)) eqn:Hmem; run; [|refused].
    destruct (sendMessage_cases c st (userId u) (str (groupId data))
                (str (content data)))
      as [(savedMessage & Hsent)|(error & Hsent)].
    + intros _. by exists group, savedMessage.
    + rewrite Hsent. run.
      destruct (instanceof error NotFoundError); run; [refused|].
      destruct (handleError_run c st error "Error sending message")
        as (response & -> & Hfailure).
      refused.
  - destruct (instanceof error NotFoundError); run; [refused|].
    destruct (handleError_run c st error "Error sending message")
      as (response & -> & Hfailure).
    refused.
Qed.

(** C4. A send request of an authenticated socket that is acknowledged
    with a success: the user is an active member of the group; one document
    was saved, and the canonical message is that document with the plain
    content; the request is acknowledged once, with the canonical message
    and the confirmation text; there is one emit, of ['message:new'] with
    the same message, on the room of the group; a connection receives it,
    once, exactly when it is in the room and is not the sending socket; the
    sending socket receives no event. *)
Theorem send_message_delivery st socket data u :
  user socket = Some u →
  let r := handleSendMessage socket data c st in
  let gid := str (groupId data) in
  (∃ response, response ∈ acks (effects r) ∧ success response = true) →
  ∃ group savedMessage,
    let message := MessageModel.set_content savedMessage (str (content data)) in
    Group_findById_populate c gid = Return (Some group)
    ∧ isMember group (userId u) = true
    ∧ saved (effects r) = [savedMessage]
    ∧ acks (effects r)
      = [{| success := true;
            Wire.message := Some "Message sent successfully";
            error := None;
            data := Some (message_data message);
            details := None |}]
    ∧ broadcasts (effects r)
      = [(group_room gid, targets st (group_room gid) {[ id socket ]},
          message_new true message)]
    ∧ (∀ sid, received sid (effects r)
              = if decide (joined st (group_room gid) sid ∧ sid ≠ id socket)
                then [message_new true message] else [])
    ∧ received (id socket) (effects r) = [].
Proof.
  intros Hu r gid Hsuccess.
  destruct (handleSendMessage_success_inv st socket data u Hu Hsuccess)
    as (group & savedMessage & Hgid & Hcontent & Hfind & Hmem & Hsent).
  exists group, savedMessage. intros message.
  assert (Hr := handleSendMessage_sent st socket data u group message _
                  Hu Hgid Hcontent Hfind Hmem Hsent).
  cbn zeta in Hr. fold gid r in Hr. rewrite Hr. cbn [effects app].
  assert (Hrecv : ∀ sid,
    received sid
      [Called (getGroupById_call gid);
       Called (sendMessage_call (userId u) (str (groupId data)) (str (content data)));
       Saved savedMessage;
       Broadcast (group_room gid) (targets st (group_room gid) {[ id socket ]})
                 (message_new true message);
       Ack {| success := true;
              Wire.message := Some "Message sent successfully";
              error := None;
              data := Some (message_data message);
              details := None |}]
    = if decide (joined st (group_room gid) sid ∧ sid ≠ id socket)
      then [message_new true message] else []).
  { intros sid.
    transitivity
      (received sid
         [Broadcast (group_room gid) (targets st (group_room gid) {[ id socket ]})
                    (message_new true message)]); [reflexivity|].
    rewrite received_Broadcast.
    apply decide_ext. by rewrite not_elem_of_singleton. }
  split_and!; try done.
  rewrite Hrecv. apply decide_False. tauto.
Qed.

End SendMessage.

(** C4 on the deployment of [Scenario]: alice sends ["hi"] to [g1] on her
    first connection; bob's connection and her second one receive the
    message, her first connection and carol's do not. *)
Lemma send_message_delivery_witness :
  let st := Scenario.st in
  let socket := Scenario.s1 in
  let data := {| groupId := Some "g1"; content := Some "hi"; messageId := None |} in
  let r := MessageHandlers.handleSendMessage socket data Scenario.collab st in
  (user socket = Some Scenario.alice
   ∧ ∃ response, response ∈ acks (effects r) ∧ success response = true)
  ∧ ∃ message,
      MessageModel.content message = "hi"
      ∧ MessageModel.sender message = "a1"
      ∧ received "s2" (effects r) = [message_new true message]
      ∧ received "s4" (effects r) = [message_new true message]
      ∧ received "s3" (effects r) = []
      ∧ received "s1" (effects r) = [].
Proof.
  intros st socket data r.
  assert (Hsuccess : ∃ response,
            response ∈ acks (effects r) ∧ success response = true).
  { eexists. split; [|shelve]. vm_compute. apply list_elem_of_here.
    Unshelve. reflexivity. }
  split; [by split|].
  destruct (send_message_delivery Scenario.collab st socket data Scenario.alice
              eq_refl Hsuccess)
    as (group & savedMessage & _ & _ & Hsaved & _ & _ & Hrecv & Hself).
  assert (savedMessage
          = {| MessageModel._id := ""; MessageModel.group := "g1";
               MessageModel.sender := "a1"; MessageModel.content := "hi";
               MessageModel.encryptedContent := "c2VjcmV0";
               MessageModel.iv := "00112233445566778899aabbccddeeff";
               MessageModel.algorithm := "aes-128-cbc";
               MessageModel.keyVersion := 1;
               MessageModel.timestamp := "2024-05-01T10:00:00.000Z" |}) as ->.
  { vm_compute in Hsaved. by injection Hsaved. }
  eexists. split_and!; [| | | | |exact Hself];
    [| |rewrite Hrecv; by vm_compute..]; reflexivity.
Defined.

(** ** Read receipts *)

Section MessageRead.

Import MessageHandlers.

Implicit Types (c : Collab) (st : State) (socket : Socket) (data : Payload).

Lemma handleMessageRead_run c st socket data u :
  user socket = Some u →
  truthy (messageId data) = true →
  truthy (groupId data) = true →
  let room := group_room (str (groupId data)) in
  handleMessageRead socket data c st
  = {| outcome := Return tt; final := st;
       effects := [Broadcast room (targets st room ∅)
                     (message_read (str (messageId data)) (userId u)
                                   (email u) (now c));
                   Ack read_ok] |}.
Proof.
  intros Hu Hmid Hgid. unfold handleMessageRead, socket_user.
  rewrite Hu, Hmid, Hgid. by run.
Qed.

Lemma handleMessageRead_invalid c st socket data u :
  user socket = Some u →
  truthy (messageId data) = false ∨ truthy (groupId data) = false →
  handleMessageRead socket data c st
  = {| outcome := Return tt; final := st;
       effects := [Ack (failure "Message ID and group ID are required"
                                (Some (VStr "INVALID_INPUT")))] |}.
Proof.
  intros Hu Hmissing. unfold handleMessageRead, socket_user. rewrite Hu.
  destruct Hmissing as [-> | ->]; [by run|].
  destruct (truthy (messageId data)); by run.
Qed.

(** A read receipt that comes with an object and an acknowledgement
    function: with message id and group id the notice goes to the whole
    room, the reader's own connection included; without one of the two the
    answer is [INVALID_INPUT] and nothing is emitted. *)
Lemma handleMessageRead_delivery c st socket data u :
  user socket = Some u →
  let r := handleMessageRead socket data c st in
  let room := group_room (str (groupId data)) in
  let notice := message_read (str (messageId data)) (userId u) (email u) (now c) in
  (truthy (messageId data) = true ∧ truthy (groupId data) = true →
     acks (effects r) = [read_ok]
     ∧ broadcasts (effects r) = [(room, targets st room ∅, notice)]
     ∧ (∀ sid, received sid (effects r)
               = if decide (joined st room sid) then [notice] else [])
     ∧ (joined st room (id socket) → received (id socket) (effects r) = [notice]))
  ∧ (truthy (messageId data) = false ∨ truthy (groupId data) = false →
       acks (effects r)
       = [failure "Message ID and group ID are required"
                  (Some (VStr "INVALID_INPUT"))]
       ∧ broadcasts (effects r) = []
       ∧ (∀ sid, received sid (effects r) = [])).
Proof.
  intros Hu r room notice. split.
  - intros [Hmid Hgid]. subst r.
    rewrite (handleMessageRead_run c st socket data u Hu Hmid Hgid).
    cbn [effects]. fold room notice.
    assert (Hrecv : ∀ sid,
      received sid [Broadcast room (targets st room ∅) notice; Ack read_ok]
      = if decide (joined st room sid) then [notice] else []).
    { intros sid. rewrite received_cons, received_Broadcast. simpl.
      rewrite app_nil_r. apply decide_ext. set_solver. }
    split_and!; [done|done|exact Hrecv|].
    intros Hin. rewrite Hrecv. by apply decide_True.
  - intros Hmissing. subst r.
    by rewrite (handleMessageRead_invalid c st socket data u Hu Hmissing).
Qed.

(** C10. A read receipt with both fields is emitted on the room
    [group:<groupId>] and acknowledged with a success without a call to any
    service: whatever the group store would answer for that group, absent
    group and non member included, the run is the same. *)
Theorem read_receipt_without_membership_check c st socket data u :
  user socket = Some u →
  truthy (messageId data) = true →
  truthy (groupId data) = true →
  let r := handleMessageRead socket data c st in
  let room := group_room (str (groupId data)) in
  calls (effects r) = []
  ∧ acks (effects r) = [read_ok]
  ∧ success read_ok = true
  ∧ broadcasts (effects r)
    = [(room, targets st room ∅,
        message_read (str (messageId data)) (userId u) (email u) (now c))]
  ∧ (∀ c', now c' = now c →
           handleMessageRead socket data c' st = r).
Proof.
  intros Hu Hmid Hgid r room. subst r.
  rewrite (handleMessageRead_run c st socket data u Hu Hmid Hgid).
  split_and!; try done.
  intros c' Hnow.
  rewrite (handleMessageRead_run c' st socket data u Hu Hmid Hgid).
  by rewrite Hnow.
Qed.

End MessageRead.

(** C10 on the deployment of [Scenario]: carol, whose membership of [g1] is
    pending, and who asks about a group [g0] that does not exist. *)
Lemma read_receipt_without_membership_check_witness :
  let data := {| groupId := Some "g0"; content := None; messageId := Some "m1" |} in
  let r := MessageHandlers.handleMessageRead Scenario.s3 data Scenario.collab Scenario.st in
  (user Scenario.s3 = Some Scenario.carol
   ∧ truthy (messageId data) = true
   ∧ truthy (groupId data) = true
   ∧ Group_findById_populate Scenario.collab "g0" = Return None)
  ∧ calls (effects r) = []
  ∧ acks (effects r) = [read_ok].
Proof.
  intros data r.
  split; [by vm_compute|].
  destruct (read_receipt_without_membership_check Scenario.collab Scenario.st
              Scenario.s3 data Scenario.carol eq_refl eq_refl eq_refl)
    as (Hcalls & Hack & _).
  by split.
Defined.

(** ** The active users of a group *)

Section ActiveUsers.

Import PresenceHandlers.

Variable c : Collab.
Implicit Types (st : State) (socket : Socket) (data : Payload).

Lemma activeUsers_of_run st (sids : list string) :
  (∀ sid, sid ∈ sids → ∃ s, sockets st !! sid = Some s ∧ is_Some (user s)) →
  ∃ l, activeUsers_of (omap (fun sid => sockets st !! sid) sids) c st
       = {| outcome := Return l; final := st; effects := [] |}
       ∧ Forall2 (entry_for st) sids l.
Proof.
  induction sids as [|sid sids IH]; intros Hall.
  - exists []. by split.
  - destruct (Hall sid) as (s & Hs & [v Hv]); [left|].
    destruct IH as (l & Hrun & Hl); [intros sid' ?; apply Hall; by right|].
    exists (active_user v :: l). split.
    + cbn [omap list_omap]. rewrite Hs. cbn [activeUsers_of].
      unfold socket_user. rewrite Hv. run.
      fold (activeUsers_of (omap (fun sid => sockets st !! sid) sids) c st).
      rewrite Hrun. by run.
    + constructor; [|done]. by exists s, v.
Qed.

Lemma handleGetActiveUsers_absent st socket data u :
  user socket = Some u →
  truthy (groupId data) = true →
  Group_findById_populate c (str (groupId data)) = Return None →
  handleGetActiveUsers socket data c st
  = {| outcome := Return tt; final := st;
       effects := [Called (getGroupById_call (str (groupId data)));
                   Ack (failure "Group not found"
                                (Some (VStr "GROUP_NOT_FOUND")))] |}.
Proof.
  intros Hu Hgid Hfind. unfold handleGetActiveUsers, socket_user.
  rewrite Hu, Hgid. run.
  rewrite (getGroupById_absent c st _ Hfind). by run.
Qed.

(** C9, as the code has it.  A request for the active users of a group by
    an authenticated socket, in a gateway whose registered sockets all carry
    an identity (which holds in every state the gateway reaches).  When the user is an active member of the group, the
    answer is a success whose list has one entry per connection that is in
    the room, in the order of the room, with the user id and email of that
    connection and the status ["online"]; a user with two connections in
    the room is listed twice.  When the group does not exist, the answer is
    [GROUP_NOT_FOUND], as for a join request. *)
Theorem active_users_per_connection st socket data u :
  user socket = Some u →
  truthy (groupId data) = true →
  identified st →
  let r := handleGetActiveUsers socket data c st in
  let gid := str (groupId data) in
  (∀ group,
     Group_findById_populate c gid = Return (Some group) →
     some_active_member group (userId u) = true →
     ∃ l, acks (effects r) = [users_ok l]
          ∧ Forall2 (entry_for st) (targets st (group_room gid) ∅) l
          ∧ Forall (fun entry => au_status entry = "online") l
          ∧ final r = st)
  ∧ (Group_findById_populate c gid = Return None →
       acks (effects r)
       = [failure "Group not found" (Some (VStr "GROUP_NOT_FOUND"))]
       ∧ final r = st).
Proof.
  intros Hu Hgid Hidentified r gid. subst gid. split.
  - intros group Hfind Hmem.
    set (gid := str (groupId data)) in *.
    destruct (activeUsers_of_run st (targets st (group_room gid) ∅))
      as (l & Hrun & Hl).
    { intros sid [[_ [s Hs]] _]%elem_of_targets. exists s. split; [done|].
      by destruct (Hidentified sid s Hs). }
    exists l. subst r. unfold handleGetActiveUsers, socket_user.
    rewrite Hu, Hgid. run. fold gid.
    rewrite (getGroupById_found c st _ group Hfind). run.
    rewrite Hmem. run. rewrite Hrun. run.
    split_and!; [done|done| |done].
    clear Hrun. induction Hl as [|sid entry sids l (s & v & _ & _ & ->) _ IH];
      by constructor.
  - intros Hfind. subst r.
    by rewrite (handleGetActiveUsers_absent st socket data u Hu Hgid Hfind).
Qed.

End ActiveUsers.

(** C9 as amended, on the deployment of [Scenario] with alice twice in the
    room of [g1]: she is listed twice. *)
Lemma active_users_per_connection_witness :
  let st := Scenario.st_twice in
  let r := PresenceHandlers.handleGetActiveUsers Scenario.s1 (for_group "g1")
             Scenario.collab st in
  (user Scenario.s1 = Some Scenario.alice
   ∧ truthy (groupId (for_group "g1")) = true
   ∧ identified st)
  ∧ (∃ l, acks (effects r) = [users_ok l]
          ∧ length l = length (targets st "group:g1" ∅))
  ∧ length (targets st "group:g1" ∅) = 3.
Proof.
  intros st r.
  assert (Hidentified : identified st).
  { intros sid s Hs. unfold st, Scenario.st_twice, Scenario.st in Hs. simpl in Hs.
    repeat (apply lookup_insert_Some in Hs as [[<- <-]|[_ Hs]];
            [by split; [|eexists]|]).
    by rewrite lookup_empty in Hs. }
  split; [by split_and!|].
  destruct (active_users_per_connection Scenario.collab st Scenario.s1
              (for_group "g1") Scenario.alice eq_refl eq_refl Hidentified)
    as [Hmember _].
  destruct (Hmember Scenario.g1 eq_refl eq_refl) as (l & Hack & Hl & _).
  split; [|by vm_compute].
  exists l. split; [exact Hack|].
  symmetry. exact (Forall2_length _ _ _ Hl).
Defined.

(** C9 as the specification words it fails: with alice twice in the room of
    [g1], the answer holds her user id twice. *)
Lemma active_users_not_distinct :
  ¬ answers_distinct_identities Scenario.collab Scenario.st_twice Scenario.s1
      (for_group "g1").
Proof.
  intros (l & Hack & Hdistinct).
  vm_compute in Hack. injection Hack as <-.
  apply NoDup_ListNoDup in Hdistinct. vm_compute in Hdistinct.
  repeat match goal with
         | H : List.NoDup (_ :: _) |- _ =>
             let Hnotin := fresh "Hnotin" in
             apply List.NoDup_cons_iff in H as [Hnotin H];
             try (apply Hnotin; simpl; tauto)
         end.
Qed.

(** ** Authentication of a connection *)

Section Authentication.

Import AuthMiddleware SocketServer.

Variable c : Collab.
Implicit Types (st : State) (sid : string) (h : Handshake).

Lemma substring_all (s : string) : String.substring 0 (String.length s) s = s.
Proof. induction s as [|a s IH]; [done|]. simpl. by rewrite IH. Qed.

(** The header fallback: ["Bearer <token>"] gives the token. *)
Lemma replace_Bearer (token : string) :
  replace "Bearer " "" ("Bearer " +:+ token) = token.
Proof.
  unfold replace.
  assert (String.index 0 "Bearer " ("Bearer " +:+ token) = Some 0) as ->.
  { by destruct token. }
  assert (String.substring 0 0 ("Bearer " +:+ token) = "") as -> by done.
  assert (String.length ("Bearer " +:+ token) - (0 + String.length "Bearer ")
          = String.length token) as -> by apply Nat.sub_0_r.
  assert (∀ n, String.substring (0 + String.length "Bearer ") n
                 ("Bearer " +:+ token)
               = String.substring 0 n token) as -> by reflexivity.
  apply substring_all.
Qed.

(** The token comes from the auth payload when it holds one, and from the
    authorization header otherwise. *)
Lemma token_of_auth h token :
  auth_token h = Some token → token ≠ "" → token_of h = Some token.
Proof.
  intros Hauth Htoken. unfold token_of.
  by rewrite Hauth, (truthy_Some _ Htoken).
Qed.

Lemma token_of_header h token :
  truthy (auth_token h) = false →
  authorization h = Some ("Bearer " +:+ token) →
  token_of h = Some token.
Proof.
  intros Hauth Hheader. unfold token_of. rewrite Hauth, Hheader. simpl.
  by rewrite replace_Bearer.
Qed.

(** C6. A connection attempt with the handshake [h] on a fresh socket
    [sid].  Without a usable credential [next] gets an error with the code
    [NO_AUTH_TOKEN]; the attempt is refused, the socket is not registered
    and nothing is emitted.  That is so when the auth payload holds no
    token or an empty one and the authorization header is missing, empty
    or nothing but ["Bearer "]; otherwise the handshake gives a non-empty
    token.  With a non-empty token that the verifier rejects, [next] gets
    an error with the code [INVALID_TOKEN], no identity is attached to the
    socket, and the attempt is refused the same way.  With a token that
    the verifier accepts, the decoded user id and email are attached to the
    socket, the socket is registered, and ['connect:success'] is emitted to
    it with the user id, the email, the socket id and the time of the
    server. *)
Theorem connection_authentication st sid h :
  (truthy (token_of h) = false →
     createAuthMiddleware c sid h = ({| id := sid; user := None |}, Some no_token_error)
     ∧ Errors.get no_token_error "errorCode" = Some (VStr "NO_AUTH_TOKEN")
     ∧ connect sid h c st
       = {| outcome := Return None; final := st;
            effects := [Refused no_token_error] |})
  ∧ (truthy (auth_token h) = false →
     authorization h = None ∨ authorization h = Some ""
     ∨ authorization h = Some "Bearer " →
     truthy (token_of h) = false)
  ∧ (truthy (token_of h) = true →
     ∃ token, token_of h = Some token ∧ token ≠ "")
  ∧ (∀ token error,
       token_of h = Some token → token ≠ "" →
       verifyToken c token = Throw error →
       createAuthMiddleware c sid h
       = ({| id := sid; user := None |}, Some invalid_token_error)
       ∧ Errors.get invalid_token_error "errorCode" = Some (VStr "INVALID_TOKEN")
       ∧ connect sid h c st
         = {| outcome := Return None; final := st;
              effects := [Refused invalid_token_error] |})
  ∧ (∀ token decoded,
       token_of h = Some token → token ≠ "" →
       verifyToken c token = Return decoded →
       let socket := {| id := sid;
                        user := Some {| userId := userId decoded;
                                        email := email decoded |} |} in
       createAuthMiddleware c sid h = (socket, None)
       ∧ connect sid h c st
         = {| outcome := Return (Some socket); final := register socket st;
              effects := [Emit sid (connect_success (userId decoded)
                                      (email decoded) sid (now c))] |}
       ∧ sockets (register socket st) !! sid = Some socket).
Proof.
  split_and!.
  - intros Hnone.
    assert (Hmw : createAuthMiddleware c sid h
                  = ({| id := sid; user := None |}, Some no_token_error)).
    { unfold createAuthMiddleware. by rewrite Hnone. }
    split_and!; [done|done|].
    unfold connect. run. by rewrite Hmw.
  - intros Hauth Hheader. unfold token_of. rewrite Hauth.
    by destruct Hheader as [->|[->| ->]].
  - destruct (token_of h) as [token|]; [|done]. intros Htoken.
    exists token. split; [done|]. by intros ->.
  - intros token error Htoken Hne Hverify.
    assert (Hmw : createAuthMiddleware c sid h
                  = ({| id := sid; user := None |}, Some invalid_token_error)).
    { unfold createAuthMiddleware. rewrite Htoken, (truthy_Some _ Hne). simpl.
      by rewrite Hverify. }
    split_and!; [done|done|].
    unfold connect. run. by rewrite Hmw.
  - intros token decoded Htoken Hne Hverify socket.
    assert (Hmw : createAuthMiddleware c sid h = (socket, None)).
    { unfold createAuthMiddleware. rewrite Htoken, (truthy_Some _ Hne). simpl.
      by rewrite Hverify. }
    split_and!; [done| |apply lookup_insert_eq].
    unfold connect. run. rewrite Hmw. unfold on_connection, socket_user.
    by run.
Qed.

End Authentication.

(** C6 on the deployment of [Scenario]: an attempt without credential, one
    with an empty token and a header that holds nothing but the prefix, one
    with a token that the verifier rejects, and one with alice's token in
    the authorization header. *)
Lemma connection_authentication_witness :
  let none := {| AuthMiddleware.auth_token := None;
                 AuthMiddleware.authorization := None |} in
  let empty := {| AuthMiddleware.auth_token := Some "";
                  AuthMiddleware.authorization := Some "Bearer " |} in
  let bad := {| AuthMiddleware.auth_token := Some "invalid.token.format";
                AuthMiddleware.authorization := None |} in
  let good := {| AuthMiddleware.auth_token := None;
                 AuthMiddleware.authorization := Some "Bearer token-of-alice" |} in
  effects (SocketServer.connect "s9" none Scenario.collab Scenario.st)
  = [Refused no_token_error]
  ∧ effects (SocketServer.connect "s9" empty Scenario.collab Scenario.st)
    = [Refused no_token_error]
  ∧ effects (SocketServer.connect "s9" bad Scenario.collab Scenario.st)
    = [Refused invalid_token_error]
  ∧ effects (SocketServer.connect "s9" good Scenario.collab Scenario.st)
    = [Emit "s9" (connect_success "a1" "alice@example.com" "s9"
                    "2024-05-01T10:00:00.000Z")].
Proof.
  intros none empty bad good.
  destruct (connection_authentication Scenario.collab Scenario.st "s9" none)
    as (Hnone & _).
  destruct (connection_authentication Scenario.collab Scenario.st "s9" empty)
    as (Hempty & Hunusable & _).
  destruct (connection_authentication Scenario.collab Scenario.st "s9" bad)
    as (_ & _ & _ & Hbad & _).
  destruct (connection_authentication Scenario.collab Scenario.st "s9" good)
    as (_ & _ & _ & _ & Hgood).
  destruct (Hnone eq_refl) as (_ & _ & ->).
  destruct (Hempty (Hunusable eq_refl (or_intror (or_intror eq_refl))))
    as (_ & _ & ->).
  destruct (Hbad "invalid.token.format" (new_Error Error "Invalid token")
              eq_refl ltac:(done) eq_refl) as (_ & _ & ->).
  destruct (Hgood "token-of-alice" Scenario.alice eq_refl ltac:(done) eq_refl)
    as (_ & -> & _).
  by split_and!.
Defined.

(** C6 as the specification words it fails for an empty token in the auth
    payload: the credential is there and the verifier rejects it, and the
    attempt is refused with [NO_AUTH_TOKEN], not with [INVALID_TOKEN]. *)
Lemma empty_credential_is_no_token :
  ¬ present_invalid_is_invalid_token Scenario.collab Scenario.st "s9"
      {| AuthMiddleware.auth_token := Some "";
         AuthMiddleware.authorization := None |}.
Proof.
  intros Hclaim.
  assert (Hrefused :
    effects (SocketServer.connect "s9"
               {| AuthMiddleware.auth_token := Some "";
                  AuthMiddleware.authorization := None |}
               Scenario.collab Scenario.st)
    = [Refused invalid_token_error]).
  { apply Hclaim.
    - left. by eexists.
    - intros token [[= <-]|[[=]|[=]]]. by eexists. }
  apply (f_equal (fmap (fun e => match e with
                                 | Refused x => Errors.get x "errorCode"
                                 | _ => None
                                 end))) in Hrefused.
  vm_compute in Hrefused. discriminate Hrefused.
Qed.

(** ** The registered sockets all carry an identity *)

Section Registry.

Import PresenceHandlers MessageHandlers AuthMiddleware SocketServer.

Lemma keeps_ret {A} (a : A) : keeps_sockets (ret a).
Proof. done. Qed.

Lemma keeps_throw {A} (e : ErrorObj) : keeps_sockets (@throw A e).
Proof. done. Qed.

Lemma keeps_tell (e : Effect) : keeps_sockets (tell e).
Proof. done. Qed.

Lemma keeps_ask : keeps_sockets ask.
Proof. done. Qed.

Lemma keeps_get_state : keeps_sockets get_state.
Proof. done. Qed.

Lemma keeps_await {A} (o : Outcome A) : keeps_sockets (await o).
Proof. done. Qed.

Lemma keeps_modify (f : State → State) :
  (∀ st, sockets (f st) = sockets st) → keeps_sockets (modify f).
Proof. intros Hf c st. apply Hf. Qed.

Lemma keeps_bind {A B} (m : M A) (f : A → M B) :
  keeps_sockets m → (∀ a, keeps_sockets (f a)) → keeps_sockets (bind m f).
Proof.
  intros Hm Hf c st. unfold bind. specialize (Hm c st).
  destruct (outcome (m c st)) as [a|e]; [|done].
  cbn [final]. by rewrite Hf.
Qed.

Lemma keeps_try_catch {A} (body : M A) (handler : ErrorObj → M A) :
  keeps_sockets body → (∀ e, keeps_sockets (handler e)) →
  keeps_sockets (try_catch body handler).
Proof.
  intros Hbody Hhandler c st. unfold try_catch. specialize (Hbody c st).
  destruct (outcome (body c st)) as [a|e]; [done|].
  cbn [final]. by rewrite Hhandler.
Qed.

Lemma sockets_join socket room st : sockets (join socket room st) = sockets st.
Proof. unfold join. by destruct (decide _). Qed.

End Registry.

(** Decompose handler code into the operations of [M]. *)
Ltac keeps :=
  repeat first
    [ solve [auto]
    | apply keeps_ret | apply keeps_throw | apply keeps_tell | apply keeps_ask
    | apply keeps_get_state | apply keeps_await
    | apply keeps_modify; intros ?; first [apply sockets_join | reflexivity]
    | apply keeps_bind; [|intros ?]
    | apply keeps_try_catch; [|intros ?]
    | match goal with
      | |- keeps_sockets (if ?b then _ else _) => destruct b
      | |- keeps_sockets (match ?x with _ => _ end) => destruct x
      | |- keeps_sockets (let _ := _ in _) => cbv zeta
      end ].

Section RegistryInvariant.

Import PresenceHandlers MessageHandlers AuthMiddleware SocketServer.

Implicit Types (st : State) (socket : Socket) (data : Payload).

Lemma on_keeps_sockets socket ev data : keeps_sockets (on socket ev data).
Proof.
  assert (Husers : ∀ l, keeps_sockets (activeUsers_of l)).
  { induction l as [|s l IH]; cbn [activeUsers_of];
      unfold socket_user, mbind, M_bind, mret, M_ret; keeps. }
  destruct ev; cbn [on];
    unfold handleSendMessage, handleTypingStart, handleTypingStop, handleTyping,
      handleMessageRead, handleJoinGroup, handleLeaveGroup, handleGetActiveUsers,
      handleError, GroupService.getGroupById, MessageService.sendMessage,
      Encryption.encryptMessage, socket_user, callback, socket_to_emit,
      io_in_emit, fetchSockets, mbind, M_bind, mret, M_ret;
    keeps.
Qed.

Lemma on_disconnect_sockets c st socket :
  sockets (final (on_disconnect socket c st)) = delete (id socket) (sockets st).
Proof.
  assert (Hnotify : ∀ u l, keeps_sockets (notify_offline socket u l)).
  { intros u. induction l as [|g l IH]; cbn [notify_offline];
      unfold socket_to_emit, mbind, M_bind, mret, M_ret; keeps. }
  assert (Hkeeps : keeps_sockets (handleDisconnect socket)).
  { unfold handleDisconnect, mbind, M_bind, mret, M_ret. keeps. }
  unfold on_disconnect. run. apply (Hkeeps c (close socket st)).
Qed.

Lemma connect_sockets c st sid h :
  sockets (final (connect sid h c st)) = sockets st
  ∨ ∃ u, sockets (final (connect sid h c st))
         = <[ sid := {| id := sid; user := Some u |} ]> (sockets st).
Proof.
  unfold connect, createAuthMiddleware. run.
  destruct (truthy (token_of h)); run; [|by left].
  destruct (verifyToken c (str (token_of h))) as [decoded|error]; run; [|by left].
  right. by eexists.
Qed.

(** Every state the gateway reaches has its sockets registered under
    their id and with an identity. *)
Lemma reachable_identified st : reachable st → identified st.
Proof.
  induction 1 as [|c st sid h _ IH Hfresh|c st socket ev data _ IH Hconn
                  |c st socket _ IH Hconn]; intros sid' s Hs.
  - cbn [initial sockets] in Hs. by rewrite lookup_empty in Hs.
  - destruct (connect_sockets c st sid h) as [Heq|[u Heq]]; rewrite Heq in Hs.
    + by apply IH.
    + apply lookup_insert_Some in Hs as [[<- <-]|[_ Hs]]; [|by apply IH].
      split; [done|by eexists].
  - rewrite on_keeps_sockets in Hs. by apply IH.
  - rewrite on_disconnect_sockets in Hs.
    apply lookup_delete_Some in Hs as [_ Hs]. by apply IH.
Qed.

End RegistryInvariant.

(** * Further properties of the handlers *)

(** ** Typing indicators *)

Section Typing.

Import MessageHandlers.

Implicit Types (c : Collab) (st : State) (socket : Socket) (data : Payload).

(** X1. [handleTypingStart] and [handleTypingStop] never answer, never call
    a service and never change the state.  With a group id, on an
    authenticated socket, they emit ['user:typing'] with the user id, the
    email, the group id and the flag ([true] for start, [false] for stop)
    on the room of the group, and every connection of the room but the
    typing one receives it once.  Without a group id, or on a socket without
    identity, they do nothing at all. *)
Theorem typing_indicator c st socket data (typing : bool) :
  let r := (if typing then handleTypingStart else handleTypingStop)
             socket data c st in
  let room := group_room (str (groupId data)) in
  outcome r = Return tt
  ∧ final r = st
  ∧ acks (effects r) = []
  ∧ calls (effects r) = []
  ∧ (∀ u, user socket = Some u → truthy (groupId data) = true →
          let notice := user_typing (userId u) (email u) (str (groupId data))
                                    typing in
          effects r = [Broadcast room (targets st room {[ id socket ]}) notice]
          ∧ ∀ sid, received sid (effects r)
                   = if decide (joined st room sid ∧ sid ≠ id socket)
                     then [notice] else [])
  ∧ (user socket = None ∨ truthy (groupId data) = false → effects r = []).
Proof.
  intros r room.
  assert (r = handleTyping typing socket data c st) as -> by (by destruct typing).
  unfold handleTyping, socket_user.
  destruct (user socket) as [u|] eqn:Hu; run.
  - destruct (truthy (groupId data)) eqn:Hgid; run.
    + split_and!; try done; [|by intros [|]].
      intros u' [= <-] _. split; [done|]. intros sid.
      rewrite received_Broadcast. apply decide_ext.
      by rewrite not_elem_of_singleton.
    + split_and!; try done.
  - split_and!; try done.
Qed.

End Typing.

(** X1 on the deployment of [Scenario]: alice starts typing in [g1] on her
    first connection; bob's connection is told, hers is not; a typing event
    without group id does nothing. *)
Lemma typing_indicator_witness :
  let data := for_group "g1" in
  let r := MessageHandlers.handleTypingStart Scenario.s1 data Scenario.collab Scenario.st in
  (user Scenario.s1 = Some Scenario.alice ∧ truthy (groupId data) = true)
  ∧ received "s2" (effects r) = [user_typing "a1" "alice@example.com" "g1" true]
  ∧ received "s1" (effects r) = []
  ∧ effects (MessageHandlers.handleTypingStop Scenario.s1
               {| groupId := None; content := None; messageId := None |}
               Scenario.collab Scenario.st) = [].
Proof.
  intros data r.
  split; [done|].
  destruct (typing_indicator Scenario.collab Scenario.st Scenario.s1 data true)
    as (_ & _ & _ & _ & Hemit & _).
  destruct (Hemit Scenario.alice eq_refl eq_refl) as [_ Hrecv].
  destruct (typing_indicator Scenario.collab Scenario.st Scenario.s1
              {| groupId := None; content := None; messageId := None |} false)
    as (_ & _ & _ & _ & _ & Hnothing).
  split_and!; [| |exact (Hnothing (or_intror eq_refl))];
    unfold r; rewrite Hrecv; by vm_compute.
Defined.

(** * Running handler code step by step

    The equations of [bind] and [try_catch] on a first action whose run is
    known; they let a proof follow one path of a handler without unfolding
    the others. *)

Section Stepping.

Implicit Types (c : Collab) (st : State).

Lemma after_nil {A} (r : Res A) : after [] r = r.
Proof. by destruct r. Qed.

Lemma after_after {A} es es' (r : Res A) : after es (after es' r) = after (es ++ es') r.
Proof. unfold after. cbn. by rewrite app_assoc. Qed.

Lemma after_returned {A} es st es' (a : A) :
  after es (returned st es' a) = returned st (es ++ es') a.
Proof. done. Qed.

Lemma after_thrown {A} es st es' e :
  after es (@thrown A st es' e) = thrown st (es ++ es') e.
Proof. done. Qed.

Lemma bind_returned {A B} (m : M A) (K : A → M B) c st st' es a :
  m c st = returned st' es a → bind m K c st = after es (K a c st').
Proof. unfold bind. by intros ->. Qed.

Lemma bind_thrown {A B} (m : M A) (K : A → M B) c st st' es e :
  m c st = thrown st' es e → bind m K c st = thrown st' es e.
Proof. unfold bind. by intros ->. Qed.

Lemma try_catch_returned {A} (m : M A) (H : ErrorObj → M A) c st st' es a :
  m c st = returned st' es a → try_catch m H c st = returned st' es a.
Proof. unfold try_catch. by intros ->. Qed.

Lemma try_catch_thrown {A} (m : M A) (H : ErrorObj → M A) c st st' es e :
  m c st = thrown st' es e → try_catch m H c st = after es (H e c st').
Proof. unfold try_catch. by intros ->. Qed.

Lemma try_catch_bind_returned {A B} (m : M A) (K : A → M B) (H : ErrorObj → M B) c st st' es a :
  m c st = returned st' es a →
  try_catch (bind m K) H c st = after es (try_catch (K a) H c st').
Proof.
  intros Hm. unfold try_catch. rewrite (bind_returned m K c st st' es a Hm).
  destruct (K a c st') as [[b|e] st'' es'']; unfold after; cbn; [done|].
  by rewrite app_assoc.
Qed.

Lemma try_catch_bind_thrown {A B} (m : M A) (K : A → M B) (H : ErrorObj → M B) c st st' es e :
  m c st = thrown st' es e →
  try_catch (bind m K) H c st = after es (H e c st').
Proof.
  intros Hm. apply try_catch_thrown. by apply bind_thrown.
Qed.

Lemma try_catch_nested {A} (m : M A) (H H' : ErrorObj → M A) c st :
  try_catch (try_catch m H) H' c st = handle H' c (try_catch m H c st).
Proof. done. Qed.

Lemma handle_returned {A} (H : ErrorObj → M A) c st es a :
  handle H c (returned st es a) = returned st es a.
Proof. done. Qed.

Lemma handle_thrown {A} (H : ErrorObj → M A) c st es e :
  handle H c (thrown st es e) = after es (H e c st).
Proof. done. Qed.

Lemma handle_after {A} (H : ErrorObj → M A) c es (r : Res A) :
  handle H c (after es r) = after es (handle H c r).
Proof.
  destruct r as [[a|e] st es']; unfold handle, after; cbn; [done|].
  by rewrite app_assoc.
Qed.

End Stepping.

Section Primitives.

Implicit Types (c : Collab) (st : State).

Lemma ret_run {A} (a : A) c st : ret a c st = returned st [] a.
Proof. done. Qed.

Lemma throw_run {A} e c st : @throw A e c st = thrown st [] e.
Proof. done. Qed.

Lemma tell_run e c st : tell e c st = returned st [e] tt.
Proof. done. Qed.

Lemma callback_run response c st : callback response c st = returned st [Ack response] tt.
Proof. done. Qed.

Lemma ask_run c st : ask c st = returned st [] c.
Proof. done. Qed.

Lemma get_state_run c st : get_state c st = returned st [] st.
Proof. done. Qed.

Lemma modify_run f c st : modify f c st = returned (f st) [] tt.
Proof. done. Qed.

Lemma await_Return {A} (a : A) c st : await (Return a) c st = returned st [] a.
Proof. done. Qed.

Lemma await_Throw {A} e c st : await (@Throw A e) c st = thrown st [] e.
Proof. done. Qed.

Lemma socket_user_Some socket u c st :
  user socket = Some u → socket_user socket c st = returned st [] u.
Proof. unfold socket_user. by intros ->. Qed.

Lemma socket_user_None socket c st :
  user socket = None →
  socket_user socket c st
  = thrown st [] (new_Error TypeError "Cannot read properties of undefined").
Proof. unfold socket_user. by intros ->. Qed.

Lemma socket_to_emit_run socket room ev c st :
  socket_to_emit socket room ev c st
  = returned st [Broadcast room (targets st room {[ id socket ]}) ev] tt.
Proof. done. Qed.

Lemma io_in_emit_run room ev c st :
  io_in_emit room ev c st = returned st [Broadcast room (targets st room ∅) ev] tt.
Proof. done. Qed.

Lemma fetchSockets_run room c st :
  fetchSockets room c st
  = returned st [] (omap (fun sid => sockets st !! sid) (targets st room ∅)).
Proof. done. Qed.

End Primitives.

(** The run of a primitive action. *)
Ltac prim :=
  lazymatch goal with
  | |- ret _ _ _ = _ => apply ret_run
  | |- throw _ _ _ = _ => apply throw_run
  | |- tell _ _ _ = _ => apply tell_run
  | |- callback _ _ _ = _ => apply callback_run
  | |- ask _ _ = _ => apply ask_run
  | |- get_state _ _ = _ => apply get_state_run
  | |- modify _ _ _ = _ => apply modify_run
  | |- await (Return _) _ _ = _ => apply await_Return
  | |- await (Throw _) _ _ = _ => apply await_Throw
  | |- socket_to_emit _ _ _ _ _ = _ => apply socket_to_emit_run
  | |- io_in_emit _ _ _ _ = _ => apply io_in_emit_run
  | |- fetchSockets _ _ _ = _ => apply fetchSockets_run
  | |- socket_user _ _ _ = returned _ _ _ => apply socket_user_Some; eassumption
  | |- socket_user _ _ _ = thrown _ _ _ => apply socket_user_None; eassumption
  | |- _ => eassumption
  end.

(** One step of a run: the first action of a [bind], under a [try] or not. *)
Ltac step :=
  unfold mbind, M_bind, mret, M_ret;
  first [ erewrite try_catch_bind_returned by prim
        | erewrite try_catch_bind_thrown by prim
        | erewrite try_catch_returned by prim
        | erewrite try_catch_thrown by prim
        | erewrite bind_returned by prim
        | erewrite bind_thrown by prim
        | rewrite try_catch_nested | rewrite after_after
        | rewrite handle_after | rewrite handle_returned | rewrite handle_thrown
        | rewrite ret_run | rewrite throw_run | rewrite callback_run
        | rewrite tell_run ];
  cbv beta;
  cbn [negb orb andb].

Ltac steps := repeat step.

(** Decide the class tests on an error whose class is known. *)
Ltac classes :=
  repeat match goal with
         | |- context [instanceof ?e ?C] =>
             let b := eval lazy in (instanceof e C) in
             match b with
             | true => change (instanceof e C) with true
             | false => change (instanceof e C) with false
             end
         end;
  cbn [negb orb andb].

(** Close a run that has been followed to its end. *)
Ltac ran :=
  unfold after, thrown, returned; cbn [outcome final effects app]; done.

(** Close a run that ends in a throw, whatever the tests on the error
    say. *)
Ltac failed :=
  repeat match goal with
         | |- context [if ?b then _ else _] => destruct b
         end;
  steps; ran.

(** * The services *)

Section Services'.

Variable c : Collab.
Implicit Types (st : State) (error : ErrorObj).

(** The run of [getGroupById], case by case. *)
Lemma getGroupById_run st groupId :
  GroupService.getGroupById groupId c st
  = match Group_findById_populate c groupId with
    | Return (Some group) => returned st [Called (getGroupById_call groupId)] group
    | Return None =>
        thrown st [Called (getGroupById_call groupId)]
               (new_NotFoundError "Group not found" "GROUP_NOT_FOUND")
    | Throw error =>
        thrown st [Called (getGroupById_call groupId)] (group_service_error error)
    end.
Proof.
  unfold GroupService.getGroupById. steps.
  destruct (Group_findById_populate c groupId) as [[group|]|error]; steps.
  - done.
  - done.
  - unfold group_service_error.
    destruct (String.eqb _ _); steps; [done|].
    destruct (instanceof error NotFoundError); by steps.
Qed.

(** The run of [encryptMessage], case by case. *)
Lemma encryptMessage_run st plaintext :
  Encryption.encryptMessage plaintext c st
  = if String.eqb plaintext "" then thrown st [] encrypt_failed
    else if (10000 <? Z.of_nat (String.length plaintext))%Z
    then thrown st [] encrypt_failed
    else match cipher c plaintext with
         | Return (encrypted, iv) =>
             returned st []
               {| Encryption.r_encryptedContent := encrypted;
                  Encryption.r_iv := iv;
                  Encryption.r_algorithm := Encryption.ALGORITHM;
                  Encryption.r_keyVersion := 1 |}
         | Throw _ => thrown st [] encrypt_failed
         end.
Proof.
  unfold Encryption.encryptMessage. steps.
  destruct (String.eqb plaintext ""); steps; [done|].
  destruct (10000 <? _)%Z; steps; [done|].
  destruct (cipher c plaintext) as [[encrypted iv]|error]; by steps.
Qed.

(** The run of [sendMessage], case by case. *)
Lemma sendMessage_run st userId groupId content :
  let called := Called (sendMessage_call userId groupId content) in
  MessageService.sendMessage userId groupId content c st
  = match Group_findById c groupId with
    | Throw error => thrown st [called] (message_service_error error)
    | Return None =>
        thrown st [called] (new_NotFoundError "Group not found" "GROUP_NOT_FOUND")
    | Return (Some group) =>
        if negb (isMember group userId) then
          thrown st [called]
            (new_AuthorizationError
               "Only group members can send messages to the group"
               "NOT_GROUP_MEMBER")
        else if String.eqb content "" || trim_is_empty content then
          thrown st [called]
            (new_ValidationError "Message content cannot be empty"
                                 (VStr "EMPTY_MESSAGE"))
        else if (10000 <? Z.of_nat (String.length content))%Z then
          thrown st [called] (message_service_error encrypt_failed)
        else
          match cipher c content with
          | Throw _ => thrown st [called] (message_service_error encrypt_failed)
          | Return (encrypted, iv) =>
              match Message_save c (new_message c userId groupId content
                                      encrypted iv) with
              | Return savedMessage =>
                  returned st [called; Saved savedMessage]
                           (MessageModel.set_content savedMessage content)
              | Throw error => thrown st [called] (message_service_error error)
              end
          end
    end.
Proof.
  intros called. unfold MessageService.sendMessage. steps.
  destruct (Group_findById c groupId) as [[group|]|error]; steps.
  - destruct (isMember group userId); cbn [negb]; steps; [|classes; steps; ran].
    destruct (String.eqb content "" || trim_is_empty content) eqn:Hblank;
      steps; [classes; steps; ran|].
    apply orb_false_elim in Hblank as [Hempty _].
    pose proof (encryptMessage_run st content) as Hencrypt.
    rewrite Hempty in Hencrypt.
    destruct (10000 <? _)%Z; [step; unfold message_service_error; failed|].
    destruct (cipher c content) as [[encrypted iv]|error];
      [|step; unfold message_service_error; failed].
    step. cbn [Encryption.r_encryptedContent Encryption.r_iv
               Encryption.r_algorithm Encryption.r_keyVersion].
    fold (new_message c userId groupId content encrypted iv).
    destruct (Message_save c _) as [savedMessage|error]; steps; [ran|].
    unfold message_service_error. failed.
  - classes. steps. ran.
  - unfold message_service_error. failed.
Qed.

End Services'.

(** ** Every event is answered *)

(** Close a goal [answered_once st r] on a run that can be followed to its
    end. *)
Ltac answer :=
  steps;
  try match goal with
      | |- context [MessageHandlers.handleError ?e ?m ?c ?st] =>
          let response := fresh "response" in
          destruct (handleError_run c st e m) as (response & -> & _)
      end;
  unfold answered_once, after, returned, thrown, handle;
  cbn [outcome final effects app];
  by eexists.

Section Answered.

Import PresenceHandlers MessageHandlers SocketServer.

Variable c : Collab.
Implicit Types (st : State) (socket : Socket) (data : Payload).

Lemma activeUsers_of_cases st (l : list Socket) :
  (∃ users, activeUsers_of l c st = returned st [] users)
  ∨ (∃ error, activeUsers_of l c st = thrown st [] error).
Proof.
  induction l as [|s l IH]; [left; by eexists|].
  cbn [activeUsers_of].
  destruct (user s) as [u|] eqn:Hu; [|right; eexists; step; ran].
  step. destruct IH as [(users & Hrun)|(error & Hrun)]; step.
  - left. eexists. step. ran.
  - right. eexists. ran.
Qed.

Lemma handleSendMessage_answered st socket data :
  answered_once st (handleSendMessage socket data c st).
Proof.
  unfold handleSendMessage.
  destruct (user socket) as [u|] eqn:Hu; [|answer].
  steps.
  destruct (truthy (groupId data)); cbn [negb orb]; [|answer].
  destruct (truthy (content data)); cbn [negb orb]; [|answer].
  pose proof (getGroupById_run c st (str (groupId data))) as Hgroup.
  destruct (Group_findById_populate c (str (groupId data))) as [[group|]|error];
    steps.
  - destruct (existsb _ _); cbn [negb]; [|answer].
    destruct (sendMessage_cases c st (userId u) (str (groupId data))
                (str (content data)))
      as [(savedMessage & Hsent)|(error & Hsent)]; steps; [answer|].
    destruct (instanceof error NotFoundError); answer.
  - classes. answer.
  - destruct (instanceof (group_service_error error) NotFoundError); answer.
Qed.

Lemma handleMessageRead_answered st socket data :
  answered_once st (handleMessageRead socket data c st).
Proof.
  unfold handleMessageRead.
  destruct (user socket) as [u|] eqn:Hu; [|answer].
  steps.
  destruct (truthy (messageId data)); cbn [negb orb]; [|answer].
  destruct (truthy (groupId data)); cbn [negb orb]; answer.
Qed.

Lemma handleGetActiveUsers_answered st socket data :
  answered_once st (handleGetActiveUsers socket data c st).
Proof.
  unfold handleGetActiveUsers.
  destruct (user socket) as [u|] eqn:Hu; [|answer].
  steps.
  destruct (truthy (groupId data)); cbn [negb]; [|answer].
  pose proof (getGroupById_run c st (str (groupId data))) as Hgroup.
  destruct (Group_findById_populate c (str (groupId data))) as [[group|]|error];
    steps.
  - destruct (some_active_member group (userId u)); cbn [negb]; steps;
      [|classes; answer].
    destruct (activeUsers_of_cases st
                (omap (fun sid => sockets st !! sid)
                      (targets st (group_room (str (groupId data))) ∅)))
      as [(users & Husers)|(error & Husers)]; steps; [answer|].
    destruct (instanceof error NotFoundError); steps; [answer|].
    destruct (instanceof error AuthorizationError); answer.
  - classes. answer.
  - destruct (instanceof (group_service_error error) NotFoundError); steps;
      [answer|].
    destruct (instanceof (group_service_error error) AuthorizationError); answer.
Qed.

Lemma handleLeaveGroup_answered st socket data :
  ∃ response,
    outcome (handleLeaveGroup socket data c st) = Return tt
    ∧ acks (effects (handleLeaveGroup socket data c st)) = [response].
Proof.
  unfold handleLeaveGroup.
  destruct (user socket) as [u|] eqn:Hu; steps; [|by eexists].
  destruct (truthy (groupId data)); cbn [negb]; steps; by eexists.
Qed.

(** A join request is answered once; when the answer is a failure, the
    state is as it was. *)
Lemma handleJoinGroup_answered st socket data :
  ∃ response,
    outcome (handleJoinGroup socket data c st) = Return tt
    ∧ acks (effects (handleJoinGroup socket data c st)) = [response]
    ∧ (success response = false → final (handleJoinGroup socket data c st) = st).
Proof.
  unfold handleJoinGroup.
  destruct (user socket) as [u|] eqn:Hu; steps; [|by eexists].
  destruct (truthy (groupId data)); cbn [negb]; steps; [|by eexists].
  pose proof (getGroupById_run c st (str (groupId data))) as Hgroup.
  destruct (Group_findById_populate c (str (groupId data))) as [[group|]|error];
    steps.
  - destruct (some_active_member group (userId u)); cbn [negb]; steps;
      [by eexists|].
    classes. steps. by eexists.
  - classes. steps. by eexists.
  - destruct (instanceof (group_service_error error) NotFoundError); steps;
      [by eexists|].
    destruct (instanceof (group_service_error error) AuthorizationError); steps;
      by eexists.
Qed.

Lemma handleTyping_silent st socket data typing :
  handleTyping typing socket data c st = returned st [] tt
  ∨ ∃ u, user socket = Some u ∧ truthy (groupId data) = true
         ∧ handleTyping typing socket data c st
           = returned st
               [Broadcast (group_room (str (groupId data)))
                  (targets st (group_room (str (groupId data))) {[ id socket ]})
                  (user_typing (userId u) (email u) (str (groupId data)) typing)]
               tt.
Proof.
  unfold handleTyping.
  destruct (user socket) as [u|] eqn:Hu; steps; [|by left].
  destruct (truthy (groupId data)); cbn [negb]; steps; [|by left].
  right. by exists u.
Qed.

(** With an object and an acknowledgement function, the handler of an
    event returns without throwing, and it calls the acknowledgement
    exactly once, but for the two typing events, which never call it. *)
Lemma on_answered st socket ev data :
  let r := on socket ev data c st in
  outcome r = Return tt
  ∧ length (acks (effects r)) = if expects_ack ev then 1 else 0.
Proof.
  destruct ev; cbn [on expects_ack]; unfold handleTypingStart, handleTypingStop.
  - destruct (handleSendMessage_answered st socket data) as (? & -> & _ & ->).
    done.
  - by destruct (handleTyping_silent st socket data true) as [->|(? & _ & _ & ->)].
  - by destruct (handleTyping_silent st socket data false) as [->|(? & _ & _ & ->)].
  - destruct (handleMessageRead_answered st socket data) as (? & -> & _ & ->).
    done.
  - by destruct (handleJoinGroup_answered st socket data) as (? & -> & -> & _).
  - by destruct (handleLeaveGroup_answered st socket data) as (? & -> & ->).
  - destruct (handleGetActiveUsers_answered st socket data) as (? & -> & _ & ->).
    done.
Qed.

(** X3. Only joining and leaving write to the gateway state: sending,
    typing, read receipts and the query for active users leave rooms,
    presence map and registry as they were, whatever the collaborators
    answer; and so does a join request that is answered with a failure. *)
Theorem only_join_and_leave_write st socket ev data :
  let r := on socket ev data c st in
  (changes_state ev = false → final r = st)
  ∧ (ev = group_join →
     ∀ response, response ∈ acks (effects r) → success response = false →
                 final r = st).
Proof.
  split.
  - destruct ev; cbn [on changes_state]; unfold handleTypingStart, handleTypingStop;
      intros Hev; try discriminate Hev.
    + by destruct (handleSendMessage_answered st socket data) as (? & _ & -> & _).
    + by destruct (handleTyping_silent st socket data true) as [->|(? & _ & _ & ->)].
    + by destruct (handleTyping_silent st socket data false) as [->|(? & _ & _ & ->)].
    + by destruct (handleMessageRead_answered st socket data) as (? & _ & -> & _).
    + by destruct (handleGetActiveUsers_answered st socket data) as (? & _ & -> & _).
  - intros -> response Hin Hfailure. cbn [on] in *.
    destruct (handleJoinGroup_answered st socket data)
      as (response' & _ & Hacks & Hsame).
    rewrite Hacks in Hin. apply list_elem_of_singleton in Hin as ->.
    by apply Hsame.
Qed.

End Answered.

(** X3 on the deployment of [Scenario]: carol's join request for [g1] is
    answered with a failure and changes nothing; alice's message does not
    change the state either. *)
Lemma only_join_and_leave_write_witness :
  let r := SocketServer.on Scenario.s3 SocketServer.group_join (for_group "g1")
             Scenario.collab Scenario.st in
  (∃ response, response ∈ acks (effects r) ∧ success response = false)
  ∧ final r = Scenario.st
  ∧ final (SocketServer.on Scenario.s1 SocketServer.message_send
             {| groupId := Some "g1"; content := Some "hi"; messageId := None |}
             Scenario.collab Scenario.st) = Scenario.st.
Proof.
  intros r.
  assert (Hin : failure "You are not a member of this group" None
                ∈ acks (effects r)).
  { vm_compute. apply list_elem_of_here. }
  split; [eexists; split; [exact Hin|done]|].
  split.
  - exact (proj2 (only_join_and_leave_write Scenario.collab Scenario.st Scenario.s3
                    SocketServer.group_join (for_group "g1"))
                 eq_refl _ Hin eq_refl).
  - exact (proj1 (only_join_and_leave_write Scenario.collab Scenario.st Scenario.s1
                    SocketServer.message_send _) eq_refl).
Defined.

(** ** Refused requests *)

Section Refused.

Import PresenceHandlers MessageHandlers SocketServer.

Variable c : Collab.
Implicit Types (st : State) (socket : Socket) (data : Payload).

(** X4. A send request with both fields, by an authenticated socket, for a
    group that the store does not have is answered with [GROUP_NOT_FOUND];
    for a group of which the user is not an active member, with
    [NOT_GROUP_MEMBER].  In both cases the message service is not called,
    nothing is saved and nothing is emitted. *)
Theorem send_message_refused st socket data u :
  user socket = Some u →
  truthy (groupId data) = true →
  truthy (content data) = true →
  let r := handleSendMessage socket data c st in
  let gid := str (groupId data) in
  (Group_findById_populate c gid = Return None →
     acks (effects r)
     = [failure "Group not found" (Some (VStr "GROUP_NOT_FOUND"))]
     ∧ calls (effects r) = [getGroupById_call gid]
     ∧ saved (effects r) = []
     ∧ broadcasts (effects r) = [])
  ∧ (∀ group,
       Group_findById_populate c gid = Return (Some group) →
       isMember group (userId u) = false →
       acks (effects r)
       = [failure "You are not a member of this group"
                  (Some (VStr "NOT_GROUP_MEMBER"))]
       ∧ calls (effects r) = [getGroupById_call gid]
       ∧ saved (effects r) = []
       ∧ broadcasts (effects r) = []).
Proof.
  intros Hu Hgid Hcontent r gid. subst r gid.
  unfold handleSendMessage. steps. rewrite Hgid, Hcontent. cbn [negb orb].
  pose proof (getGroupById_run c st (str (groupId data))) as Hgroup.
  split.
  - intros Hfind. rewrite Hfind in Hgroup. steps. classes. steps. ran.
  - intros group Hfind Hmem. rewrite Hfind in Hgroup. steps.
    unfold isMember in Hmem. rewrite Hmem. cbn [negb]. steps. ran.
Qed.

(** X5. A send request whose content is not empty but holds white space
    only passes the test of the handler and is rejected by the message
    service, once group and membership are found in order.  The answer is a
    failure with the message of the service, without error code and
    without details: the handler reads [error.code] and [error.details],
    which the [ValidationError] does not have.  Nothing is saved and nothing
    is emitted. *)
Theorem send_message_blank_content st socket data u text group group' :
  user socket = Some u →
  truthy (groupId data) = true →
  content data = Some text →
  text ≠ "" →
  all_space text = true →
  Group_findById_populate c (str (groupId data)) = Return (Some group) →
  isMember group (userId u) = true →
  Group_findById c (str (groupId data)) = Return (Some group') →
  isMember group' (userId u) = true →
  let r := handleSendMessage socket data c st in
  acks (effects r)
  = [{| success := false;
        Wire.message := Some "Message content cannot be empty";
        error := None; data := None; details := None |}]
  ∧ saved (effects r) = []
  ∧ broadcasts (effects r) = []
  ∧ final r = st.
Proof.
  intros Hu Hgid Hcontent Htext Hspace Hfind Hmem Hfind' Hmem' r. subst r.
  unfold handleSendMessage. steps.
  rewrite Hgid, Hcontent, (truthy_Some _ Htext). cbn [negb orb str default].
  pose proof (getGroupById_run c st (str (groupId data))) as Hgroup.
  rewrite Hfind in Hgroup. steps.
  unfold isMember in Hmem. rewrite Hmem. cbn [negb].
  pose proof (sendMessage_run c st (userId u) (str (groupId data)) text)
    as Hsend.
  cbv zeta in Hsend. rewrite Hfind', Hmem' in Hsend. cbn [negb] in Hsend.
  unfold trim_is_empty in Hsend. rewrite Hspace, orb_true_r in Hsend.
  steps. classes. steps. ran.
Qed.

(** A join, leave or active users request with an object that holds no
    group id, by an authenticated socket, is answered with [INVALID_INPUT]
    and does nothing else. *)
Lemma missing_group_id_object st socket ev data u :
  user socket = Some u →
  truthy (groupId data) = false →
  ev = group_join ∨ ev = group_leave ∨ ev = group_active_users →
  on socket ev data c st
  = {| outcome := Return tt; final := st;
       effects := [Ack (failure "Group ID is required"
                                (Some (VStr "INVALID_INPUT")))] |}.
Proof.
  intros Hu Hgid [->| [->| ->]]; cbn [on];
    unfold handleJoinGroup, handleLeaveGroup, handleGetActiveUsers;
    steps; rewrite Hgid; cbn [negb]; steps; ran.
Qed.

(** X7. When the lookup of the group fails in the store with anything but
    a [NotFoundError] (a cast error on a malformed id, a lost connection),
    a join request and a request for the active users are answered with
    [INTERNAL_ERROR] and the handler's own message; the state stays and
    nothing is emitted. *)
Theorem store_failure_is_internal_error st socket data u error :
  user socket = Some u →
  truthy (groupId data) = true →
  Group_findById_populate c (str (groupId data)) = Throw error →
  instanceof error NotFoundError = false →
  let gid := str (groupId data) in
  handleJoinGroup socket data c st
  = {| outcome := Return tt; final := st;
       effects := [Called (getGroupById_call gid);
                   Ack (failure "Failed to join group room"
                                (Some (VStr "INTERNAL_ERROR")))] |}
  ∧ handleGetActiveUsers socket data c st
    = {| outcome := Return tt; final := st;
         effects := [Called (getGroupById_call gid);
                     Ack (failure "Failed to get active users"
                                  (Some (VStr "INTERNAL_ERROR")))] |}.
Proof.
  intros Hu Hgid Hfind Hclass gid. subst gid.
  pose proof (getGroupById_run c st (str (groupId data))) as Hgroup.
  rewrite Hfind in Hgroup. unfold group_service_error in Hgroup.
  rewrite Hclass in Hgroup.
  unfold handleJoinGroup, handleGetActiveUsers.
  destruct (String.eqb (Errors.name error) "CastError");
    split; steps; rewrite Hgid; cbn [negb]; steps; classes; steps; ran.
Qed.

End Refused.

(** X4 on the deployment of [Scenario]: carol, whose membership is pending,
    sends to [g1]; alice sends to a group that does not exist. *)
Lemma send_message_refused_witness :
  let data := {| groupId := Some "g1"; content := Some "hi"; messageId := None |} in
  let data' := {| groupId := Some "g0"; content := Some "hi"; messageId := None |} in
  (user Scenario.s3 = Some Scenario.carol
   ∧ truthy (groupId data) = true ∧ truthy (content data) = true
   ∧ isMember Scenario.g1 "c3" = false)
  ∧ acks (effects (MessageHandlers.handleSendMessage Scenario.s3 data
                     Scenario.collab Scenario.st))
    = [failure "You are not a member of this group" (Some (VStr "NOT_GROUP_MEMBER"))]
  ∧ acks (effects (MessageHandlers.handleSendMessage Scenario.s1 data'
                     Scenario.collab Scenario.st))
    = [failure "Group not found" (Some (VStr "GROUP_NOT_FOUND"))].
Proof.
  intros data data'. split; [done|].
  destruct (send_message_refused Scenario.collab Scenario.st Scenario.s3 data
              Scenario.carol eq_refl eq_refl eq_refl) as [_ Hmember].
  destruct (send_message_refused Scenario.collab Scenario.st Scenario.s1 data'
              Scenario.alice eq_refl eq_refl eq_refl) as [Habsent _].
  split.
  - exact (proj1 (Hmember Scenario.g1 eq_refl eq_refl)).
  - exact (proj1 (Habsent eq_refl)).
Defined.

(** X5 on the deployment of [Scenario]: alice sends three spaces to [g1]. *)
Lemma send_message_blank_content_witness :
  let data := {| groupId := Some "g1"; content := Some "   "; messageId := None |} in
  let r := MessageHandlers.handleSendMessage Scenario.s1 data Scenario.collab Scenario.st in
  (truthy (content data) = true ∧ all_space "   " = true)
  ∧ error <$> acks (effects r) = [None]
  ∧ saved (effects r) = [].
Proof.
  intros data r. split; [done|].
  destruct (send_message_blank_content Scenario.collab Scenario.st Scenario.s1
              data Scenario.alice "   " Scenario.g1 Scenario.g1
              eq_refl eq_refl eq_refl ltac:(done) eq_refl eq_refl eq_refl
              eq_refl eq_refl) as (Hack & Hsaved & _).
  unfold r. by rewrite Hack, Hsaved.
Defined.

(** X7 with a store that fails the lookup with a cast error, as Mongoose
    does for an id that is no ObjectId. *)
Lemma store_failure_is_internal_error_witness :
  let cast_error :=
    with_prop "name" (VStr "CastError") (new_Error Error "Cast to ObjectId failed") in
  let c := {| Group_findById_populate := fun _ => Throw cast_error;
              Group_findById := Group_findById Scenario.collab;
              cipher := cipher Scenario.collab;
              Message_save := Message_save Scenario.collab;
              verifyToken := verifyToken Scenario.collab;
              now := now Scenario.collab |} in
  (Errors.name cast_error = "CastError"
   ∧ instanceof cast_error NotFoundError = false)
  ∧ acks (effects (PresenceHandlers.handleJoinGroup Scenario.s1 (for_group "not-an-id")
                     c Scenario.st))
    = [failure "Failed to join group room" (Some (VStr "INTERNAL_ERROR"))].
Proof.
  intros cast_error c. split; [done|].
  destruct (store_failure_is_internal_error c Scenario.st Scenario.s1
              (for_group "not-an-id") Scenario.alice cast_error
              eq_refl eq_refl eq_refl eq_refl) as [-> _].
  done.
Defined.

(** ** What the services throw and save *)

Section ServiceErrors.

Variable c : Collab.
Implicit Types (st : State) (error : ErrorObj).

(** X8. [getGroupById] asks the store once and leaves the gateway alone.
    It returns the group the store has; for [null] it throws a
    [NotFoundError] with the code [GROUP_NOT_FOUND]; a cast error of the
    store becomes a [ValidationError], whose code is [VALIDATION_ERROR] (the
    string [INVALID_ID] lands in its [errors]); any other failure becomes an
    [InternalError] with the message ["Group service error"], whose code is
    [INTERNAL_SERVER_ERROR]: the [DATABASE_ERROR] that the service passes to
    the constructor is dropped. *)
Theorem getGroupById_errors st groupId :
  let r := GroupService.getGroupById groupId c st in
  final r = st
  ∧ effects r = [Called (getGroupById_call groupId)]
  ∧ (∀ group, Group_findById_populate c groupId = Return (Some group) →
              outcome r = Return group)
  ∧ (Group_findById_populate c groupId = Return None →
       ∃ e, outcome r = Throw e
            ∧ instanceof e NotFoundError = true
            ∧ Errors.get e "errorCode" = Some (VStr "GROUP_NOT_FOUND"))
  ∧ (∀ error, Group_findById_populate c groupId = Throw error →
       Errors.name error = "CastError" →
       ∃ e, outcome r = Throw e
            ∧ instanceof e ValidationError = true
            ∧ Errors.message e = "Invalid group ID format"
            ∧ Errors.get e "errorCode" = Some (VStr "VALIDATION_ERROR")
            ∧ Errors.get e "errors" = Some (VStr "INVALID_ID"))
  ∧ (∀ error, Group_findById_populate c groupId = Throw error →
       Errors.name error ≠ "CastError" →
       instanceof error NotFoundError = false →
       ∃ e, outcome r = Throw e
            ∧ instanceof e InternalError = true
            ∧ Errors.message e = "Group service error"
            ∧ Errors.get e "errorCode" = Some (VStr "INTERNAL_SERVER_ERROR")).
Proof.
  intros r. subst r. rewrite getGroupById_run.
  split_and!.
  - by destruct (Group_findById_populate c groupId) as [[?|]|?].
  - by destruct (Group_findById_populate c groupId) as [[?|]|?].
  - by intros group ->.
  - intros ->. by eexists.
  - intros error -> Hname. unfold group_service_error.
    rewrite Hname. by eexists.
  - intros error -> Hname Hclass. unfold group_service_error.
    apply String.eqb_neq in Hname. rewrite Hname, Hclass. by eexists.
Qed.

(** X9. [sendMessage] saves at most one document, and only after its
    checks: when a document [m] was saved, the store has the group, the
    user is an active member of it, the content is not empty, the cipher
    succeeded, and [m] is what the store made of the document with this
    group, sender and content, the cipher text, the algorithm
    [aes-128-cbc] and key version 1; the service then returns [m] with the
    plain content. *)
Theorem sendMessage_saves_checked_document st userId groupId content m :
  let r := MessageService.sendMessage userId groupId content c st in
  m ∈ saved (effects r) →
  saved (effects r) = [m]
  ∧ outcome r = Return (MessageModel.set_content m content)
  ∧ ∃ group encrypted iv,
      Group_findById c groupId = Return (Some group)
      ∧ isMember group userId = true
      ∧ content ≠ ""
      ∧ cipher c content = Return (encrypted, iv)
      ∧ Message_save c
          {| MessageModel._id := ""; MessageModel.group := groupId;
             MessageModel.sender := userId; MessageModel.content := content;
             MessageModel.encryptedContent := encrypted;
             MessageModel.iv := iv;
             MessageModel.algorithm := "aes-128-cbc";
             MessageModel.keyVersion := 1;
             MessageModel.timestamp := now c |}
        = Return m.
Proof.
  intros r. subst r. rewrite sendMessage_run. cbv zeta.
  destruct (Group_findById c groupId) as [[group|]|error] eqn:Hfind;
    [|by intros ?%elem_of_nil..].
  destruct (isMember group userId) eqn:Hmem; cbn [negb];
    [|by intros ?%elem_of_nil].
  destruct (String.eqb content "" || trim_is_empty content) eqn:Hblank;
    [by intros ?%elem_of_nil|].
  apply orb_false_elim in Hblank as [Hempty%String.eqb_neq Hspace].
  destruct (10000 <? _)%Z eqn:Hlong; [by intros ?%elem_of_nil|].
  apply Z.ltb_ge in Hlong.
  destruct (cipher c content) as [[encrypted iv]|error] eqn:Hcipher;
    [|by intros ?%elem_of_nil].
  destruct (Message_save c _) as [savedMessage|error] eqn:Hsave;
    [|by intros ?%elem_of_nil].
  intros ->%list_elem_of_singleton.
  split_and!; [done|done|]. exists group, encrypted, iv.
  by split_and!.
Qed.

(** X10. What [sendMessage] throws is a [NotFoundError], an
    [AuthorizationError], a [ValidationError] or an [InternalError], and
    nothing was saved when it throws.  A failure of the store or of the
    cipher that is none of the first three reaches the caller as an
    [InternalError] whose code is [INTERNAL_SERVER_ERROR]: the codes
    [DATABASE_ERROR], [ENCRYPTION_ERROR] and [INTERNAL_ERROR] that the
    service passes to the constructor are dropped. *)
Theorem sendMessage_throws st userId groupId content e :
  let r := MessageService.sendMessage userId groupId content c st in
  outcome r = Throw e →
  saved (effects r) = []
  ∧ final r = st
  ∧ (instanceof e NotFoundError = true
     ∨ instanceof e AuthorizationError = true
     ∨ instanceof e ValidationError = true
     ∨ (instanceof e InternalError = true
        ∧ Errors.get e "errorCode" = Some (VStr "INTERNAL_SERVER_ERROR"))).
Proof.
  assert (Hservice : ∀ error,
    instanceof (message_service_error error) NotFoundError = true
    ∨ instanceof (message_service_error error) AuthorizationError = true
    ∨ instanceof (message_service_error error) ValidationError = true
    ∨ (instanceof (message_service_error error) InternalError = true
       ∧ Errors.get (message_service_error error) "errorCode"
         = Some (VStr "INTERNAL_SERVER_ERROR"))).
  { intros error. unfold message_service_error.
    destruct (instanceof error NotFoundError) eqn:H1; [by left|].
    destruct (instanceof error AuthorizationError) eqn:H2; [by right; left|].
    destruct (instanceof error ValidationError) eqn:H3; [by right; right; left|].
    cbn [orb]. do 3 right.
    destruct (_ || _); [done|]. by destruct (String.eqb _ _). }
  intros r. subst r. rewrite sendMessage_run. cbv zeta.
  destruct (Group_findById c groupId) as [[group|]|error].
  - destruct (isMember group userId); cbn [negb].
    + destruct (String.eqb content "" || trim_is_empty content).
      { intros [= <-]. split_and!; [done|done|]. by right; right; left. }
      destruct (10000 <? _)%Z; [intros [= <-]; by split_and!|].
      destruct (cipher c content) as [[encrypted iv]|error];
        [|intros [= <-]; by split_and!].
      destruct (Message_save c _) as [savedMessage|error]; [done|].
      intros [= <-]. by split_and!.
    + intros [= <-]. split_and!; [done|done|]. by right; left.
  - intros [= <-]. split_and!; [done|done|]. by left.
  - intros [= <-]. by split_and!.
Qed.

End ServiceErrors.

(** X8 with a store that knows [g1] only, and with one that fails with a
    cast error or with a lost connection. *)
Lemma getGroupById_errors_witness :
  let cast_error :=
    with_prop "name" (VStr "CastError") (new_Error Error "Cast to ObjectId failed") in
  let broken error :=
    {| Group_findById_populate := fun _ => Throw error;
       Group_findById := Group_findById Scenario.collab;
       cipher := cipher Scenario.collab;
       Message_save := Message_save Scenario.collab;
       verifyToken := verifyToken Scenario.collab;
       now := now Scenario.collab |} in
  outcome (GroupService.getGroupById "g1" Scenario.collab Scenario.st)
  = Return Scenario.g1
  ∧ (∃ e, outcome (GroupService.getGroupById "g0" Scenario.collab Scenario.st)
          = Throw e
          ∧ Errors.get e "errorCode" = Some (VStr "GROUP_NOT_FOUND"))
  ∧ (∃ e, outcome (GroupService.getGroupById "x" (broken cast_error) Scenario.st)
          = Throw e
          ∧ Errors.get e "errorCode" = Some (VStr "VALIDATION_ERROR"))
  ∧ (∃ e, outcome (GroupService.getGroupById "g1"
                     (broken (new_Error Error "connection lost")) Scenario.st)
          = Throw e
          ∧ Errors.get e "errorCode" = Some (VStr "INTERNAL_SERVER_ERROR")).
Proof.
  intros cast_error broken.
  destruct (getGroupById_errors Scenario.collab Scenario.st "g1")
    as (_ & _ & Hfound & _).
  destruct (getGroupById_errors Scenario.collab Scenario.st "g0")
    as (_ & _ & _ & Habsent & _).
  destruct (getGroupById_errors (broken cast_error) Scenario.st "x")
    as (_ & _ & _ & _ & Hcast & _).
  destruct (getGroupById_errors (broken (new_Error Error "connection lost"))
              Scenario.st "g1")
    as (_ & _ & _ & _ & _ & Hother).
  split_and!.
  - by apply Hfound.
  - destruct (Habsent eq_refl) as (e & He & _ & Hcode). by exists e.
  - destruct (Hcast cast_error eq_refl eq_refl) as (e & He & _ & _ & Hcode & _).
    by exists e.
  - destruct (Hother (new_Error Error "connection lost") eq_refl ltac:(done) eq_refl)
      as (e & He & _ & _ & Hcode).
    by exists e.
Defined.

(** X9 on the deployment of [Scenario]: alice's message ["hi"] to [g1]. *)
Lemma sendMessage_saves_checked_document_witness :
  let m := new_message Scenario.collab "a1" "g1" "hi" "c2VjcmV0"
             "00112233445566778899aabbccddeeff" in
  let r := MessageService.sendMessage "a1" "g1" "hi" Scenario.collab Scenario.st in
  m ∈ saved (effects r)
  ∧ saved (effects r) = [m]
  ∧ outcome r = Return m.
Proof.
  intros m r.
  assert (Hin : m ∈ saved (effects r)) by (vm_compute; apply list_elem_of_here).
  split; [exact Hin|].
  destruct (sendMessage_saves_checked_document Scenario.collab Scenario.st
              "a1" "g1" "hi" m Hin) as (Hsaved & Hout & _).
  split; [exact Hsaved|]. unfold r. by rewrite Hout.
Defined.

(** X10 on the deployment of [Scenario]: carol, who is no active member of
    [g1], calls the service. *)
Lemma sendMessage_throws_witness :
  let r := MessageService.sendMessage "c3" "g1" "hi" Scenario.collab Scenario.st in
  let e := new_AuthorizationError
             "Only group members can send messages to the group"
             "NOT_GROUP_MEMBER" in
  outcome r = Throw e ∧ saved (effects r) = [].
Proof.
  intros r e.
  assert (Hout : outcome r = Throw e) by by vm_compute.
  split; [exact Hout|].
  exact (proj1 (sendMessage_throws Scenario.collab Scenario.st "c3" "g1" "hi" e Hout)).
Defined.

(** * The bookkeeping of the gateway *)

Section Preservation.

Variable P : State → Prop.

Lemma preserves_ret {A} (a : A) : preserves P (ret a).
Proof. by intros c st. Qed.

Lemma preserves_throw {A} (e : ErrorObj) : preserves P (@throw A e).
Proof. by intros c st. Qed.

Lemma preserves_tell (e : Effect) : preserves P (tell e).
Proof. by intros c st. Qed.

Lemma preserves_ask : preserves P ask.
Proof. by intros c st. Qed.

Lemma preserves_get_state : preserves P get_state.
Proof. by intros c st. Qed.

Lemma preserves_await {A} (o : Outcome A) : preserves P (await o).
Proof. by intros c st. Qed.

Lemma preserves_modify (f : State → State) :
  (∀ st, P st → P (f st)) → preserves P (modify f).
Proof. intros Hf c st. apply Hf. Qed.

Lemma preserves_bind {A B} (m : M A) (f : A → M B) :
  preserves P m → (∀ a, preserves P (f a)) → preserves P (bind m f).
Proof.
  intros Hm Hf c st Hst. unfold bind. specialize (Hm c st Hst).
  destruct (outcome (m c st)) as [a|e]; [|done].
  cbn [final]. by apply Hf.
Qed.

Lemma preserves_try_catch {A} (body : M A) (handler : ErrorObj → M A) :
  preserves P body → (∀ e, preserves P (handler e)) →
  preserves P (try_catch body handler).
Proof.
  intros Hbody Hhandler c st Hst. unfold try_catch. specialize (Hbody c st Hst).
  destruct (outcome (body c st)) as [a|e]; [done|].
  cbn [final]. by apply Hhandler.
Qed.

End Preservation.

Section WellFormed.

Import PresenceHandlers MessageHandlers AuthMiddleware SocketServer.

Implicit Types (st : State) (socket : Socket).

Lemma gset_nonempty_size (X : gset string) : X ≠ ∅ ↔ size X ≠ 0.
Proof. rewrite size_non_empty_iff. by unfold_leibniz. Qed.

Lemma well_formed_join socket room st :
  well_formed st → well_formed (join socket room st).
Proof.
  intros (Hid & Hrooms & Hpresence).
  unfold well_formed, identified, rooms_ok, presence_ok in *. unfold join.
  destruct (decide (is_Some (sockets st !! id socket))) as [Hconn|]; [|done].
  split_and!; [done| |done].
  intros room' members. cbn [rooms sockets].
  intros [[<- <-]|[_ Hroom]]%lookup_insert_Some; [|by eapply Hrooms].
  split; [set_solver|].
  intros sid [->%elem_of_singleton|Hin]%elem_of_union; [done|].
  unfold room_sids in Hin.
  destruct (rooms st !! room) as [members|] eqn:Hroom; [|set_solver].
  by apply (Hrooms room members).
Qed.

Lemma well_formed_leave socket room st :
  well_formed st → well_formed (leave socket room st).
Proof.
  intros (Hid & Hrooms & Hpresence).
  unfold well_formed, identified, rooms_ok, presence_ok in *.
  split_and!; [done| |done].
  intros room' members'. unfold leave. cbn [rooms sockets].
  destruct (rooms st !! room) as [members|] eqn:Hroom; [|by eapply Hrooms].
  unfold del.
  destruct (decide (members ∖ {[ id socket ]} = ∅)) as [Hempty|Hne].
  - intros [_ Hroom']%lookup_delete_Some. by eapply Hrooms.
  - intros [[<- <-]|[_ Hroom']]%lookup_insert_Some; [|by eapply Hrooms].
    split; [done|]. intros sid [Hin _]%elem_of_difference.
    by apply (Hrooms room members).
Qed.

Lemma well_formed_track userId groupId st :
  well_formed st → well_formed (track userId groupId st).
Proof.
  intros (Hid & Hrooms & Hpresence).
  unfold well_formed, identified, rooms_ok, presence_ok in *.
  split_and!; [done|done|].
  intros userId' groups. unfold track. cbn [globalActiveUsers].
  destruct (decide (userId = userId')) as [<-|Hne].
  - rewrite lookup_alter_eq.
    destruct (decide (is_Some (globalActiveUsers st !! userId)))
      as [[groups' ->]|_].
    + intros [= <-]. set_solver.
    + rewrite lookup_insert_eq. intros [= <-]. set_solver.
  - rewrite lookup_alter_ne by done.
    destruct (decide (is_Some (globalActiveUsers st !! userId))).
    + apply Hpresence.
    + rewrite lookup_insert_ne by done. apply Hpresence.
Qed.

Lemma well_formed_untrack userId groupId st :
  well_formed st → well_formed (untrack userId groupId st).
Proof.
  intros (Hid & Hrooms & Hpresence).
  unfold well_formed, identified, rooms_ok, presence_ok in *.
  split_and!; [done|done|].
  intros userId' groups'. unfold untrack. cbn [globalActiveUsers].
  destruct (globalActiveUsers st !! userId) as [groups|] eqn:Hentry;
    [|by apply Hpresence].
  destruct (decide (size (groups ∖ {[ groupId ]}) = 0)) as [Hsize|Hsize].
  - intros [_ Hentry']%lookup_delete_Some. by apply (Hpresence userId').
  - intros [[<- <-]|[_ Hentry']]%lookup_insert_Some;
      [|by apply (Hpresence userId')].
    by apply gset_nonempty_size.
Qed.

Lemma well_formed_forget userId st :
  well_formed st → well_formed (forget userId st).
Proof.
  intros (Hid & Hrooms & Hpresence).
  unfold well_formed, identified, rooms_ok, presence_ok in *.
  split_and!; [done|done|].
  intros userId' groups. unfold forget. cbn [globalActiveUsers].
  intros [_ Hentry]%lookup_delete_Some. by apply (Hpresence userId').
Qed.

Lemma well_formed_close socket st :
  well_formed st → well_formed (close socket st).
Proof.
  intros (Hid & Hrooms & Hpresence).
  unfold well_formed, identified, rooms_ok, presence_ok in *.
  split_and!; [| |done].
  - intros sid s. unfold close. cbn [sockets].
    intros [_ Hs]%lookup_delete_Some. by apply Hid.
  - intros room members'. unfold close. cbn [rooms sockets].
    rewrite lookup_omap.
    destruct (rooms st !! room) as [members|] eqn:Hroom; [|done].
    cbn. destruct (Hrooms room members Hroom) as [Hne Hreg].
    destruct (decide (id socket ∈ members)) as [Hin|Hnotin].
    + unfold del.
      destruct (decide (members ∖ {[ id socket ]} = ∅)); [done|].
      intros [= <-]. split; [done|].
      intros sid [Hsid Hother%not_elem_of_singleton]%elem_of_difference.
      rewrite lookup_delete_ne by done. by apply Hreg.
    + intros [= <-]. split; [done|]. intros sid Hsid.
      rewrite lookup_delete_ne by (intros <-; done). by apply Hreg.
Qed.

Lemma well_formed_register sid u st :
  well_formed st →
  well_formed (register {| id := sid; user := Some u |} st).
Proof.
  intros (Hid & Hrooms & Hpresence).
  unfold well_formed, identified, rooms_ok, presence_ok in *.
  split_and!; [| |done].
  - intros sid' s. unfold register. cbn [sockets id].
    intros [[<- <-]|[_ Hs]]%lookup_insert_Some; [|by apply Hid].
    split; [done|by eexists].
  - intros room members Hroom. unfold register in *. cbn [rooms sockets id] in *.
    destruct (Hrooms room members Hroom) as [Hne Hreg].
    split; [done|]. intros sid' Hin.
    destruct (decide (sid = sid')) as [<-|Hother].
    + rewrite lookup_insert_eq. by eexists.
    + rewrite lookup_insert_ne by done. by apply Hreg.
Qed.

End WellFormed.

(** Decompose handler code into the operations of [M], for the property
    [well_formed]. *)
Ltac preserved :=
  repeat first
    [ solve [auto]
    | apply preserves_ret | apply preserves_throw | apply preserves_tell
    | apply preserves_ask | apply preserves_get_state | apply preserves_await
    | apply preserves_modify; intros ?;
      first [ apply well_formed_join | apply well_formed_leave
            | apply well_formed_track | apply well_formed_untrack
            | apply well_formed_forget | apply well_formed_close ]
    | apply preserves_bind; [|intros ?]
    | apply preserves_try_catch; [|intros ?]
    | match goal with
      | |- preserves _ (if ?b then _ else _) => destruct b
      | |- preserves _ (match ?x with _ => _ end) => destruct x
      | |- preserves _ (let _ := _ in _) => cbv zeta
      end ].

Section Invariant.

Import PresenceHandlers MessageHandlers AuthMiddleware SocketServer.

Implicit Types (st : State) (socket : Socket) (data : Payload).

Lemma on_preserves_well_formed socket ev data :
  preserves well_formed (on socket ev data).
Proof.
  assert (Husers : ∀ l, preserves well_formed (activeUsers_of l)).
  { induction l as [|s l IH]; cbn [activeUsers_of];
      unfold socket_user, mbind, M_bind, mret, M_ret; preserved. }
  destruct ev; cbn [on];
    unfold handleSendMessage, handleTypingStart, handleTypingStop, handleTyping,
      handleMessageRead, handleJoinGroup, handleLeaveGroup, handleGetActiveUsers,
      handleError, GroupService.getGroupById, MessageService.sendMessage,
      Encryption.encryptMessage, socket_user, callback, socket_to_emit,
      io_in_emit, fetchSockets, mbind, M_bind, mret, M_ret;
    preserved.
Qed.

Lemma on_disconnect_preserves_well_formed socket :
  preserves well_formed (on_disconnect socket).
Proof.
  assert (Hnotify : ∀ u l, preserves well_formed (notify_offline socket u l)).
  { intros u. induction l as [|g l IH]; cbn [notify_offline];
      unfold socket_to_emit, mbind, M_bind, mret, M_ret; preserved. }
  unfold on_disconnect, handleDisconnect, mbind, M_bind, mret, M_ret.
  preserved.
Qed.

Lemma connect_preserves_well_formed sid h :
  preserves well_formed (connect sid h).
Proof.
  intros c st Hst.
  pose proof (well_formed_register sid) as Hregister.
  unfold connect, createAuthMiddleware. run.
  destruct (truthy (token_of h)); run; [|done].
  destruct (verifyToken c (str (token_of h))) as [decoded|error]; run; [|done].
  by apply Hregister.
Qed.

(** X11. In every state the gateway reaches, whatever the clients send and
    the collaborators answer: every registered socket is registered under
    its own id and carries an identity; no room is empty, and a room holds
    registered sockets only; the presence map holds no empty set of
    groups. *)
Theorem reachable_well_formed st :
  reachable st →
  identified st
  ∧ (∀ room members, rooms st !! room = Some members →
       members ≠ ∅ ∧ ∀ sid, sid ∈ members → is_Some (sockets st !! sid))
  ∧ (∀ userId groups, globalActiveUsers st !! userId = Some groups →
       groups ≠ ∅).
Proof.
  change (reachable st → well_formed st).
  induction 1 as [|c st sid h _ IH _|c st socket ev data _ IH _|c st socket _ IH _].
  - split_and!; intros ? ?; cbn [initial sockets rooms globalActiveUsers];
      by rewrite lookup_empty.
  - by apply connect_preserves_well_formed.
  - by apply on_preserves_well_formed.
  - by apply on_disconnect_preserves_well_formed.
Qed.

End Invariant.

(** X11 on a run of the gateway from its start: alice connects with her
    token and joins the room of [g1]. *)
Lemma reachable_well_formed_witness :
  let h := {| AuthMiddleware.auth_token := Some "token-of-alice";
              AuthMiddleware.authorization := None |} in
  let st1 := final (SocketServer.connect "s1" h Scenario.collab initial) in
  let st2 := final (SocketServer.on Scenario.s1 SocketServer.group_join
                      (for_group "g1") Scenario.collab st1) in
  reachable st2
  ∧ identified st2
  ∧ rooms st2 !! "group:g1" = Some {[ "s1" ]}
  ∧ globalActiveUsers st2 !! "a1" = Some {[ "g1" ]}.
Proof.
  intros h st1 st2.
  assert (Hreach : reachable st2).
  { apply reach_event; [|by vm_compute].
    apply reach_connect; [apply reach_initial|done]. }
  split; [exact Hreach|].
  split; [exact (proj1 (reachable_well_formed st2 Hreach))|].
  by vm_compute.
Defined.

(** ** Joining and leaving compose *)

Section JoinLeave.

Import PresenceHandlers SocketServer.

Implicit Types (c : Collab) (st : State) (socket : Socket) (data : Payload).

(** X12. Joining a room and leaving it again brings the gateway back to
    where it was: for a connected socket that is not in the room, whose user
    is an active member of the group and has no presence in it yet, in a
    state whose bookkeeping is in order, the state after the join request
    and the leave request is the state before. *)
Theorem join_then_leave c c' st socket data u group :
  rooms_ok st →
  presence_ok st →
  user socket = Some u →
  sockets st !! id socket = Some socket →
  truthy (groupId data) = true →
  Group_findById_populate c (str (groupId data)) = Return (Some group) →
  some_active_member group (userId u) = true →
  id socket ∉ room_sids st (group_room (str (groupId data))) →
  str (groupId data) ∉ presence st (userId u) →
  let r1 := handleJoinGroup socket data c st in
  let r2 := handleLeaveGroup socket data c' (final r1) in
  acks (effects r1) = [join_ok]
  ∧ acks (effects r2) = [leave_ok]
  ∧ final r2 = st.
Proof.
  intros Hrooms Hpresence Hu Hconn Hgid Hfind Hmem Hnotin Hfresh r1 r2.
  subst r1 r2.
  rewrite (handleJoinGroup_member c st socket data u group Hu Hgid Hfind Hmem).
  cbn [final effects].
  rewrite (handleLeaveGroup_run c' _ socket data u Hu Hgid).
  cbn [final effects]. split_and!; [done|done|].
  set (gid := str (groupId data)) in *. set (room := group_room gid) in *.
  destruct st as [socks rms gau].
  unfold untrack, leave, track, join, room_sids, presence in *.
  cbn [sockets rooms globalActiveUsers] in *.
  rewrite decide_True by (by rewrite Hconn).
  cbn [sockets rooms globalActiveUsers]. f_equal.
  - rewrite lookup_insert_eq. unfold del.
    replace (({[id socket]} ∪ default ∅ (rms !! room)) ∖ {[id socket]})
      with (default ∅ (rms !! room)) by set_solver.
    destruct (rms !! room) as [members|] eqn:Hroom; cbn [default].
    + destruct (Hrooms room members Hroom) as [Hne _].
      rewrite decide_False by done.
      rewrite insert_insert_eq. by apply insert_id.
    + rewrite decide_True by done.
      rewrite delete_insert_eq. by apply delete_id.
  - destruct (gau !! userId u) as [groups|] eqn:Hentry; cbn [default] in Hfresh.
    + rewrite decide_True by done.
      rewrite lookup_alter_eq, Hentry. cbn.
      replace (({[gid]} ∪ groups) ∖ {[gid]}) with groups by set_solver.
      rewrite decide_False
        by (apply gset_nonempty_size; by apply (Hpresence (userId u))).
      apply map_eq. intros k. destruct (decide (k = userId u)) as [->|Hk].
      * by rewrite lookup_insert_eq.
      * rewrite lookup_insert_ne, lookup_alter_ne by done. done.
    + rewrite decide_False by (by intros [? ?]).
      rewrite lookup_alter_eq, lookup_insert_eq. cbn.
      replace (({[gid]} ∪ ∅) ∖ {[gid]}) with (∅ : gset string) by set_solver.
      rewrite decide_True by done.
      apply map_eq. intros k. destruct (decide (k = userId u)) as [->|Hk].
      * by rewrite lookup_delete_eq.
      * rewrite lookup_delete_ne, lookup_alter_ne, lookup_insert_ne by done.
        done.
Qed.

(** X13. Presence is kept per user, not per connection.  When a user has
    two connections in the room of a group and one of them leaves, the other
    one is still in the room, but the presence map no longer lists the
    group for the user. *)
Theorem leave_drops_presence_of_other_connection c st socket data u sid' :
  user socket = Some u →
  truthy (groupId data) = true →
  sid' ≠ id socket →
  joined st (group_room (str (groupId data))) sid' →
  let r := handleLeaveGroup socket data c st in
  joined (final r) (group_room (str (groupId data))) sid'
  ∧ (str (groupId data) ∉ presence (final r) (userId u))
  ∧ received sid' (effects r)
    = [user_inactive (userId u) (email u) (str (groupId data)) "offline"].
Proof.
  intros Hu Hgid Hother Hjoined r. subst r.
  rewrite (handleLeaveGroup_run c st socket data u Hu Hgid).
  cbn [final effects].
  set (gid := str (groupId data)) in *. set (room := group_room gid) in *.
  assert (Hstill : joined (untrack (userId u) gid (leave socket room st)) room sid').
  { change (joined (leave socket room st) room sid').
    rewrite joined_leave. split; [done|]. by intros [_ ?]. }
  split_and!.
  - exact Hstill.
  - unfold presence, untrack. cbn [globalActiveUsers leave].
    destruct (globalActiveUsers st !! userId u) as [groups|] eqn:Hentry.
    + destruct (decide (size (groups ∖ {[ gid ]}) = 0)).
      * rewrite lookup_delete_eq. set_solver.
      * rewrite lookup_insert_eq. set_solver.
    + rewrite Hentry. set_solver.
  - rewrite received_cons, received_Broadcast. cbn. rewrite app_nil_r.
    apply decide_True. split; [exact Hstill|]. by rewrite not_elem_of_singleton.
Qed.

(** X14. A disconnect sweeps the presence of the user whatever other
    connections the user has: a second connection of the same user that is
    in the room of one of the user's groups stays in the room, is told that
    its own user went offline in that group, and the presence map has no
    entry for the user afterwards. *)
Theorem disconnect_sweeps_other_connection c st socket u entry sid' socket' g :
  user socket = Some u →
  userId u ≠ "" →
  globalActiveUsers st !! userId u = Some entry →
  g ∈ entry →
  sid' ≠ id socket →
  sockets st !! sid' = Some socket' →
  user socket' = Some u →
  joined st (group_room g) sid' →
  let r := on_disconnect socket c st in
  joined (final r) (group_room g) sid'
  ∧ user_inactive (userId u) (email u) g "offline" ∈ received sid' (effects r)
  ∧ globalActiveUsers (final r) !! userId u = None.
Proof.
  intros Hu Hid Hentry Hg Hother Hsock' Hu' Hjoined r. subst r.
  rewrite (on_disconnect_run c st socket u entry Hu Hid Hentry).
  cbn [final effects]. split_and!.
  - change (joined (close socket st) (group_room g) sid').
    by rewrite joined_close.
  - rewrite received_offline_notices.
    apply (list_elem_of_fmap_2 (fun g => user_inactive (userId u) (email u) g "offline")).
    apply list_elem_of_filter. split; [|by apply elem_of_elements].
    split; [|done]. by rewrite joined_close.
  - unfold forget. cbn [globalActiveUsers]. apply lookup_delete_eq.
Qed.

End JoinLeave.

(** X12 on a deployment where bob is in the room of [g1]: alice joins on her
    first connection and leaves again. *)
Lemma join_then_leave_witness :
  let st := {| sockets := sockets Scenario.st;
               rooms := {[ "group:g1" := {[ "s2" ]} ]};
               globalActiveUsers := {[ "b2" := {[ "g1" ]} ]} |} in
  let r1 := PresenceHandlers.handleJoinGroup Scenario.s1 (for_group "g1")
              Scenario.collab st in
  let r2 := PresenceHandlers.handleLeaveGroup Scenario.s1 (for_group "g1")
              Scenario.collab (final r1) in
  (rooms_ok st ∧ presence_ok st
   ∧ ("s1" ∉ room_sids st "group:g1") ∧ ("g1" ∉ presence st "a1"))
  ∧ joined (final r1) "group:g1" "s1"
  ∧ final r2 = st.
Proof.
  intros st r1 r2.
  assert (Hrooms : rooms_ok st).
  { intros room members Hroom. unfold st in Hroom. cbn [rooms] in Hroom.
    apply lookup_singleton_Some in Hroom as [<- <-].
    split; [set_solver|].
    intros sid ->%elem_of_singleton. by eexists. }
  assert (Hpresence : presence_ok st).
  { intros userId groups Hentry. unfold st in Hentry.
    cbn [globalActiveUsers] in Hentry.
    apply lookup_singleton_Some in Hentry as [<- <-]. set_solver. }
  assert (Hnotin : "s1" ∉ room_sids st "group:g1")
    by (refine (bool_decide_unpack _ _); by vm_compute).
  assert (Hfresh : "g1" ∉ presence st "a1")
    by (refine (bool_decide_unpack _ _); by vm_compute).
  split; [done|].
  split; [refine (bool_decide_unpack _ _); by vm_compute|].
  exact (proj2 (proj2 (join_then_leave Scenario.collab Scenario.collab st
                         Scenario.s1 (for_group "g1") Scenario.alice Scenario.g1
                         Hrooms Hpresence eq_refl eq_refl eq_refl eq_refl eq_refl
                         Hnotin Hfresh))).
Defined.

(** X13 on the deployment of [Scenario] with alice twice in the room of
    [g1]: her first connection leaves. *)
Lemma leave_drops_presence_of_other_connection_witness :
  let st := Scenario.st_twice in
  let r := PresenceHandlers.handleLeaveGroup Scenario.s1 (for_group "g1")
             Scenario.collab st in
  (user Scenario.s4 = Some Scenario.alice ∧ joined st "group:g1" "s4")
  ∧ joined (final r) "group:g1" "s4"
  ∧ ("g1" ∉ presence (final r) "a1").
Proof.
  intros st r.
  assert (Hjoined : joined st "group:g1" "s4")
    by (refine (bool_decide_unpack _ _); by vm_compute).
  split; [done|].
  destruct (leave_drops_presence_of_other_connection Scenario.collab st
              Scenario.s1 (for_group "g1") Scenario.alice "s4"
              eq_refl eq_refl ltac:(done) Hjoined) as (Hstill & Hgone & _).
  by split.
Defined.

(** X14 on the deployment of [Scenario] with alice twice in the room of
    [g1]: her first connection closes. *)
Lemma disconnect_sweeps_other_connection_witness :
  let st := Scenario.st_twice in
  let r := SocketServer.on_disconnect Scenario.s1 Scenario.collab st in
  (globalActiveUsers st !! "a1" = Some {[ "g1" ]} ∧ joined st "group:g1" "s4")
  ∧ joined (final r) "group:g1" "s4"
  ∧ globalActiveUsers (final r) !! "a1" = None.
Proof.
  intros st r.
  assert (Hjoined : joined st "group:g1" "s4")
    by (refine (bool_decide_unpack _ _); by vm_compute).
  split; [done|].
  destruct (disconnect_sweeps_other_connection Scenario.collab st Scenario.s1
              Scenario.alice {[ "g1" ]} "s4" Scenario.s4 "g1"
              eq_refl ltac:(done) eq_refl ltac:(set_solver) ltac:(done)
              eq_refl eq_refl Hjoined) as (Hstill & _ & Hgone).
  by split.
Defined.

(** * The group document *)

Section GroupMethods.

Import GroupDocument.

Implicit Types (g : GroupDoc) (l : list MemberDoc) (m : MemberDoc)
  (userId v : string) (now : Z).

Lemma find_update_first_same (p : MemberDoc → bool) f l m :
  (∀ x, p x = true → p (f x) = true) →
  List.find p l = Some m →
  List.find p (update_first p f l) = Some (f m).
Proof.
  intros Hf. induction l as [|x l IH]; [done|]. cbn.
  destruct (p x) eqn:Hx.
  - intros [= <-]. cbn. by rewrite (Hf x Hx).
  - intros Hfind. cbn. rewrite Hx. by apply IH.
Qed.

Lemma update_first_none (p : MemberDoc → bool) f l :
  List.find p l = None → update_first p f l = l.
Proof.
  induction l as [|x l IH]; [done|]. cbn.
  destruct (p x); [done|]. intros Hfind. by rewrite IH.
Qed.

(** Changing the first entry of one user does not show in the entry of
    another. *)
Lemma find_update_first_other (p q : MemberDoc → bool) f l :
  (∀ x, p x = true → q x = false ∧ q (f x) = false) →
  List.find q (update_first p f l) = List.find q l.
Proof.
  intros Hpq. induction l as [|x l IH]; [done|]. cbn.
  destruct (p x) eqn:Hx.
  - cbn. destruct (Hpq x Hx) as [-> ->]. done.
  - cbn. by rewrite IH.
Qed.

Lemma users_update_first (p : MemberDoc → bool) f l :
  (∀ x, user (f x) = user x) →
  List.map user (update_first p f l) = List.map user l.
Proof.
  intros Hf. induction l as [|x l IH]; [done|]. cbn.
  destruct (p x); cbn; [by rewrite Hf|by rewrite IH].
Qed.

Lemma find_is_user_None userId l :
  List.find (is_user userId) l = None ↔ userId ∉ List.map user l.
Proof.
  induction l as [|x l IH]; cbn; [split; [intros _; apply not_elem_of_nil|done]|].
  unfold is_user at 1. rewrite not_elem_of_cons.
  destruct (bool_decide_reflect (user x = userId)) as [Hx|Hx].
  - split; [done|]. intros [? _]. congruence.
  - rewrite IH. split; [intros ?; split; [congruence|done]|by intros [_ ?]].
Qed.

Lemma find_is_user_Some userId l m :
  List.find (is_user userId) l = Some m → user m = userId ∧ m ∈ l.
Proof.
  intros Hfind. apply List.find_some in Hfind as [Hin Hm].
  split; [by apply bool_decide_eq_true in Hm|by apply list_elem_of_In].
Qed.

(** With one entry per user, the entry that [find] gives for a user is the
    only one. *)
Lemma unique_entry userId l m x :
  NoDup (List.map user l) →
  List.find (is_user userId) l = Some m →
  x ∈ l → user x = userId → x = m.
Proof.
  induction l as [|y l IH]; [done|]. cbn.
  intros [Hy Hl]%NoDup_cons. unfold is_user at 1.
  destruct (bool_decide_reflect (user y = userId)) as [Hyu|Hyu].
  - intros [= <-] [->|Hin]%elem_of_cons Hx; [done|].
    exfalso. apply Hy. rewrite Hyu, <- Hx.
    apply list_elem_of_In, List.in_map. by apply list_elem_of_In.
  - intros Hfind [->|Hin]%elem_of_cons Hx; [congruence|]. by apply IH.
Qed.

Lemma existsb_unique userId (q : MemberDoc → bool) l m :
  NoDup (List.map user l) →
  List.find (is_user userId) l = Some m →
  existsb (fun x => is_user userId x && q x) l = q m.
Proof.
  intros Hl Hfind.
  destruct (q m) eqn:Hm.
  - apply existsb_exists. exists m.
    apply List.find_some in Hfind as [Hin Hu]. by rewrite Hu, Hm.
  - apply not_true_is_false.
    intros (x & Hin & [Hu Hq]%andb_prop)%existsb_exists.
    apply bool_decide_eq_true in Hu.
    rewrite (unique_entry userId l m x Hl Hfind) in Hq
      by (done || by apply list_elem_of_In).
    congruence.
Qed.

Lemma getMember_pre_save now g v :
  v ≠ owner g → getMember (pre_save now g) v = getMember g v.
Proof.
  intros Hv. unfold getMember, pre_save.
  destruct (List.find (is_user (owner g)) (members g)) as [ownerMember|].
  - destruct (negb (has_status active ownerMember)); [|done].
    cbn. apply find_update_first_other.
    intros x Hx%bool_decide_eq_true. unfold is_user. cbn.
    split; apply bool_decide_eq_false; congruence.
  - cbn. unfold is_user at 1. cbn. by rewrite bool_decide_eq_false_2.
Qed.

Lemma owner_pre_save now g : owner (pre_save now g) = owner g.
Proof.
  unfold pre_save.
  destruct (List.find _ _) as [ownerMember|]; [|done].
  by destruct (negb _).
Qed.

(** The hook leaves a document alone whose owner is listed as active. *)
Lemma pre_save_id now g m :
  getMember g (owner g) = Some m → status m = active → pre_save now g = g.
Proof.
  unfold getMember, pre_save. intros -> Hactive.
  unfold has_status. by rewrite bool_decide_eq_true_2.
Qed.

Lemma cooldownPeriod_pre_save now g :
  cooldownPeriod (pre_save now g) = cooldownPeriod g.
Proof.
  unfold pre_save.
  destruct (List.find _ _) as [ownerMember|]; [|done].
  by destruct (negb _).
Qed.

Lemma isMember_pre_save_owner now g : isMember (pre_save now g) (owner g) = true.
Proof.
  unfold pre_save, isMember.
  destruct (List.find (is_user (owner g)) (members g)) as [ownerMember|] eqn:Hfind.
  - destruct (has_status active ownerMember) eqn:Hactive; cbn [negb].
    + apply existsb_exists. exists ownerMember.
      apply List.find_some in Hfind as [Hin Hu]. by rewrite Hu, Hactive.
    + cbn. clear Hactive. revert Hfind.
      induction (members g) as [|x l IH]; [done|]. cbn.
      destruct (is_user (owner g) x) eqn:Hx.
      * intros _. cbn. unfold is_user in *. cbn. by rewrite Hx.
      * intros Hfind. cbn. rewrite (IH Hfind). apply orb_true_r.
  - cbn. unfold is_user, has_status. cbn.
    by rewrite !bool_decide_eq_true_2.
Qed.

Lemma getMember_pre_save_owner now g :
  ∃ m, getMember (pre_save now g) (owner g) = Some m
       ∧ user m = owner g ∧ status m = active.
Proof.
  unfold pre_save, getMember.
  destruct (List.find (is_user (owner g)) (members g)) as [ownerMember|] eqn:Hfind.
  - destruct (has_status active ownerMember) eqn:Hactive; cbn [negb].
    + exists ownerMember. rewrite Hfind.
      apply find_is_user_Some in Hfind as [Hu _].
      by apply bool_decide_eq_true in Hactive.
    + eexists. cbn [members set_members]. split.
      * apply find_update_first_same; [by intros ? ?|done].
      * by apply find_is_user_Some in Hfind as [Hu _].
  - eexists. cbn. unfold is_user at 1. cbn.
    by rewrite bool_decide_eq_true_2.
Qed.

(** X15. Whatever is written, the owner is written as an active member:
    after [addMember], [removeMember], [banMember] and [approveMember],
    whoever they were called for, the owner of the group is an active
    member of the document that is saved; banning or removing the owner
    does not take the membership away. *)
Theorem owner_stays_active_member now g userId st reason :
  isMember (save now g) (owner g) = true
  ∧ isMember (addMember now userId st g) (owner g) = true
  ∧ isMember (removeMember now userId g) (owner g) = true
  ∧ isMember (banMember now userId reason g) (owner g) = true
  ∧ isMember (approveMember now userId g) (owner g) = true
  ∧ isMember (banMember now (owner g) reason g) (owner g) = true
  ∧ isBanned (banMember now (owner g) reason g) (owner g) = false.
Proof.
  assert (Hsave : ∀ l, isMember (save now (set_members g l)) (owner g) = true).
  { intros l. apply (isMember_pre_save_owner now (set_members g l)). }
  split_and!.
  - apply isMember_pre_save_owner.
  - unfold addMember. destruct (List.find _ _); apply Hsave.
  - apply Hsave.
  - apply Hsave.
  - apply Hsave.
  - apply Hsave.
  - unfold isBanned, banMember, save.
    destruct (getMember_pre_save_owner now
                (set_members g
                   (update_first (is_user (owner g))
                      (fun m => {| user := user m; status := banned;
                                   joinedAt := joinedAt m;
                                   lastBannedAt := Some now;
                                   banReason := Some reason |})
                      (members g)))) as (m & Hm & _ & Hactive).
    unfold getMember in Hm. cbn [owner set_members] in Hm. rewrite Hm.
    unfold has_status. rewrite Hactive. done.
Qed.

End GroupMethods.

Section GroupEntries.

Import GroupDocument.

Implicit Types (g : GroupDoc) (l : list MemberDoc) (m : MemberDoc)
  (userId v : string) (now : Z).

Lemma users_pre_save now g : NoDup (users g) → NoDup (users (pre_save now g)).
Proof.
  unfold users, pre_save. intros Hg.
  destruct (List.find (is_user (owner g)) (members g)) as [ownerMember|] eqn:Hfind.
  - destruct (negb (has_status active ownerMember)); [|done].
    cbn. by rewrite users_update_first.
  - cbn. apply NoDup_cons. split; [|done]. by apply find_is_user_None.
Qed.

Lemma users_filter (p : MemberDoc → bool) l :
  NoDup (List.map user l) → NoDup (List.map user (List.filter p l)).
Proof.
  induction l as [|x l IH]; [done|]. cbn. intros [Hx Hl]%NoDup_cons.
  destruct (p x); [|by apply IH]. cbn. apply NoDup_cons. split; [|by apply IH].
  intros Hin. apply Hx. clear -Hin.
  apply list_elem_of_In, List.in_map_iff in Hin as (y & Hy & Hin).
  apply List.filter_In in Hin as [Hin _].
  rewrite <- Hy. by apply list_elem_of_In, List.in_map.
Qed.

Lemma users_addMember now g userId st :
  NoDup (users g) → NoDup (users (addMember now userId st g)).
Proof.
  intros Hg. unfold addMember, save.
  destruct (List.find (is_user userId) (members g)) eqn:Hfind;
    apply users_pre_save; unfold users; cbn.
  - by rewrite users_update_first.
  - rewrite List.map_app. cbn. apply NoDup_app. split_and!; [done| |].
    + intros x Hx ->%list_elem_of_singleton.
      by apply find_is_user_None in Hfind.
    + apply NoDup_singleton.
Qed.

Lemma users_removeMember now g userId :
  NoDup (users g) → NoDup (users (removeMember now userId g)).
Proof.
  intros Hg. apply users_pre_save. unfold users. cbn. by apply users_filter.
Qed.

Lemma users_banMember now g userId reason :
  NoDup (users g) → NoDup (users (banMember now userId reason g)).
Proof.
  intros Hg. apply users_pre_save. unfold users. cbn.
  by rewrite users_update_first.
Qed.

Lemma users_approveMember now g userId :
  NoDup (users g) → NoDup (users (approveMember now userId g)).
Proof.
  intros Hg. apply users_pre_save. unfold users. cbn.
  by rewrite users_update_first.
Qed.

(** X16. The methods keep one entry per user: on a document that lists no
    user twice, [addMember], [removeMember], [banMember], [approveMember]
    and the pre-save hook write a document that lists no user twice. *)
Theorem methods_keep_one_entry_per_user now g userId st reason :
  NoDup (users g) →
  NoDup (users (save now g))
  ∧ NoDup (users (addMember now userId st g))
  ∧ NoDup (users (removeMember now userId g))
  ∧ NoDup (users (banMember now userId reason g))
  ∧ NoDup (users (approveMember now userId g)).
Proof.
  intros Hg. split_and!.
  - by apply users_pre_save.
  - by apply users_addMember.
  - by apply users_removeMember.
  - by apply users_banMember.
  - by apply users_approveMember.
Qed.

(** With one entry per user, the three tests read the one entry. *)
Lemma standing_listed g userId m :
  NoDup (users g) →
  getMember g userId = Some m →
  isMember g userId = has_status active m
  ∧ hasPendingRequest g userId = has_status pending m
  ∧ isBanned g userId = has_status banned m.
Proof.
  intros Hg Hm. split_and!.
  - by apply existsb_unique.
  - by apply existsb_unique.
  - unfold isBanned. unfold getMember in Hm. by rewrite Hm.
Qed.

(** A user without an entry is nothing in the group. *)
Lemma standing_unlisted now g userId :
  getMember g userId = None →
  isMember g userId = false ∧ hasPendingRequest g userId = false
  ∧ isBanned g userId = false ∧ isInCooldownPeriod now g userId = false.
Proof.
  unfold getMember. intros Hnone.
  assert (Hno : ∀ q, existsb (fun x => is_user userId x && q x) (members g)
                     = false).
  { intros q. apply not_true_is_false.
    intros (x & Hin & [Hu _]%andb_prop)%existsb_exists.
    by rewrite (List.find_none _ _ Hnone x Hin) in Hu. }
  split_and!; [apply Hno|apply Hno|unfold isBanned; by rewrite Hnone|].
  unfold isInCooldownPeriod.
  destruct (List.find (fun member => is_user userId member && _) (members g))
    as [x|] eqn:Hfind; [|done].
  apply List.find_some in Hfind as [Hin [Hu _]%andb_prop].
  by rewrite (List.find_none _ _ Hnone x Hin) in Hu.
Qed.

(** X17. On a document that lists no user twice, a user has one standing:
    a listed user is exactly one of active member, pending and banned,
    as the one entry says; a user who is not listed is none of them and
    is in no cooldown. *)
Theorem one_standing_per_user now g userId :
  NoDup (users g) →
  (∀ m, getMember g userId = Some m →
        isMember g userId = has_status active m
        ∧ hasPendingRequest g userId = has_status pending m
        ∧ isBanned g userId = has_status banned m
        ∧ (isMember g userId = true ∧ hasPendingRequest g userId = false
             ∧ isBanned g userId = false
           ∨ isMember g userId = false ∧ hasPendingRequest g userId = true
             ∧ isBanned g userId = false
           ∨ isMember g userId = false ∧ hasPendingRequest g userId = false
             ∧ isBanned g userId = true))
  ∧ (getMember g userId = None →
       isMember g userId = false ∧ hasPendingRequest g userId = false
       ∧ isBanned g userId = false
       ∧ isInCooldownPeriod now g userId = false).
Proof.
  intros Hg. split.
  - intros m Hm.
    destruct (standing_listed g userId m Hg Hm) as (H1 & H2 & H3).
    split_and!; [done..|]. rewrite H1, H2, H3. unfold has_status.
    destruct (status m); cbn; auto.
  - apply standing_unlisted.
Qed.

Lemma find_app_None (p : MemberDoc → bool) l l' :
  List.find p l = None → List.find p (l ++ l') = List.find p l'.
Proof.
  induction l as [|x l IH]; [done|]. cbn. destruct (p x); [done|]. apply IH.
Qed.

Lemma find_app_Some (p : MemberDoc → bool) l l' m :
  List.find p l = Some m → List.find p (l ++ l') = Some m.
Proof.
  induction l as [|x l IH]; [done|]. cbn. destruct (p x); [done|]. apply IH.
Qed.

Lemma find_app_other (p : MemberDoc → bool) l m :
  p m = false → List.find p (l ++ [m]) = List.find p l.
Proof.
  intros Hm. induction l as [|x l IH]; cbn; [by rewrite Hm|].
  by destruct (p x).
Qed.

Lemma is_user_other userId v m :
  v ≠ userId → is_user userId m = true → is_user v m = false.
Proof.
  intros Hv Hm%bool_decide_eq_true. apply bool_decide_eq_false. congruence.
Qed.

Lemma isMember_getMember g userId m :
  getMember g userId = Some m → status m = active → isMember g userId = true.
Proof.
  intros Hm Hactive. apply existsb_exists. exists m.
  apply List.find_some in Hm as [Hin Hu]. split; [done|].
  rewrite Hu. unfold has_status. by rewrite Hactive.
Qed.

(** X18. [addMember] for a user other than the owner: the user's entry
    in the written document has the given status and the time of the call
    as [joinedAt], whether the user was listed before or not; for the
    status [banned] it also has the time of the call as [lastBannedAt], and
    for [active] the user is a member, whatever the entry said before.  The
    entries of the other users are as they were. *)
Theorem addMember_entry now g userId st :
  userId ≠ owner g →
  let g' := addMember now userId st g in
  (∃ m, getMember g' userId = Some m
        ∧ user m = userId ∧ status m = st ∧ joinedAt m = now
        ∧ (st = banned → lastBannedAt m = Some now))
  ∧ (st = active → isMember g' userId = true)
  ∧ (∀ v, v ≠ userId → v ≠ owner g → getMember g' v = getMember g v).
Proof.
  intros Howner g'.
  assert (Hentry : ∃ m, getMember g' userId = Some m
            ∧ user m = userId ∧ status m = st ∧ joinedAt m = now
            ∧ (st = banned → lastBannedAt m = Some now)).
  { unfold g', addMember, save.
    destruct (List.find (is_user userId) (members g)) as [m|] eqn:Hfind.
    - rewrite getMember_pre_save by done. unfold getMember. cbn.
      eexists. split; [apply find_update_first_same; [by intros ? ?|done]|].
      cbn. apply find_is_user_Some in Hfind as [Hu _].
      split_and!; [done..|]. intros ->. by rewrite bool_decide_eq_true_2.
    - rewrite getMember_pre_save by done. unfold getMember. cbn.
      eexists. split.
      + rewrite find_app_None by done. cbn. unfold is_user at 1. cbn.
        by rewrite bool_decide_eq_true_2.
      + cbn. split_and!; [done..|]. intros ->. by rewrite bool_decide_eq_true_2. }
  split_and!; [done| |].
  - intros ->. destruct Hentry as (m & Hm & _ & Hactive & _).
    by apply (isMember_getMember _ _ m).
  - intros v Hv Hvo. unfold g', addMember, save.
    destruct (List.find (is_user userId) (members g)) as [m|] eqn:Hfind.
    + rewrite getMember_pre_save by done. unfold getMember. cbn.
      apply find_update_first_other. intros x Hx. unfold is_user at 2. cbn.
      split; [by apply (is_user_other userId)|].
      apply bool_decide_eq_true in Hx. apply bool_decide_eq_false. congruence.
    + rewrite getMember_pre_save by done. unfold getMember. cbn.
      apply find_app_other. unfold is_user. cbn.
      apply bool_decide_eq_false. congruence.
Qed.

(** X19. [banMember] for a listed user other than the owner: the user is
    banned in the written document, with the time of the call as
    [lastBannedAt] and the given reason, and is in the cooldown period
    exactly until [cooldownPeriod] hours after the call; on a document
    that lists no user twice the user is no member any more.  For a user
    who is not listed the method writes what a plain [save] writes: no
    entry is made, so the ban leaves no trace. *)
Theorem banMember_bans now g userId reason :
  userId ≠ owner g →
  let g' := banMember now userId reason g in
  (userId ∈ users g →
     isBanned g' userId = true
     ∧ (∃ m, getMember g' userId = Some m
             ∧ lastBannedAt m = Some now ∧ banReason m = Some reason)
     ∧ (∀ t, isInCooldownPeriod t g' userId = true
             ↔ (t < now + cooldownPeriod g * 3600000)%Z)
     ∧ (NoDup (users g) →
          isMember g' userId = false ∧ hasPendingRequest g' userId = false))
  ∧ (userId ∉ users g → g' = save now g).
Proof.
  intros Howner g'. split.
  - intros Hin.
    destruct (List.find (is_user userId) (members g)) as [m|] eqn:Hfind;
      [|by apply find_is_user_None in Hfind].
    pose (b := {| user := user m; status := banned; joinedAt := joinedAt m;
                  lastBannedAt := Some now; banReason := Some reason |}).
    assert (Hb : getMember g' userId = Some b).
    { unfold g', banMember, save. rewrite getMember_pre_save by done.
      unfold getMember. cbn.
      by rewrite (find_update_first_same _ _ _ m) by (done || by intros ? ?). }
    assert (Hcool : cooldownPeriod g' = cooldownPeriod g).
    { unfold g', banMember, save. by rewrite cooldownPeriod_pre_save. }
    split_and!.
    + unfold isBanned. unfold getMember in Hb. by rewrite Hb.
    + by exists b.
    + intros t. unfold isInCooldownPeriod.
      assert (List.find (fun member => is_user userId member
                                       && has_status banned member)
                        (members g') = Some b) as ->.
      { unfold getMember in Hb. revert Hb.
        induction (members g') as [|x l IH]; [done|]. cbn.
        destruct (is_user userId x) eqn:Hx.
        - intros [= ->]. done.
        - cbn. apply IH. }
      cbn. rewrite Hcool, Z.ltb_lt. lia.
    + intros Hg.
      assert (Hg' : NoDup (users g')) by by apply users_banMember.
      destruct (standing_listed g' userId b Hg' Hb) as (-> & -> & _). done.
  - intros Hin%find_is_user_None. unfold g', banMember.
    rewrite update_first_none by done. by destruct g.
Qed.

End GroupEntries.

Section GroupEntries2.

Import GroupDocument.

Implicit Types (g : GroupDoc) (l : list MemberDoc) (m : MemberDoc)
  (userId v : string) (now : Z).

Lemma find_update_first_sub (p p' : MemberDoc → bool) f l m :
  (∀ x, p' x = true → p x = true) →
  p' m = true → p (f m) = true →
  List.find p l = Some m →
  List.find p (update_first p' f l) = Some (f m).
Proof.
  intros Hsub Hm Hfm. induction l as [|x l IH]; [done|]. cbn.
  destruct (p x) eqn:Hx.
  - intros [= ->]. rewrite Hm. cbn. by rewrite Hfm.
  - intros Hfind. destruct (p' x) eqn:Hx'.
    + apply Hsub in Hx'. congruence.
    + cbn. rewrite Hx. by apply IH.
Qed.

Lemma find_filter_other (p q : MemberDoc → bool) l :
  (∀ x, p x = true → q x = true) →
  List.find p (List.filter q l) = List.find p l.
Proof.
  intros Hpq. induction l as [|x l IH]; [done|]. cbn.
  destruct (q x) eqn:Hq; cbn.
  - by rewrite IH.
  - destruct (p x) eqn:Hp; [|done]. apply Hpq in Hp. congruence.
Qed.

Lemma find_filter_negb (p : MemberDoc → bool) l :
  List.find p (List.filter (fun x => negb (p x)) l) = None.
Proof.
  induction l as [|x l IH]; [done|]. cbn.
  destruct (p x) eqn:Hp; cbn; [done|]. by rewrite Hp.
Qed.

(** X20. [approveMember] on a document that lists no user twice, for a
    user other than the owner: a pending user becomes an active member
    with the time of the call as [joinedAt]; for a user without a pending
    entry (active, banned or not listed) the method writes what a plain
    [save] writes, so a banned user is not let in by an approval. *)
Theorem approveMember_approves now g userId :
  NoDup (users g) →
  userId ≠ owner g →
  let g' := approveMember now userId g in
  (hasPendingRequest g userId = true →
     isMember g' userId = true
     ∧ hasPendingRequest g' userId = false
     ∧ ∃ m, getMember g' userId = Some m ∧ joinedAt m = now)
  ∧ (hasPendingRequest g userId = false → g' = save now g).
Proof.
  intros Hg Howner g'.
  pose (f := fun m => {| user := user m; status := active; joinedAt := now;
                         lastBannedAt := lastBannedAt m;
                         banReason := banReason m |}).
  split.
  - intros (m & Hin & [Hu Hp]%andb_prop)%existsb_exists.
    assert (Hm : getMember g userId = Some m).
    { unfold getMember.
      destruct (List.find (is_user userId) (members g)) as [x|] eqn:Hfind.
      - f_equal. symmetry.
        apply (unique_entry userId (members g) x m Hg Hfind);
          [by apply list_elem_of_In|by apply bool_decide_eq_true in Hu].
      - by rewrite (List.find_none _ _ Hfind m Hin) in Hu. }
    assert (Hm' : getMember g' userId = Some (f m)).
    { unfold g', approveMember, save. rewrite getMember_pre_save by done.
      unfold getMember. cbn. fold f.
      apply find_update_first_sub; [|by rewrite Hu, Hp|done|done].
      by intros x [? _]%andb_prop. }
    assert (Hg' : NoDup (users g')) by by apply users_approveMember.
    destruct (standing_listed g' userId (f m) Hg' Hm') as (-> & -> & _).
    split_and!; [done|done|]. by exists (f m).
  - intros Hno. unfold g', approveMember.
    rewrite update_first_none; [by destruct g|].
    destruct (List.find _ (members g)) as [x|] eqn:Hfind; [|done].
    apply List.find_some in Hfind as [Hin Hx].
    assert (hasPendingRequest g userId = true); [|congruence].
    apply existsb_exists. by exists x.
Qed.

Lemma getMember_removeMember now g userId :
  userId ≠ owner g → getMember (removeMember now userId g) userId = None.
Proof.
  intros Howner. unfold removeMember, save.
  rewrite getMember_pre_save by done. unfold getMember. cbn.
  apply find_filter_negb.
Qed.

(** X21. [removeMember] for a user other than the owner: the written
    document has no entry of the user, whatever the entries said and
    however many there were, so the user is no member, has no pending
    request, is not banned and is in no cooldown; the entries of the other
    users are as they were. *)
Theorem removeMember_removes now g userId :
  userId ≠ owner g →
  let g' := removeMember now userId g in
  (userId ∉ users g')
  ∧ isMember g' userId = false
  ∧ hasPendingRequest g' userId = false
  ∧ isBanned g' userId = false
  ∧ (∀ t, isInCooldownPeriod t g' userId = false)
  ∧ (∀ v, v ≠ userId → v ≠ owner g → getMember g' v = getMember g v).
Proof.
  intros Howner g'.
  assert (Hnone : getMember g' userId = None)
    by by apply getMember_removeMember.
  split_and!.
  - by apply find_is_user_None.
  - by apply (standing_unlisted now).
  - by apply (standing_unlisted now).
  - by apply (standing_unlisted now).
  - intros t. by apply standing_unlisted.
  - intros v Hv Hvo. unfold g', removeMember, save.
    rewrite getMember_pre_save by done. unfold getMember. cbn.
    apply find_filter_other. intros x Hx.
    apply negb_true_iff, bool_decide_eq_false.
    apply bool_decide_eq_true in Hx. congruence.
Qed.

(** X22. The counters after [addMember] of a user who is not listed, on a
    document that lists no user twice and has its owner as an active
    member: one entry more; [memberCount] grows by one for the status
    [active] and not at all for [pending] and [banned];
    [pendingMemberCount] grows by one for [pending] only. *)
Theorem addMember_counts now g userId st :
  NoDup (users g) →
  isMember g (owner g) = true →
  userId ∉ users g →
  let g' := addMember now userId st g in
  length (members g') = S (length (members g))
  ∧ memberCount g' = memberCount g + (if bool_decide (st = active) then 1 else 0)
  ∧ pendingMemberCount g'
    = pendingMemberCount g + (if bool_decide (st = pending) then 1 else 0).
Proof.
  intros Hg Howner Hnew g'.
  pose (new := {| user := userId; status := st; joinedAt := now;
                  lastBannedAt := if bool_decide (st = banned) then Some now
                                  else None;
                  banReason := None |}).
  assert (Hg' : g' = set_members g (members g ++ [new])).
  { unfold g', addMember, save.
    apply find_is_user_None in Hnew. rewrite Hnew.
    destruct (List.find (is_user (owner g)) (members g)) as [m|] eqn:Hfind.
    - destruct (standing_listed g (owner g) m Hg Hfind) as (Hactive & _).
      rewrite Howner in Hactive.
      unfold pre_save. cbn [owner members set_members]. fold new.
      rewrite (find_app_Some _ _ _ m Hfind). by rewrite <- Hactive.
    - destruct (standing_unlisted now g (owner g) Hfind) as (Hno & _).
      congruence. }
  rewrite Hg'. unfold memberCount, pendingMemberCount. cbn [members set_members].
  rewrite !List.filter_app, !length_app.
  split_and!; [cbn; lia| |].
  - cbn [List.filter]. unfold has_status at 2. cbn [status new].
    case_bool_decide; cbn; lia.
  - cbn [List.filter]. unfold has_status at 2. cbn [status new].
    case_bool_decide; cbn; lia.
Qed.

Lemma isMember_addMember_active now g userId :
  isMember (addMember now userId active g) userId = true.
Proof.
  destruct (decide (userId = owner g)) as [->|Howner].
  - unfold addMember.
    destruct (List.find (is_user (owner g)) (members g));
      apply (isMember_pre_save_owner now (set_members g _)).
  - destruct (getMember (addMember now userId active g) userId) as [m|] eqn:Hm.
    + apply (isMember_getMember _ _ m Hm). revert Hm.
      unfold addMember, save. rewrite getMember_pre_save
        by by destruct (List.find (is_user userId) (members g)).
      unfold getMember.
      destruct (List.find (is_user userId) (members g)) as [x|] eqn:Hfind;
        cbn [members set_members].
      * rewrite (find_update_first_same _ _ _ x) by (done || by intros ? ?).
        by intros [= <-].
      * rewrite find_app_None by done. cbn. unfold is_user at 1. cbn.
        rewrite bool_decide_eq_true_2 by done. by intros [= <-].
    + exfalso. revert Hm. unfold addMember, save. rewrite getMember_pre_save
        by by destruct (List.find (is_user userId) (members g)).
      unfold getMember.
      destruct (List.find (is_user userId) (members g)) as [x|] eqn:Hfind;
        cbn [members set_members].
      * by rewrite (find_update_first_same _ _ _ x) by (done || by intros ? ?).
      * rewrite find_app_None by done. cbn. unfold is_user at 1. cbn.
        by rewrite bool_decide_eq_true_2.
Qed.

End GroupEntries2.

(** * The services that change documents *)

Section DocumentServices.

Import GroupDocument DocumentStore GroupMembers MessageDeletion.

Variable s : Store.
Implicit Types (g group d : GroupDoc) (userId groupId requesterId : string).

Lemma group_save_run g :
  group_save s g
  = match Group_save s g with
    | None => {| result := Return (save (now s) g);
                 writes := [Group_saved (save (now s) g)] |}
    | Some error => raise error
    end.
Proof. unfold group_save. by destruct (Group_save s g). Qed.

(** The cases of [removeMember], in the order of its checks. *)
Lemma removeMember_run userId groupId requesterId :
  removeMember s userId groupId requesterId
  = match Group_findById s groupId with
    | Return None => raise (new_NotFoundError "Group not found" "GROUP_NOT_FOUND")
    | Return (Some group) =>
        if negb (bool_decide (owner group = requesterId))
           && negb (bool_decide (userId = requesterId)) then
          raise (new_AuthorizationError
                   "You do not have permission to remove this member"
                   "REMOVE_MEMBER_UNAUTHORIZED")
        else if bool_decide (userId = owner group)
                && (1 <? length (members group))%nat then
          raise (new_ValidationError
                   "Group owner cannot leave while other members exist. Transfer ownership first."
                   (VStr "OWNER_CANNOT_LEAVE"))
        else if negb (existsb (is_user userId) (members group)) then
          raise (new_NotFoundError "User is not a member of this group"
                                   "NOT_A_MEMBER")
        else
          match Group_save s
                  (set_members group
                     (List.filter (fun member => negb (is_user userId member))
                                  (members group))) with
          | None =>
              {| result := Return (GroupDocument.removeMember (now s) userId group);
                 writes := [Group_saved
                              (GroupDocument.removeMember (now s) userId group)] |}
          | Some error =>
              if instanceof error NotFoundError
                 || instanceof error ValidationError
                 || instanceof error AuthorizationError
              then raise error
              else raise (new_InternalError "Group service error")
          end
    | Throw error =>
        if instanceof error NotFoundError
           || instanceof error ValidationError
           || instanceof error AuthorizationError
        then raise error
        else raise (new_InternalError "Group service error")
    end.
Proof.
  unfold removeMember, mbind, Run_bind, and_then, awaited. cbn [result writes].
  destruct (Group_findById s groupId) as [[group|]|error]; [|done|].
  - cbv zeta.
    destruct (negb _ && negb _); [done|].
    destruct (bool_decide (userId = owner group) && _); [done|].
    destruct (negb (existsb _ _)); [done|].
    rewrite group_save_run.
    destruct (Group_save s _) as [error|]; [|done].
    unfold catch. cbn.
    by destruct (instanceof error NotFoundError || _ || _).
  - unfold catch. cbn.
    by destruct (instanceof error NotFoundError || _ || _).
Qed.


Lemma addMember_run userId groupId :
  addMember s userId groupId
  = let rethrow error :=
      if instanceof error NotFoundError
         || instanceof error ValidationError
         || instanceof error ConflictError
      then raise error
      else raise (new_InternalError "Group service error") in
    match User_findById s userId with
    | Return None => raise (new_NotFoundError "User not found" "USER_NOT_FOUND")
    | Return (Some _) =>
        match Group_findById s groupId with
        | Return None =>
            raise (new_NotFoundError "Group not found" "GROUP_NOT_FOUND")
        | Return (Some group) =>
            if existsb (is_user userId) (members group) then
              raise (new_ConflictError "User is already a member of this group"
                                       "ALREADY_MEMBER")
            else if negb (memberLimit group =? 0)%Z
                    && (memberLimit group
                        <=? Z.of_nat (length (members group)))%Z then
              raise (new_ValidationError
                       "Group has reached maximum member capacity"
                       (VStr "GROUP_FULL"))
            else
              match Group_save s
                      (set_members group
                         (members group ++
                          [{| user := userId; status := active;
                              joinedAt := now s;
                              lastBannedAt := None; banReason := None |}])) with
              | None =>
                  {| result := Return (GroupDocument.addMember (now s) userId
                                         active group);
                     writes := [Group_saved
                                  (GroupDocument.addMember (now s) userId
                                     active group)] |}
              | Some error => rethrow error
              end
        | Throw error => rethrow error
        end
    | Throw error => rethrow error
    end.
Proof.
  unfold addMember, mbind, Run_bind, and_then, awaited. cbn [result writes].
  cbv zeta.
  destruct (User_findById s userId) as [[user|]|error]; [|done|].
  - cbn [result writes].
    destruct (Group_findById s groupId) as [[group|]|error]; [|done|].
    + cbn [result writes].
      destruct (existsb (is_user userId) (members group)) eqn:Hlisted; [done|].
      destruct (negb _ && _); [done|].
      rewrite group_save_run.
      destruct (Group_save s _) as [error|].
      * unfold catch. cbn.
        by destruct (instanceof error NotFoundError || _ || _).
      * unfold GroupDocument.addMember.
        assert (List.find (is_user userId) (members group) = None) as ->; [|done].
        destruct (List.find _ _) as [x|] eqn:Hfind; [|done].
        apply List.find_some in Hfind as [Hin Hx].
        assert (existsb (is_user userId) (members group) = true); [|congruence].
        apply existsb_exists. by exists x.
    + unfold catch. cbn.
      by destruct (instanceof error NotFoundError || _ || _).
  - unfold catch. cbn.
    by destruct (instanceof error NotFoundError || _ || _).
Qed.

Lemma transferOwnership_run currentOwnerId newOwnerId groupId :
  transferOwnership s currentOwnerId newOwnerId groupId
  = let rethrow error :=
      if instanceof error NotFoundError
         || instanceof error ValidationError
         || instanceof error AuthorizationError
      then raise error
      else raise (new_InternalError "Group service error") in
    match Group_findById s groupId with
    | Return None => raise (new_NotFoundError "Group not found" "GROUP_NOT_FOUND")
    | Return (Some group) =>
        if negb (bool_decide (owner group = currentOwnerId)) then
          raise (new_AuthorizationError
                   "Only the current owner can transfer ownership"
                   "NOT_GROUP_OWNER")
        else if negb (isMember group newOwnerId) then
          raise (new_ValidationError
                   "New owner must be a current active member of the group"
                   (VStr "NEW_OWNER_NOT_MEMBER"))
        else
          match Group_save s (set_owner group newOwnerId) with
          | None =>
              {| result := Return (save (now s) (set_owner group newOwnerId));
                 writes := [Group_saved
                              (save (now s) (set_owner group newOwnerId))] |}
          | Some error => rethrow error
          end
    | Throw error => rethrow error
    end.
Proof.
  unfold transferOwnership, mbind, Run_bind, and_then, awaited.
  cbn [result writes]. cbv zeta.
  destruct (Group_findById s groupId) as [[group|]|error]; [|done|].
  - destruct (negb (bool_decide _)); [done|].
    fold (isMember group newOwnerId).
    destruct (negb (isMember group newOwnerId)); [done|].
    rewrite group_save_run.
    destruct (Group_save s _) as [error|]; [|done].
    unfold catch. cbn.
    by destruct (instanceof error NotFoundError || _ || _).
  - unfold catch. cbn.
    by destruct (instanceof error NotFoundError || _ || _).
Qed.

Lemma deleteGroup_run userId groupId :
  deleteGroup s userId groupId
  = let rethrow error :=
      if instanceof error NotFoundError
         || instanceof error AuthorizationError
         || instanceof error ValidationError
      then raise error
      else raise (new_InternalError "Group service error") in
    match Group_findById s groupId with
    | Return None => raise (new_NotFoundError "Group not found" "GROUP_NOT_FOUND")
    | Return (Some group) =>
        if negb (bool_decide (owner group = userId)) then
          raise (new_AuthorizationError
                   "Only the group owner can delete the group"
                   "NOT_GROUP_OWNER")
        else if (1 <? length (members group))%nat then
          raise (new_ValidationError
                   "Group still has members and cannot be deleted"
                   (VStr "GROUP_HAS_MEMBERS"))
        else
          match Group_findByIdAndDelete s groupId with
          | None =>
              {| result := Return {| confirmed := true;
                                     confirmation := "Group deleted successfully" |};
                 writes := [Group_deleted groupId] |}
          | Some error => rethrow error
          end
    | Throw error => rethrow error
    end.
Proof.
  unfold deleteGroup, mbind, Run_bind, and_then, awaited, write.
  cbn [result writes]. cbv zeta.
  destruct (Group_findById s groupId) as [[group|]|error]; [|done|].
  - destruct (negb (bool_decide _)); [done|].
    destruct (1 <? _)%nat; [done|].
    destruct (Group_findByIdAndDelete s groupId) as [error|]; [|done].
    unfold catch. cbn.
    by destruct (instanceof error NotFoundError || _ || _).
  - unfold catch. cbn.
    by destruct (instanceof error NotFoundError || _ || _).
Qed.

(** The [catch] of the group service lets the errors of the service
    through and makes an [InternalError] of any other. *)
Lemma rethrow_failure {A} (error : ErrorObj) (known : bool) e :
  (known = true → group_service_failure error) →
  result (if known then raise error
          else @raise A (new_InternalError "Group service error")) = Throw e →
  group_service_failure e.
Proof.
  intros Hknown. destruct known; intros [= <-].
  - by apply Hknown.
  - unfold group_service_failure. by do 4 right.
Qed.

Lemma rethrow_writes {A} (error : ErrorObj) (known : bool) :
  writes (if known then raise error
          else @raise A (new_InternalError "Group service error")) = [].
Proof. by destruct known. Qed.

(** When [removeMember] wrote. *)
Lemma removeMember_written userId groupId requesterId d :
  Group_saved d ∈ writes (removeMember s userId groupId requesterId) →
  ∃ group,
    Group_findById s groupId = Return (Some group)
    ∧ (owner group = requesterId ∨ userId = requesterId)
    ∧ userId ∈ users group
    ∧ (userId = owner group → length (members group) = 1)
    ∧ d = GroupDocument.removeMember (now s) userId group
    ∧ removeMember s userId groupId requesterId
      = {| result := Return d; writes := [Group_saved d] |}.
Proof.
  rewrite removeMember_run.
  destruct (Group_findById s groupId) as [[group|]|error];
    [|by intros ?%elem_of_nil|by rewrite rethrow_writes; intros ?%elem_of_nil].
  destruct (negb (bool_decide (owner group = requesterId))
            && negb (bool_decide (userId = requesterId))) eqn:Hrequester;
    [by intros ?%elem_of_nil|].
  destruct (bool_decide (userId = owner group)
            && (1 <? length (members group))%nat) eqn:Hleave;
    [by intros ?%elem_of_nil|].
  destruct (existsb (is_user userId) (members group)) eqn:Hlisted;
    [|by intros ?%elem_of_nil].
  cbn [negb].
  destruct (Group_save s _) as [error|];
    [by rewrite rethrow_writes; intros ?%elem_of_nil|].
  intros [= ->]%list_elem_of_singleton.
  exists group. split_and!; [done| | | |done|done].
  - apply andb_false_iff in Hrequester as [H|H]; apply negb_false_iff in H;
      apply bool_decide_eq_true in H; auto.
  - apply existsb_exists in Hlisted as (x & Hin & Hx%bool_decide_eq_true).
    rewrite <- Hx. by apply list_elem_of_In, List.in_map.
  - intros ->. rewrite bool_decide_eq_true_2 in Hleave by done.
    cbn [andb] in Hleave.
    by destruct (members group) as [|y [|z l]].
Qed.

(** X23. [removeMember] of the group service writes at most once, and
    only when the store has the group, the requester is the owner of the
    group or the user to be removed, and the user is listed.  It writes
    what the method [removeMember] of the document writes, and returns it.
    For a user other than the owner the written document has no entry of
    the user.  The owner passes the checks only as the single entry of the
    group, and then the written document lists the owner again: the owner
    does not leave. *)
Theorem service_removeMember_writes userId groupId requesterId d :
  Group_saved d ∈ writes (removeMember s userId groupId requesterId) →
  ∃ group,
    Group_findById s groupId = Return (Some group)
    ∧ (owner group = requesterId ∨ userId = requesterId)
    ∧ userId ∈ users group
    ∧ d = GroupDocument.removeMember (now s) userId group
    ∧ removeMember s userId groupId requesterId
      = {| result := Return d; writes := [Group_saved d] |}
    ∧ isMember d (owner group) = true
    ∧ (userId ≠ owner group → userId ∉ users d)
    ∧ (userId = owner group →
         length (members group) = 1 ∧ users d = [owner group]).
Proof.
  intros (group & Hfind & Hrequester & Hlisted & Hsingle & -> & Hrun)
    %removeMember_written.
  exists group. split_and!; [done..| | |].
  - apply (isMember_pre_save_owner (now s) (set_members group _)).
  - intros Howner. apply find_is_user_None.
    by apply getMember_removeMember.
  - intros ->. split; [by apply Hsingle|].
    specialize (Hsingle eq_refl).
    destruct (members group) as [|y [|z l]] eqn:Hmembers; [done| |done].
    unfold users in Hlisted. rewrite Hmembers in Hlisted.
    apply list_elem_of_singleton in Hlisted.
    unfold GroupDocument.removeMember, save, pre_save, users.
    cbn [owner members set_members]. rewrite Hmembers. cbn.
    unfold is_user. by rewrite bool_decide_eq_true_2.
Qed.

(** When [addMember] wrote. *)
Lemma addMember_written userId groupId d :
  Group_saved d ∈ writes (addMember s userId groupId) →
  ∃ u group,
    User_findById s userId = Return (Some u)
    ∧ Group_findById s groupId = Return (Some group)
    ∧ (userId ∉ users group)
    ∧ (memberLimit group = 0
       ∨ Z.of_nat (length (members group)) < memberLimit group)%Z
    ∧ d = GroupDocument.addMember (now s) userId active group
    ∧ addMember s userId groupId
      = {| result := Return d; writes := [Group_saved d] |}.
Proof.
  rewrite addMember_run. cbv zeta.
  destruct (User_findById s userId) as [[u|]|error];
    [|by intros ?%elem_of_nil|by rewrite rethrow_writes; intros ?%elem_of_nil].
  destruct (Group_findById s groupId) as [[group|]|error];
    [|by intros ?%elem_of_nil|by rewrite rethrow_writes; intros ?%elem_of_nil].
  destruct (existsb (is_user userId) (members group)) eqn:Hlisted;
    [by intros ?%elem_of_nil|].
  destruct (negb (memberLimit group =? 0)%Z && _) eqn:Hfull;
    [by intros ?%elem_of_nil|].
  destruct (Group_save s _) as [error|];
    [by rewrite rethrow_writes; intros ?%elem_of_nil|].
  intros [= ->]%list_elem_of_singleton.
  exists u, group. split_and!; [done|done| | |done|done].
  - apply find_is_user_None.
    destruct (List.find _ _) as [x|] eqn:Hfind; [|done].
    apply List.find_some in Hfind as [Hin Hx].
    assert (existsb (is_user userId) (members group) = true); [|congruence].
    apply existsb_exists. by exists x.
  - apply andb_false_iff in Hfull as [H%negb_false_iff%Z.eqb_eq|H%Z.leb_gt];
      [by left|by right].
Qed.

(** X24. [addMember] of the group service writes at most once, and only
    when the store has the user and the group, the user has no entry in
    the group, whatever its status, and the group has fewer entries than
    its [memberLimit] or the limit is 0.  It writes what the method
    [addMember] of the document writes for the status [active], and
    returns it: the user is an active member with the time of the call as
    [joinedAt]. *)
Theorem service_addMember_writes userId groupId d :
  Group_saved d ∈ writes (addMember s userId groupId) →
  ∃ u group,
    User_findById s userId = Return (Some u)
    ∧ Group_findById s groupId = Return (Some group)
    ∧ (userId ∉ users group)
    ∧ (memberLimit group = 0
       ∨ Z.of_nat (length (members group)) < memberLimit group)%Z
    ∧ d = GroupDocument.addMember (now s) userId active group
    ∧ addMember s userId groupId
      = {| result := Return d; writes := [Group_saved d] |}
    ∧ isMember d userId = true
    ∧ ∃ m, getMember d userId = Some m ∧ joinedAt m = now s.
Proof.
  intros (u & group & Hu & Hfind & Hnew & Hlimit & -> & Hrun)%addMember_written.
  exists u, group. split_and!; [done..|apply isMember_addMember_active|].
  apply find_is_user_None in Hnew.
  pose (new := {| user := userId; status := active; joinedAt := now s;
                  lastBannedAt := None; banReason := None |}).
  exists new. split; [|done].
  unfold GroupDocument.addMember, save. rewrite Hnew. fold new.
  assert (Hlast : List.find (is_user userId) (members group ++ [new]) = Some new).
  { rewrite find_app_None by done. cbn. unfold is_user at 1. cbn.
    by rewrite bool_decide_eq_true_2. }
  destruct (decide (userId = owner group)) as [Howner|Howner].
  - rewrite (pre_save_id _ _ new); [done| |done].
    unfold getMember. cbn [owner members set_members]. by rewrite <- Howner.
  - by rewrite getMember_pre_save.
Qed.

(** X25. [transferOwnership] writes at most once, and only when the store
    has the group, the requester is its owner and the new owner is an
    active member.  The written document has the new owner as owner and as
    an active member; the entries of all other users, the former owner
    among them, are as they were, and on a document that lists no user
    twice the list of members is untouched. *)
Theorem service_transferOwnership_writes currentOwnerId newOwnerId groupId d :
  Group_saved d ∈ writes (transferOwnership s currentOwnerId newOwnerId groupId) →
  ∃ group,
    Group_findById s groupId = Return (Some group)
    ∧ owner group = currentOwnerId
    ∧ isMember group newOwnerId = true
    ∧ transferOwnership s currentOwnerId newOwnerId groupId
      = {| result := Return d; writes := [Group_saved d] |}
    ∧ owner d = newOwnerId
    ∧ isMember d newOwnerId = true
    ∧ (∀ v, v ≠ newOwnerId → getMember d v = getMember group v)
    ∧ (NoDup (users group) → members d = members group).
Proof.
  rewrite transferOwnership_run. cbv zeta.
  destruct (Group_findById s groupId) as [[group|]|error];
    [|by intros ?%elem_of_nil|by rewrite rethrow_writes; intros ?%elem_of_nil].
  destruct (bool_decide (owner group = currentOwnerId)) eqn:Howner; cbn [negb];
    [|by intros ?%elem_of_nil].
  destruct (isMember group newOwnerId) eqn:Hmember; cbn [negb];
    [|by intros ?%elem_of_nil].
  destruct (Group_save s _) as [error|];
    [by rewrite rethrow_writes; intros ?%elem_of_nil|].
  intros [= ->]%list_elem_of_singleton.
  exists group. split_and!; [done|by apply bool_decide_eq_true in Howner|done|done| | | |].
  - apply (owner_pre_save (now s) (set_owner group newOwnerId)).
  - apply (isMember_pre_save_owner (now s) (set_owner group newOwnerId)).
  - intros v Hv. unfold save.
    by rewrite (getMember_pre_save (now s) (set_owner group newOwnerId) v).
  - intros Hg. unfold save, pre_save. cbn [owner members set_owner].
    destruct (List.find (is_user newOwnerId) (members group)) as [m|] eqn:Hfind.
    + destruct (standing_listed group newOwnerId m Hg Hfind) as (Hactive & _).
      rewrite Hmember in Hactive. by rewrite <- Hactive.
    + destruct (standing_unlisted 0 group newOwnerId Hfind) as (Hno & _).
      congruence.
Qed.

(** X26. [deleteGroup] never saves a document, and deletes at most one
    group: the one it was called for, and only when the store has it, the
    requester is its owner and it has at most one entry. *)
Theorem service_deleteGroup_deletes userId groupId w :
  w ∈ writes (deleteGroup s userId groupId) →
  w = Group_deleted groupId
  ∧ writes (deleteGroup s userId groupId) = [Group_deleted groupId]
  ∧ result (deleteGroup s userId groupId)
    = Return {| confirmed := true;
                confirmation := "Group deleted successfully" |}
  ∧ ∃ group,
      Group_findById s groupId = Return (Some group)
      ∧ owner group = userId
      ∧ length (members group) ≤ 1.
Proof.
  rewrite deleteGroup_run. cbv zeta.
  destruct (Group_findById s groupId) as [[group|]|error];
    [|by intros ?%elem_of_nil|by rewrite rethrow_writes; intros ?%elem_of_nil].
  destruct (bool_decide (owner group = userId)) eqn:Howner; cbn [negb];
    [|by intros ?%elem_of_nil].
  destruct (1 <? length (members group))%nat eqn:Hmembers;
    [by intros ?%elem_of_nil|].
  destruct (Group_findByIdAndDelete s groupId) as [error|];
    [by rewrite rethrow_writes; intros ?%elem_of_nil|].
  intros ->%list_elem_of_singleton. split_and!; [done..|].
  exists group. split_and!; [done|by apply bool_decide_eq_true in Howner|].
  by apply Nat.ltb_ge in Hmembers.
Qed.

(** X27. What the membership functions of the group service throw is a
    [NotFoundError], a [ValidationError], an [AuthorizationError], a
    [ConflictError], or the [InternalError] with the message
    ["Group service error"], whose code is [INTERNAL_SERVER_ERROR] and not
    the [DATABASE_ERROR] that the service passes; and when they throw,
    nothing was written. *)
Theorem group_service_throws userId groupId requesterId newOwnerId e :
  (result (deleteGroup s userId groupId) = Throw e →
     writes (deleteGroup s userId groupId) = [] ∧ group_service_failure e)
  ∧ (result (addMember s userId groupId) = Throw e →
     writes (addMember s userId groupId) = [] ∧ group_service_failure e)
  ∧ (result (removeMember s userId groupId requesterId) = Throw e →
     writes (removeMember s userId groupId requesterId) = []
     ∧ group_service_failure e)
  ∧ (result (transferOwnership s userId newOwnerId groupId) = Throw e →
     writes (transferOwnership s userId newOwnerId groupId) = []
     ∧ group_service_failure e)
  ∧ Errors.get (new_InternalError "Group service error") "errorCode"
    = Some (VStr "INTERNAL_SERVER_ERROR").
Proof.
  assert (H1 : ∀ msg code, group_service_failure (new_NotFoundError msg code))
    by (intros; by left).
  assert (H2 : ∀ msg errors, group_service_failure (new_ValidationError msg errors))
    by (intros; by right; left).
  assert (H3 : ∀ msg code, group_service_failure (new_AuthorizationError msg code))
    by (intros; by do 2 right; left).
  assert (H4 : ∀ msg code, group_service_failure (new_ConflictError msg code))
    by (intros; by do 3 right; left).
  assert (Hor : ∀ (error : ErrorObj) (a b c : ErrorClass),
            a ∈ [NotFoundError; ValidationError; AuthorizationError; ConflictError] →
            b ∈ [NotFoundError; ValidationError; AuthorizationError; ConflictError] →
            c ∈ [NotFoundError; ValidationError; AuthorizationError; ConflictError] →
            instanceof error a || instanceof error b || instanceof error c = true →
            group_service_failure error).
  { assert (Hone : ∀ (error : ErrorObj) (a : ErrorClass),
              a ∈ [NotFoundError; ValidationError; AuthorizationError; ConflictError] →
              instanceof error a = true → group_service_failure error).
    { intros error a Ha Hinst. unfold group_service_failure.
      repeat (apply elem_of_cons in Ha as [->|Ha]); auto 10.
      by apply elem_of_nil in Ha. }
    intros error a b c Ha Hb Hc [[H|H]%orb_prop|H]%orb_prop; eauto. }
  assert (Hin : ∀ a : ErrorClass,
            bool_decide (a ∈ [NotFoundError; ValidationError;
                              AuthorizationError; ConflictError]) = true →
            a ∈ [NotFoundError; ValidationError; AuthorizationError; ConflictError])
    by (intros a; apply bool_decide_eq_true_1).
  assert (Hraise : ∀ A (x : ErrorObj),
            group_service_failure x →
            result (@raise A x) = Throw e →
            writes (@raise A x) = [] ∧ group_service_failure e).
  { intros A x Hx [= <-]. by split. }
  assert (Hcatch : ∀ A (error : ErrorObj) (a b c : ErrorClass),
            bool_decide (a ∈ [NotFoundError; ValidationError;
                              AuthorizationError; ConflictError]) = true →
            bool_decide (b ∈ [NotFoundError; ValidationError;
                              AuthorizationError; ConflictError]) = true →
            bool_decide (c ∈ [NotFoundError; ValidationError;
                              AuthorizationError; ConflictError]) = true →
            let r := if instanceof error a || instanceof error b
                        || instanceof error c
                     then raise error
                     else @raise A (new_InternalError "Group service error") in
            result r = Throw e → writes r = [] ∧ group_service_failure e).
  { intros A error a b c Ha Hb Hc r He. split; [apply rethrow_writes|].
    eapply rethrow_failure; [|exact He]. apply Hor; by apply Hin. }
  split_and!; [| | | |done].
  - rewrite deleteGroup_run. cbv zeta.
    destruct (Group_findById s groupId) as [[group|]|error];
      [|by apply Hraise|by apply Hcatch].
    destruct (negb (bool_decide _)); [by apply Hraise|].
    destruct (1 <? _)%nat; [by apply Hraise|].
    destruct (Group_findByIdAndDelete s groupId) as [error|];
      [by apply Hcatch|done].
  - rewrite addMember_run. cbv zeta.
    destruct (User_findById s userId) as [[u|]|error];
      [|by apply Hraise|by apply Hcatch].
    destruct (Group_findById s groupId) as [[group|]|error];
      [|by apply Hraise|by apply Hcatch].
    destruct (existsb _ _); [by apply Hraise|].
    destruct (negb _ && _); [by apply Hraise|].
    destruct (Group_save s _) as [error|]; [by apply Hcatch|done].
  - rewrite removeMember_run.
    destruct (Group_findById s groupId) as [[group|]|error];
      [|by apply Hraise|by apply Hcatch].
    destruct (negb _ && negb _); [by apply Hraise|].
    destruct (bool_decide _ && _); [by apply Hraise|].
    destruct (negb (existsb _ _)); [by apply Hraise|].
    destruct (Group_save s _) as [error|]; [by apply Hcatch|done].
  - rewrite transferOwnership_run. cbv zeta.
    destruct (Group_findById s groupId) as [[group|]|error];
      [|by apply Hraise|by apply Hcatch].
    destruct (negb (bool_decide _)); [by apply Hraise|].
    destruct (negb (isMember _ _)); [by apply Hraise|].
    destruct (Group_save s _) as [error|]; [by apply Hcatch|done].
Qed.

End DocumentServices.

Section DeleteMessage.

Import GroupDocument DocumentStore MessageDeletion.

Variable s : Store.

(** The [catch] of [deleteMessage] writes nothing. *)
Lemma message_rethrow_writes {A} (error : ErrorObj) (known mongo : bool) e1 e2 :
  writes (if known then raise error
          else if mongo then @raise A e1 else raise e2) = [].
Proof. by destruct known, mongo. Qed.

Lemma deleteMessage_run userId messageId :
  deleteMessage s userId messageId
  = let rethrow error :=
      if instanceof error NotFoundError || instanceof error AuthorizationError
      then raise error
      else if String.eqb (Errors.name error) "MongoError"
              || String.eqb (Errors.name error) "MongooseError"
      then raise (new_InternalError ("Database error: " +:+ Errors.message error))
      else raise (new_InternalError
                    ("Message service error: " +:+ Errors.message error)) in
    match Message_findById s messageId with
    | Return None =>
        raise (new_NotFoundError "Message not found" "MESSAGE_NOT_FOUND")
    | Return (Some message) =>
        if bool_decide (MessageModel.sender message = userId) then
          match Message_findByIdAndDelete s messageId with
          | None =>
              {| result := Return {| confirmed := true;
                                     confirmation := "Message deleted successfully" |};
                 writes := [Message_deleted messageId] |}
          | Some error => rethrow error
          end
        else
          match Group_findById s (MessageModel.group message) with
          | Return None =>
              raise (new_AuthorizationError
                       "Only the message sender or group owner can delete a message"
                       "DELETE_UNAUTHORIZED")
          | Return (Some _) =>
              raise (new_InternalError
                       "Message service error: Cannot read properties of undefined (reading 'toString')")
          | Throw error => rethrow error
          end
    | Throw error => rethrow error
    end.
Proof.
  assert (Hcatch : ∀ error : ErrorObj,
    catch (raise error)
      (fun error =>
         if instanceof error NotFoundError || instanceof error AuthorizationError
         then raise error
         else if String.eqb (Errors.name error) "MongoError"
                 || String.eqb (Errors.name error) "MongooseError"
         then raise (new_InternalError ("Database error: " +:+ Errors.message error))
         else raise (new_InternalError
                       ("Message service error: " +:+ Errors.message error)))
    = if instanceof error NotFoundError || instanceof error AuthorizationError
      then @raise Confirmation error
      else if String.eqb (Errors.name error) "MongoError"
              || String.eqb (Errors.name error) "MongooseError"
      then raise (new_InternalError ("Database error: " +:+ Errors.message error))
      else raise (new_InternalError
                    ("Message service error: " +:+ Errors.message error))).
  { intros error. unfold catch. cbn [result writes raise app].
    destruct (instanceof error NotFoundError || _); [done|].
    by destruct (_ || _). }
  unfold deleteMessage, mbind, Run_bind, and_then, awaited, write.
  cbn [result writes]. cbv zeta.
  destruct (Message_findById s messageId) as [[message|]|error];
    [|done|apply Hcatch].
  cbn [result writes].
  destruct (bool_decide (MessageModel.sender message = userId));
    cbn [negb result writes pure mret Run_ret].
  - destruct (Message_findByIdAndDelete s messageId) as [error|]; [|done].
    apply Hcatch.
  - destruct (Group_findById s (MessageModel.group message))
      as [[group|]|error]; cbn [result writes raise app]; [done|done|].
    apply Hcatch.
Qed.

(** X28. [deleteMessage] deletes at most one message: the one it was
    called for, and only for its sender.  For anybody else nothing is
    deleted, the owner of the group included: when the store has the group
    of the message, the test of the owner reads [group.ownerId], which a
    group document does not have, and the call ends in an [InternalError];
    when the store has no such group it ends in the [AuthorizationError]
    [DELETE_UNAUTHORIZED]. *)
Theorem deleteMessage_only_for_sender userId messageId :
  let r := deleteMessage s userId messageId in
  (∀ w, w ∈ writes r →
        w = Message_deleted messageId
        ∧ writes r = [Message_deleted messageId]
        ∧ ∃ message,
            Message_findById s messageId = Return (Some message)
            ∧ MessageModel.sender message = userId)
  ∧ (∀ message,
       Message_findById s messageId = Return (Some message) →
       MessageModel.sender message ≠ userId →
       writes r = []
       ∧ (∀ group,
            Group_findById s (MessageModel.group message) = Return (Some group) →
            ∃ e, result r = Throw e
                 ∧ instanceof e InternalError = true
                 ∧ Errors.message e
                   = "Message service error: Cannot read properties of undefined (reading 'toString')")
       ∧ (Group_findById s (MessageModel.group message) = Return None →
            result r
            = Throw (new_AuthorizationError
                       "Only the message sender or group owner can delete a message"
                       "DELETE_UNAUTHORIZED"))).
Proof.
  intros r. subst r. rewrite deleteMessage_run. cbv zeta. split.
  - destruct (Message_findById s messageId) as [[message|]|error];
      [|by intros w ?%elem_of_nil
       |by rewrite message_rethrow_writes; intros w ?%elem_of_nil].
    destruct (bool_decide (MessageModel.sender message = userId)) eqn:Hsender.
    + apply bool_decide_eq_true in Hsender.
      destruct (Message_findByIdAndDelete s messageId) as [error|];
        [by rewrite message_rethrow_writes; intros w ?%elem_of_nil|].
      intros w ->%list_elem_of_singleton. split_and!; [done..|].
      by exists message.
    + destruct (Group_findById s (MessageModel.group message))
        as [[group|]|error];
        [by intros w ?%elem_of_nil..
        |by rewrite message_rethrow_writes; intros w ?%elem_of_nil].
  - intros message -> Hsender.
    rewrite bool_decide_eq_false_2 by done. split_and!.
    + destruct (Group_findById s (MessageModel.group message))
        as [[group|]|error]; [done|done|apply message_rethrow_writes].
    + intros group ->. by eexists.
    + by intros ->.
Qed.

End DeleteMessage.

Section GatewayAndDocument.

Import PresenceHandlers.

Variable c : Collab.
Variable s : DocumentStore.Store.

Implicit Types (g d : GroupDocument.GroupDoc).

Lemma some_active_member_toJSON groupId g userId :
  some_active_member (GroupDocument.toJSON groupId g) userId
  = GroupDocument.isMember g userId.
Proof.
  unfold some_active_member, GroupDocument.isMember, GroupDocument.toJSON. cbn.
  induction (GroupDocument.members g) as [|x l IH]; [done|]. cbn.
  by rewrite IH.
Qed.

(** X29. A change of membership reaches the gateway with the next answer
    of the store.  When the store answers [getGroupById] with the JSON of
    the document [d], a [group:join] of a connection with identity [u]
    succeeds exactly when the method [isMember] of [d] says so for the
    user of [u]: the connection then enters the room and the presence is
    recorded, otherwise the state stays as it is and the one answer is the
    refusal.  So the join succeeds when [d] is what [addMember] of the
    group service wrote for that user, and is refused when [d] is what
    [removeMember] wrote for that user, the owner apart. *)
Theorem membership_change_reaches_gateway st socket data u d :
  user socket = Some u →
  truthy (groupId data) = true →
  let gid := str (groupId data) in
  Group_findById_populate c gid = Return (Some (GroupDocument.toJSON gid d)) →
  let r := handleJoinGroup socket data c st in
  (GroupDocument.isMember d (userId u) = true →
     final r = track (userId u) gid (join socket (group_room gid) st)
     ∧ acks (effects r) = [join_ok])
  ∧ (GroupDocument.isMember d (userId u) = false →
     final r = st
     ∧ acks (effects r) = [failure "You are not a member of this group" None])
  ∧ (DocumentStore.Group_saved d
       ∈ DocumentStore.writes (GroupMembers.addMember s (userId u) gid) →
     final r = track (userId u) gid (join socket (group_room gid) st)
     ∧ acks (effects r) = [join_ok])
  ∧ (∀ requesterId,
       DocumentStore.Group_saved d
         ∈ DocumentStore.writes
             (GroupMembers.removeMember s (userId u) gid requesterId) →
       userId u ≠ GroupDocument.owner d →
       final r = st
       ∧ acks (effects r) = [failure "You are not a member of this group" None]).
Proof.
  intros Hu Hgid gid Hfind r.
  assert (Hyes : GroupDocument.isMember d (userId u) = true →
                 final r = track (userId u) gid (join socket (group_room gid) st)
                 ∧ acks (effects r) = [join_ok]).
  { intros Hmem. rewrite <- (some_active_member_toJSON gid) in Hmem.
    unfold r.
    by rewrite (handleJoinGroup_member c st socket data u _ Hu Hgid Hfind Hmem). }
  assert (Hno : GroupDocument.isMember d (userId u) = false →
                final r = st
                ∧ acks (effects r)
                  = [failure "You are not a member of this group" None]).
  { intros Hmem. rewrite <- (some_active_member_toJSON gid) in Hmem.
    unfold r.
    by rewrite (handleJoinGroup_not_member c st socket data u _ Hu Hgid Hfind Hmem). }
  split_and!; [done|done| |].
  - intros (_ & group & _ & _ & _ & _ & -> & _)%addMember_written.
    apply Hyes, isMember_addMember_active.
  - intros requesterId (group & _ & _ & _ & _ & -> & _)%removeMember_written Howner.
    apply Hno.
    unfold GroupDocument.removeMember, GroupDocument.save in Howner.
    rewrite owner_pre_save in Howner. cbn in Howner.
    by apply (standing_unlisted 0), getMember_removeMember.
Qed.

End GatewayAndDocument.

Section ConnectionGate.

Import AuthMiddleware SocketServer.

Variable c : Collab.

(** X30. Nobody connects without a token that the verifier accepts.  A
    connection attempt never throws; when it gives a socket, the handshake
    held a non-empty token, the verifier accepted it, the socket carries
    the decoded identity and is registered; otherwise the state is as it
    was and the one effect is the refusal with an [AuthenticationError].
    A token in the auth payload is the one that counts: when the verifier
    rejects it, the attempt is refused whatever the authorization header
    holds. *)
Theorem connect_only_with_verified_token st sid h :
  let r := connect sid h c st in
  (∀ e, outcome r ≠ Throw e)
  ∧ (∀ socket, outcome r = Return (Some socket) →
       ∃ token decoded,
         token_of h = Some token ∧ token ≠ ""
         ∧ verifyToken c token = Return decoded
         ∧ socket = {| id := sid;
                       user := Some {| userId := userId decoded;
                                       email := email decoded |} |}
         ∧ final r = register socket st)
  ∧ (outcome r = Return None →
       final r = st
       ∧ ∃ error, effects r = [Refused error]
                  ∧ instanceof error AuthenticationError = true)
  ∧ (∀ token error,
       auth_token h = Some token → token ≠ "" →
       verifyToken c token = Throw error →
       outcome r = Return None).
Proof.
  intros r.
  assert (Hr : r = connect sid h c st) by done. clearbody r.
  unfold connect in Hr.
  assert (Hcases :
    (truthy (token_of h) = false
     ∧ createAuthMiddleware c sid h
       = ({| id := sid; user := None |}, Some no_token_error))
    ∨ (∃ token error, token_of h = Some token ∧ token ≠ ""
         ∧ verifyToken c token = Throw error
         ∧ createAuthMiddleware c sid h
           = ({| id := sid; user := None |}, Some invalid_token_error))
    ∨ (∃ token decoded, token_of h = Some token ∧ token ≠ ""
         ∧ verifyToken c token = Return decoded
         ∧ createAuthMiddleware c sid h
           = ({| id := sid;
                 user := Some {| userId := userId decoded;
                                 email := email decoded |} |}, None))).
  { unfold createAuthMiddleware.
    destruct (token_of h) as [token|] eqn:Htoken; [|by left].
    destruct (truthy (Some token)) eqn:Htruthy; [|by left].
    simpl.
    assert (token ≠ "").
    { intros ->. by cbn in Htruthy. }
    destruct (verifyToken c token) as [decoded|error] eqn:Hverify.
    - right; right. exists token, decoded. by rewrite Hverify.
    - right; left. exists token, error. by rewrite Hverify. }
  destruct Hcases as [[Hnone Hmw]|[(token & error & Htoken & Hne & Hverify & Hmw)
                                  |(token & decoded & Htoken & Hne & Hverify & Hmw)]].
  - assert (r = {| outcome := Return None; final := st;
                   effects := [Refused no_token_error] |}) as ->.
    { rewrite Hr. run. by rewrite Hmw. }
    split_and!; [done|done| |].
    + intros _. split; [done|]. by exists no_token_error.
    + done.
  - assert (r = {| outcome := Return None; final := st;
                   effects := [Refused invalid_token_error] |}) as ->.
    { rewrite Hr. run. by rewrite Hmw. }
    split_and!; [done|done| |done].
    intros _. split; [done|]. by exists invalid_token_error.
  - set (socket := {| id := sid;
                      user := Some {| userId := userId decoded;
                                      email := email decoded |} |}) in *.
    assert (r = {| outcome := Return (Some socket); final := register socket st;
                   effects := [Emit sid (connect_success (userId decoded)
                                           (email decoded) sid (now c))] |}) as ->.
    { rewrite Hr. run. rewrite Hmw. unfold on_connection, socket_user. by run. }
    split_and!; [done| |done|].
    + intros ? [= <-]. by exists token, decoded.
    + intros token' error Hauth Hne' Hverify'.
      rewrite (token_of_auth h token' Hauth Hne') in Htoken.
      congruence.
Qed.

End ConnectionGate.

(** ** The statements on the sample document and store *)

(** X16 on the document of [Sample]: dave asks to join. *)
Lemma methods_keep_one_entry_per_user_witness :
  NoDup (GroupDocument.users Sample.doc)
  ∧ NoDup (GroupDocument.users
             (GroupDocument.addMember 5000 "d4" pending Sample.doc)).
Proof.
  assert (H : NoDup (GroupDocument.users Sample.doc))
    by (refine (bool_decide_unpack _ _); by vm_compute).
  split; [exact H|].
  exact (proj1 (proj2 (methods_keep_one_entry_per_user 5000 Sample.doc "d4"
                         pending "" H))).
Defined.

(** X17 on the document of [Sample]: carol is pending and nothing else. *)
Lemma one_standing_per_user_witness :
  NoDup (GroupDocument.users Sample.doc)
  ∧ GroupDocument.isMember Sample.doc "c3" = false
  ∧ GroupDocument.hasPendingRequest Sample.doc "c3" = true
  ∧ GroupDocument.isBanned Sample.doc "c3" = false.
Proof.
  assert (H : NoDup (GroupDocument.users Sample.doc))
    by (refine (bool_decide_unpack _ _); by vm_compute).
  split; [exact H|].
  destruct (one_standing_per_user 0 Sample.doc "c3" H) as [Hlisted _].
  destruct (Hlisted (Sample.entry "c3" pending 3000) eq_refl)
    as (H1 & H2 & H3 & _).
  rewrite H1, H2, H3. by vm_compute.
Defined.

(** X18 on the document of [Sample]: carol is added as active. *)
Lemma addMember_entry_witness :
  "c3" ≠ GroupDocument.owner Sample.doc
  ∧ GroupDocument.isMember
      (GroupDocument.addMember 5000 "c3" active Sample.doc) "c3" = true.
Proof.
  assert (H : "c3" ≠ GroupDocument.owner Sample.doc) by done.
  split; [exact H|].
  destruct (addMember_entry 5000 Sample.doc "c3" active H) as (_ & Hactive & _).
  exact (Hactive eq_refl).
Defined.

(** X19 on the document of [Sample]: bob is banned at 5000; one
    millisecond before the 48 hours are over he is in the cooldown, at the
    48 hours he is not. *)
Lemma banMember_bans_witness :
  let g' := GroupDocument.banMember 5000 "b2" "spam" Sample.doc in
  "b2" ≠ GroupDocument.owner Sample.doc
  ∧ "b2" ∈ GroupDocument.users Sample.doc
  ∧ GroupDocument.isBanned g' "b2" = true
  ∧ GroupDocument.isInCooldownPeriod 172804999 g' "b2" = true
  ∧ GroupDocument.isInCooldownPeriod 172805000 g' "b2" = false.
Proof.
  intros g'.
  assert (H : "b2" ≠ GroupDocument.owner Sample.doc) by done.
  assert (Hin : "b2" ∈ GroupDocument.users Sample.doc)
    by (refine (bool_decide_unpack _ _); by vm_compute).
  split; [exact H|]. split; [exact Hin|].
  destruct (banMember_bans 5000 Sample.doc "b2" "spam" H) as [Hlisted _].
  destruct (Hlisted Hin) as (Hbanned & _ & Hcool & _).
  split; [exact Hbanned|]. split.
  - apply Hcool. by vm_compute.
  - apply not_true_is_false. intros Hyes%Hcool. by vm_compute in Hyes.
Defined.

(** X20 on the document of [Sample]: carol's request is approved. *)
Lemma approveMember_approves_witness :
  let g' := GroupDocument.approveMember 5000 "c3" Sample.doc in
  NoDup (GroupDocument.users Sample.doc)
  ∧ "c3" ≠ GroupDocument.owner Sample.doc
  ∧ GroupDocument.hasPendingRequest Sample.doc "c3" = true
  ∧ GroupDocument.isMember g' "c3" = true
  ∧ GroupDocument.hasPendingRequest g' "c3" = false.
Proof.
  intros g'.
  assert (H : NoDup (GroupDocument.users Sample.doc))
    by (refine (bool_decide_unpack _ _); by vm_compute).
  assert (Howner : "c3" ≠ GroupDocument.owner Sample.doc) by done.
  destruct (approveMember_approves 5000 Sample.doc "c3" H Howner)
    as [Hpending _].
  destruct (Hpending eq_refl) as (Hmember & Hno & _).
  by split_and!.
Defined.

(** X21 on the document of [Sample]: bob is removed. *)
Lemma removeMember_removes_witness :
  let g' := GroupDocument.removeMember 5000 "b2" Sample.doc in
  "b2" ≠ GroupDocument.owner Sample.doc
  ∧ ("b2" ∉ GroupDocument.users g')
  ∧ GroupDocument.isMember g' "b2" = false.
Proof.
  intros g'.
  assert (Howner : "b2" ≠ GroupDocument.owner Sample.doc) by done.
  destruct (removeMember_removes 5000 Sample.doc "b2" Howner)
    as (Hgone & Hmember & _).
  by split_and!.
Defined.

(** X22 on the document of [Sample]: dave asks to join; the two active
    members stay two, the pending requests become two. *)
Lemma addMember_counts_witness :
  let g' := GroupDocument.addMember 5000 "d4" pending Sample.doc in
  NoDup (GroupDocument.users Sample.doc)
  ∧ GroupDocument.isMember Sample.doc (GroupDocument.owner Sample.doc) = true
  ∧ ("d4" ∉ GroupDocument.users Sample.doc)
  ∧ GroupDocument.memberCount g' = 2
  ∧ GroupDocument.pendingMemberCount g' = 2.
Proof.
  intros g'.
  assert (H : NoDup (GroupDocument.users Sample.doc))
    by (refine (bool_decide_unpack _ _); by vm_compute).
  assert (Hnew : "d4" ∉ GroupDocument.users Sample.doc)
    by (refine (bool_decide_unpack _ _); by vm_compute).
  destruct (addMember_counts 5000 Sample.doc "d4" pending H eq_refl Hnew)
    as (_ & Hactive & Hpending).
  split_and!; [done|done|done| |].
  - unfold g'. rewrite Hactive. by vm_compute.
  - unfold g'. rewrite Hpending. by vm_compute.
Defined.

(** X23 on the store of [Sample]: bob leaves [g1] on his own request. *)
Lemma service_removeMember_writes_witness :
  let d := GroupDocument.removeMember 5000 "b2" Sample.doc in
  DocumentStore.Group_saved d
    ∈ DocumentStore.writes (GroupMembers.removeMember Sample.store "b2" "g1" "b2")
  ∧ ("b2" ∉ GroupDocument.users d)
  ∧ GroupDocument.isMember d "a1" = true.
Proof.
  intros d.
  assert (H : DocumentStore.Group_saved d
              ∈ DocumentStore.writes
                  (GroupMembers.removeMember Sample.store "b2" "g1" "b2"))
    by (vm_compute; apply list_elem_of_here).
  split; [exact H|].
  destruct (service_removeMember_writes Sample.store "b2" "g1" "b2" d H)
    as (group & Hfind & _ & _ & _ & _ & Howner & Hgone & _).
  injection Hfind as <-.
  split; [by apply Hgone|exact Howner].
Defined.

(** X24 on the store of [Sample]: dave is added to [g1]. *)
Lemma service_addMember_writes_witness :
  let d := GroupDocument.addMember 5000 "d4" active Sample.doc in
  DocumentStore.Group_saved d
    ∈ DocumentStore.writes (GroupMembers.addMember Sample.store "d4" "g1")
  ∧ GroupDocument.isMember d "d4" = true.
Proof.
  intros d.
  assert (H : DocumentStore.Group_saved d
              ∈ DocumentStore.writes
                  (GroupMembers.addMember Sample.store "d4" "g1"))
    by (vm_compute; apply list_elem_of_here).
  split; [exact H|].
  destruct (service_addMember_writes Sample.store "d4" "g1" d H)
    as (u & group & _ & _ & _ & _ & _ & _ & Hmember & _).
  exact Hmember.
Defined.

(** X25 on the store of [Sample]: alice hands [g1] over to bob. *)
Lemma service_transferOwnership_writes_witness :
  let d := GroupDocument.save 5000 (GroupDocument.set_owner Sample.doc "b2") in
  DocumentStore.Group_saved d
    ∈ DocumentStore.writes
        (GroupMembers.transferOwnership Sample.store "a1" "b2" "g1")
  ∧ GroupDocument.owner d = "b2"
  ∧ GroupDocument.isMember d "b2" = true
  ∧ GroupDocument.getMember d "a1" = GroupDocument.getMember Sample.doc "a1".
Proof.
  intros d.
  assert (H : DocumentStore.Group_saved d
              ∈ DocumentStore.writes
                  (GroupMembers.transferOwnership Sample.store "a1" "b2" "g1"))
    by (vm_compute; apply list_elem_of_here).
  split; [exact H|].
  destruct (service_transferOwnership_writes Sample.store "a1" "b2" "g1" d H)
    as (group & Hfind & _ & _ & _ & Howner & Hmember & Hothers & _).
  injection Hfind as <-.
  split_and!; [exact Howner|exact Hmember|by apply Hothers].
Defined.

(** X26 on the store of [Sample]: alice deletes [g2], where she is
    alone. *)
Lemma service_deleteGroup_deletes_witness :
  DocumentStore.Group_deleted "g2"
    ∈ DocumentStore.writes (GroupMembers.deleteGroup Sample.store "a1" "g2")
  ∧ DocumentStore.writes (GroupMembers.deleteGroup Sample.store "a1" "g2")
    = [DocumentStore.Group_deleted "g2"].
Proof.
  assert (H : DocumentStore.Group_deleted "g2"
              ∈ DocumentStore.writes
                  (GroupMembers.deleteGroup Sample.store "a1" "g2"))
    by (vm_compute; apply list_elem_of_here).
  split; [exact H|].
  exact (proj1 (proj2 (service_deleteGroup_deletes Sample.store "a1" "g2" _ H))).
Defined.

(** X27 on the store of [Sample]: carol asks to remove bob from [g1]. *)
Lemma group_service_throws_witness :
  let e := new_AuthorizationError
             "You do not have permission to remove this member"
             "REMOVE_MEMBER_UNAUTHORIZED" in
  DocumentStore.result (GroupMembers.removeMember Sample.store "b2" "g1" "c3")
  = Throw e
  ∧ DocumentStore.writes (GroupMembers.removeMember Sample.store "b2" "g1" "c3")
    = []
  ∧ group_service_failure e.
Proof.
  intros e.
  assert (H : DocumentStore.result
                (GroupMembers.removeMember Sample.store "b2" "g1" "c3")
              = Throw e) by by vm_compute.
  split; [exact H|].
  destruct (group_service_throws Sample.store "b2" "g1" "c3" "" e)
    as (_ & _ & Hremove & _).
  exact (Hremove H).
Defined.

(** X28 on the store of [Sample]: bob deletes his message [m1]; alice, who
    owns the group, does not get to. *)
Lemma deleteMessage_only_for_sender_witness :
  DocumentStore.Message_deleted "m1"
    ∈ DocumentStore.writes (MessageDeletion.deleteMessage Sample.store "b2" "m1")
  ∧ DocumentStore.writes (MessageDeletion.deleteMessage Sample.store "b2" "m1")
    = [DocumentStore.Message_deleted "m1"]
  ∧ GroupDocument.owner Sample.doc = "a1"
  ∧ DocumentStore.writes (MessageDeletion.deleteMessage Sample.store "a1" "m1")
    = []
  ∧ ∃ e, DocumentStore.result (MessageDeletion.deleteMessage Sample.store "a1" "m1")
         = Throw e
         ∧ instanceof e InternalError = true.
Proof.
  assert (H : DocumentStore.Message_deleted "m1"
              ∈ DocumentStore.writes
                  (MessageDeletion.deleteMessage Sample.store "b2" "m1"))
    by (vm_compute; apply list_elem_of_here).
  split; [exact H|].
  destruct (deleteMessage_only_for_sender Sample.store "b2" "m1") as [Hsender _].
  destruct (Hsender _ H) as (_ & Hwrites & _).
  split; [exact Hwrites|]. split; [done|].
  destruct (deleteMessage_only_for_sender Sample.store "a1" "m1") as [_ Hother].
  destruct (Hother Sample.m1 eq_refl ltac:(done)) as (Hnone & Hfound & _).
  split; [exact Hnone|].
  destruct (Hfound Sample.doc eq_refl) as (e & He & Hclass & _).
  by exists e.
Defined.

(** X29 on the store of [Sample]: carol, who is pending in [g1], asks for
    the room and is refused; bob gets in. *)
Lemma membership_change_reaches_gateway_witness :
  let data := {| groupId := Some "g1"; content := None; messageId := None |} in
  acks (effects (PresenceHandlers.handleJoinGroup Scenario.s3 data
                   Sample.collab Scenario.st))
  = [failure "You are not a member of this group" None]
  ∧ acks (effects (PresenceHandlers.handleJoinGroup Scenario.s2 data
                     Sample.collab Scenario.st))
    = [join_ok].
Proof.
  intros data.
  destruct (membership_change_reaches_gateway Sample.collab Sample.store
              Scenario.st Scenario.s3 data Scenario.carol Sample.doc
              eq_refl eq_refl eq_refl) as (_ & Hno & _).
  destruct (membership_change_reaches_gateway Sample.collab Sample.store
              Scenario.st Scenario.s2 data Scenario.bob Sample.doc
              eq_refl eq_refl eq_refl) as (Hyes & _).
  split; [exact (proj2 (Hno eq_refl))|exact (proj2 (Hyes eq_refl))].
Defined.

(** X30 on the deployment of [Scenario]: alice's token in the header
    connects her; with a token in the auth payload that the verifier
    rejects, the same header does not. *)
Lemma connect_only_with_verified_token_witness :
  let good := {| AuthMiddleware.auth_token := None;
                 AuthMiddleware.authorization := Some "Bearer token-of-alice" |} in
  let bad := {| AuthMiddleware.auth_token := Some "stale";
                AuthMiddleware.authorization := Some "Bearer token-of-alice" |} in
  outcome (SocketServer.connect "s9" good Scenario.collab Scenario.st)
  = Return (Some {| id := "s9"; user := Some Scenario.alice |})
  ∧ AuthMiddleware.token_of good = Some "token-of-alice"
  ∧ outcome (SocketServer.connect "s9" bad Scenario.collab Scenario.st)
    = Return None
  ∧ final (SocketServer.connect "s9" bad Scenario.collab Scenario.st)
    = Scenario.st.
Proof.
  intros good bad.
  assert (Hgood : outcome (SocketServer.connect "s9" good Scenario.collab
                             Scenario.st)
                  = Return (Some {| id := "s9"; user := Some Scenario.alice |}))
    by by vm_compute.
  split; [exact Hgood|].
  destruct (connect_only_with_verified_token Scenario.collab Scenario.st "s9" good)
    as (_ & Hsocket & _).
  destruct (Hsocket _ Hgood) as (token & decoded & Htoken & _ & Hverify & _).
  split.
  { rewrite Htoken. f_equal. revert Hverify. vm_compute in Htoken.
    by injection Htoken as <-. }
  destruct (connect_only_with_verified_token Scenario.collab Scenario.st "s9" bad)
    as (_ & _ & Hnone & Hstale).
  assert (Hbad : outcome (SocketServer.connect "s9" bad Scenario.collab
                            Scenario.st) = Return None).
  { apply (Hstale "stale" (new_Error Error "Invalid token")); by vm_compute. }
  split; [exact Hbad|]. exact (proj1 (Hnone Hbad)).
Defined.

(** * The listeners on any request *)

Section ListenerRuns.

Import PresenceHandlers MessageHandlers SocketServer.

Variable c : Collab.
Implicit Types (st : State) (socket : Socket) (data : Payload)
  (req : Listeners.Request).

Lemma bind_ret {A B} (a : A) (f : A → M B) c' st :
  bind (ret a) f c' st = f a c' st.
Proof. unfold bind, ret. cbn. by destruct (f a c' st). Qed.

Lemma try_catch_ext {A} (m m' : M A) (H H' : ErrorObj → M A) c' st :
  m c' st = m' c' st →
  (∀ e st', H e c' st' = H' e c' st') →
  try_catch m H c' st = try_catch m' H' c' st.
Proof.
  intros Hm HH. unfold try_catch. rewrite Hm.
  destruct (outcome (m' c' st)); [done|]. by rewrite HH.
Qed.

(** For an object and an acknowledgement function the listeners are the
    handlers of [MessageHandlers] and [PresenceHandlers]. *)
Ltac agree :=
  cbv zeta; apply try_catch_ext;
    [ cbn [Listeners.payload Listeners.with_ack Listeners.destructure];
      unfold mbind at 1, M_bind at 1, mret at 1, M_ret at 1;
      rewrite bind_ret; reflexivity
    | intros ? ?; reflexivity ].

Lemma handleSendMessage_with_ack st socket data :
  Listeners.handleSendMessage socket (Listeners.with_ack data) c st
  = handleSendMessage socket data c st.
Proof. unfold Listeners.handleSendMessage, handleSendMessage. agree. Qed.

Lemma handleMessageRead_with_ack st socket data :
  Listeners.handleMessageRead socket (Listeners.with_ack data) c st
  = handleMessageRead socket data c st.
Proof. unfold Listeners.handleMessageRead, handleMessageRead. agree. Qed.

Lemma handleJoinGroup_with_ack st socket data :
  Listeners.handleJoinGroup socket (Listeners.with_ack data) c st
  = handleJoinGroup socket data c st.
Proof. unfold Listeners.handleJoinGroup, handleJoinGroup. agree. Qed.

Lemma handleLeaveGroup_with_ack st socket data :
  Listeners.handleLeaveGroup socket (Listeners.with_ack data) c st
  = handleLeaveGroup socket data c st.
Proof. unfold Listeners.handleLeaveGroup, handleLeaveGroup. agree. Qed.

Lemma handleGetActiveUsers_with_ack st socket data :
  Listeners.handleGetActiveUsers socket (Listeners.with_ack data) c st
  = handleGetActiveUsers socket data c st.
Proof. unfold Listeners.handleGetActiveUsers, handleGetActiveUsers. agree. Qed.

Lemma handleTyping_object st socket data typing a :
  Listeners.handleTyping typing socket
    {| Listeners.payload := Some data; Listeners.ack := a |} c st
  = handleTyping typing socket data c st.
Proof. unfold Listeners.handleTyping, handleTyping. agree. Qed.

Lemma on_with_ack st socket ev data :
  Listeners.on socket ev (Listeners.with_ack data) c st
  = on socket ev data c st.
Proof.
  destruct ev; cbn [Listeners.on on].
  - apply handleSendMessage_with_ack.
  - apply handleTyping_object.
  - apply handleTyping_object.
  - apply handleMessageRead_with_ack.
  - apply handleJoinGroup_with_ack.
  - apply handleLeaveGroup_with_ack.
  - apply handleGetActiveUsers_with_ack.
Qed.

End ListenerRuns.

Section WithoutPayload.

Import SocketServer.

Variable c : Collab.
Implicit Types (st : State) (socket : Socket).

(** A request with [null] for the object and an acknowledgement function:
    the destructuring throws and the [catch] of the handler answers. *)
Lemma handleSendMessage_without_payload st socket :
  Listeners.handleSendMessage socket Listeners.without_payload c st
  = returned st [Ack (internal_error "Error sending message")] tt.
Proof.
  unfold Listeners.handleSendMessage. cbv zeta.
  cbn [Listeners.payload Listeners.ack Listeners.without_payload
       Listeners.destructure Listeners.call].
  steps. unfold Listeners.handleError. classes. steps. ran.
Qed.

Lemma handleMessageRead_without_payload st socket :
  Listeners.handleMessageRead socket Listeners.without_payload c st
  = returned st [Ack (internal_error "Error processing read receipt")] tt.
Proof.
  unfold Listeners.handleMessageRead. cbv zeta.
  cbn [Listeners.payload Listeners.ack Listeners.without_payload
       Listeners.destructure Listeners.call].
  steps. unfold Listeners.handleError. classes. steps. ran.
Qed.

Lemma handleJoinGroup_without_payload st socket :
  Listeners.handleJoinGroup socket Listeners.without_payload c st
  = returned st [Ack (internal_error "Failed to join group room")] tt.
Proof.
  unfold Listeners.handleJoinGroup. cbv zeta.
  cbn [Listeners.payload Listeners.ack Listeners.without_payload
       Listeners.destructure Listeners.call].
  steps. ran.
Qed.

Lemma handleLeaveGroup_without_payload st socket :
  Listeners.handleLeaveGroup socket Listeners.without_payload c st
  = returned st [Ack (internal_error "Failed to leave group room")] tt.
Proof.
  unfold Listeners.handleLeaveGroup. cbv zeta.
  cbn [Listeners.payload Listeners.ack Listeners.without_payload
       Listeners.destructure Listeners.call].
  steps. ran.
Qed.

Lemma handleGetActiveUsers_without_payload st socket :
  Listeners.handleGetActiveUsers socket Listeners.without_payload c st
  = returned st [Ack (internal_error "Failed to get active users")] tt.
Proof.
  unfold Listeners.handleGetActiveUsers. cbv zeta.
  cbn [Listeners.payload Listeners.ack Listeners.without_payload
       Listeners.destructure Listeners.call].
  steps. ran.
Qed.

Lemma handleTyping_without_payload st socket typing a :
  Listeners.handleTyping typing socket
    {| Listeners.payload := None; Listeners.ack := a |} c st
  = returned st [] tt.
Proof.
  unfold Listeners.handleTyping.
  cbn [Listeners.payload Listeners.destructure].
  steps. ran.
Qed.

End WithoutPayload.

(** ** Without an acknowledgement function *)

Section NeverAcks.

Lemma never_acks_ret {A} (a : A) : never_acks (ret a).
Proof. by intros c st. Qed.

Lemma never_acks_throw {A} (e : ErrorObj) : never_acks (@throw A e).
Proof. by intros c st. Qed.

Lemma never_acks_tell (e : Effect) :
  (∀ r, e ≠ Ack r) → never_acks (tell e).
Proof. intros He c st. cbn. destruct e; try done. by destruct (He r). Qed.

Lemma never_acks_ask : never_acks ask.
Proof. by intros c st. Qed.

Lemma never_acks_get_state : never_acks get_state.
Proof. by intros c st. Qed.

Lemma never_acks_await {A} (o : Outcome A) : never_acks (await o).
Proof. by intros c st. Qed.

Lemma never_acks_modify (f : State → State) : never_acks (modify f).
Proof. by intros c st. Qed.

Lemma acks_app (es es' : list Effect) : acks (es ++ es') = acks es ++ acks es'.
Proof. unfold acks. apply omap_app. Qed.

Lemma never_acks_bind {A B} (m : M A) (f : A → M B) :
  never_acks m → (∀ a, never_acks (f a)) → never_acks (bind m f).
Proof.
  intros Hm Hf c st. unfold bind. specialize (Hm c st).
  destruct (outcome (m c st)) as [a|e]; [|done].
  cbn [effects]. by rewrite acks_app, Hm, Hf.
Qed.

Lemma never_acks_try_catch {A} (body : M A) (handler : ErrorObj → M A) :
  never_acks body → (∀ e, never_acks (handler e)) →
  never_acks (try_catch body handler).
Proof.
  intros Hbody Hhandler c st. unfold try_catch. specialize (Hbody c st).
  destruct (outcome (body c st)) as [a|e]; [done|].
  cbn [effects]. by rewrite acks_app, Hbody, Hhandler.
Qed.

Lemma always_throws_throw {A} (e : ErrorObj) : always_throws (@throw A e).
Proof. intros c st. by exists e. Qed.

(** A sequence throws when what comes last throws. *)
Lemma always_throws_bind {A B} (m : M A) (f : A → M B) :
  (∀ a, always_throws (f a)) → always_throws (bind m f).
Proof.
  intros Hf c st. unfold bind.
  destruct (outcome (m c st)) as [a|e]; [|by exists e].
  cbn [outcome]. apply Hf.
Qed.

Lemma always_throws_try_catch {A} (body : M A) (handler : ErrorObj → M A) :
  always_throws body → (∀ e, always_throws (handler e)) →
  always_throws (try_catch body handler).
Proof.
  intros Hbody Hhandler c st. unfold try_catch.
  destruct (Hbody c st) as [e ->]. cbn [outcome]. apply Hhandler.
Qed.

(** A [try] whose block always throws, with a [catch] that always throws
    the same error. *)
Lemma try_catch_rethrows {A} (body : M A) (handler : ErrorObj → M A) E c st :
  always_throws body →
  (∀ e c' st', outcome (handler e c' st') = Throw E) →
  outcome (try_catch body handler c st) = Throw E.
Proof.
  intros Hbody Hhandler. unfold try_catch.
  destruct (Hbody c st) as [e ->]. cbn [outcome]. apply Hhandler.
Qed.

End NeverAcks.

Ltac quiet :=
  repeat first
    [ solve [auto]
    | apply never_acks_ret | apply never_acks_throw
    | apply never_acks_tell; intros ?; discriminate
    | apply never_acks_ask | apply never_acks_get_state | apply never_acks_await
    | apply never_acks_modify
    | apply never_acks_bind; [|intros ?]
    | apply never_acks_try_catch; [|intros ?]
    | match goal with
      | |- never_acks (if ?b then _ else _) => destruct b
      | |- never_acks (match ?x with _ => _ end) => destruct x
      | |- never_acks (let _ := _ in _) => cbv zeta
      end ].

Ltac rejecting :=
  repeat first
    [ apply always_throws_throw
    | apply always_throws_bind; intros ?
    | apply always_throws_try_catch; [|intros ?]
    | match goal with
      | |- always_throws (if ?b then _ else _) => destruct b
      | |- always_throws (match ?x with _ => _ end) => destruct x
      | |- always_throws (let _ := _ in _) => cbv zeta
      end ].

Section WithoutAck.

Import PresenceHandlers SocketServer.

Implicit Types (st : State) (socket : Socket) (req : Listeners.Request).

(** The listeners' code with [callback] undefined. *)
Ltac open_listener :=
  unfold Listeners.handleSendMessage, Listeners.handleMessageRead,
    Listeners.handleJoinGroup, Listeners.handleLeaveGroup,
    Listeners.handleGetActiveUsers, Listeners.handleError,
    Listeners.destructure, Listeners.call,
    GroupService.getGroupById, MessageService.sendMessage,
    Encryption.encryptMessage, socket_user, callback, socket_to_emit,
    io_in_emit, fetchSockets, mbind, M_bind, mret, M_ret;
  cbn [Listeners.ack Listeners.payload]; cbv beta iota zeta.

Lemma activeUsers_of_never_acks (l : list Socket) : never_acks (activeUsers_of l).
Proof.
  induction l as [|s l IH]; cbn [activeUsers_of];
    unfold socket_user, mbind, M_bind, mret, M_ret; quiet.
Qed.

(** Without an acknowledgement function no listener answers. *)
Lemma on_never_acks socket ev data :
  never_acks (Listeners.on socket ev
                {| Listeners.payload := data; Listeners.ack := false |}).
Proof.
  pose proof activeUsers_of_never_acks as Husers.
  destruct ev; cbn [Listeners.on];
    unfold Listeners.handleTypingStart, Listeners.handleTypingStop,
      Listeners.handleTyping;
    open_listener; quiet.
Qed.

(** Without an acknowledgement function a listener that answers ends in
    the error of the call of [callback]. *)
Lemma on_rejects c st socket ev data :
  expects_ack ev = true →
  outcome (Listeners.on socket ev
             {| Listeners.payload := data; Listeners.ack := false |} c st)
  = Throw no_callback_error.
Proof.
  destruct ev; cbn [Listeners.on expects_ack]; intros Hev;
    try discriminate Hev;
    open_listener;
    (apply try_catch_rethrows;
     [ rejecting
     | intros e c' st';
       repeat match goal with
              | |- context [if ?b then _ else _] => destruct b
              end; reflexivity ]).
Qed.

End WithoutAck.

(** * Requests with a missing field, a missing payload, a missing callback *)

Section MissingFields.

Import PresenceHandlers MessageHandlers SocketServer.

Variable c : Collab.
Implicit Types (st : State) (socket : Socket) (req : Listeners.Request).

(** C7. A send request that comes with an acknowledgement function, from
    an authenticated socket.  When its payload is an object without a group
    id, or with content that is missing or empty, it is answered once, with
    [INVALID_INPUT]; when its payload is [null], it is answered once, with
    [INTERNAL_ERROR].  In both cases no service is called and no document
    saved, nothing is emitted to any connection, and the gateway state
    stays as it was. *)
Theorem send_message_missing_fields st socket u req :
  user socket = Some u →
  Listeners.ack req = true →
  send_needs_fields req = true →
  let r := Listeners.handleSendMessage socket req c st in
  (is_Some (Listeners.payload req) →
     acks (effects r)
     = [failure "Group ID and message content are required"
                (Some (VStr "INVALID_INPUT"))])
  ∧ (Listeners.payload req = None →
     acks (effects r) = [internal_error "Error sending message"])
  ∧ calls (effects r) = []
  ∧ saved (effects r) = []
  ∧ broadcasts (effects r) = []
  ∧ (∀ sid, received sid (effects r) = [])
  ∧ final r = st.
Proof.
  intros Hu Hack Hneeds r. subst r.
  destruct req as [[data|] a]; cbn in Hack; subst a.
  - fold (Listeners.with_ack data). rewrite handleSendMessage_with_ack.
    unfold send_needs_fields in Hneeds. cbn in Hneeds.
    rewrite (handleSendMessage_invalid c st socket data u Hu).
    + by split_and!.
    + apply orb_prop in Hneeds as [H|H]; apply negb_true_iff in H; auto.
  - fold Listeners.without_payload. rewrite handleSendMessage_without_payload.
    split_and!; try done. by intros [? [=]].
Qed.

(** C8. A read receipt that comes with an acknowledgement function, from
    an authenticated socket.  With message id and group id:
    ['message:read'], carrying the message id, the reader's user id and
    email and the time of the server, is emitted on the room of the group
    without excluding anyone, so every connection of the room receives it
    once, the reader's own connection too when it is in the room; the
    acknowledgement holds the success flag and nothing else.  With an
    object that lacks one of the two: the acknowledgement is
    [INVALID_INPUT] and nothing is emitted.  With [null] for the object:
    the acknowledgement is [INTERNAL_ERROR] and nothing is emitted. *)
Theorem read_receipt_request st socket u req :
  user socket = Some u →
  Listeners.ack req = true →
  let r := Listeners.handleMessageRead socket req c st in
  (∀ data, Listeners.payload req = Some data →
     truthy (messageId data) = true ∧ truthy (groupId data) = true →
     let room := group_room (str (groupId data)) in
     let notice := message_read (str (messageId data)) (userId u) (email u)
                     (now c) in
     acks (effects r) = [read_ok]
     ∧ broadcasts (effects r) = [(room, targets st room ∅, notice)]
     ∧ (∀ sid, received sid (effects r)
               = if decide (joined st room sid) then [notice] else [])
     ∧ (joined st room (id socket) → received (id socket) (effects r) = [notice]))
  ∧ (∀ data, Listeners.payload req = Some data →
       truthy (messageId data) = false ∨ truthy (groupId data) = false →
       acks (effects r)
       = [failure "Message ID and group ID are required"
                  (Some (VStr "INVALID_INPUT"))]
       ∧ broadcasts (effects r) = []
       ∧ (∀ sid, received sid (effects r) = []))
  ∧ (Listeners.payload req = None →
       acks (effects r) = [internal_error "Error processing read receipt"]
       ∧ broadcasts (effects r) = []
       ∧ (∀ sid, received sid (effects r) = [])).
Proof.
  intros Hu Hack r. subst r.
  destruct req as [[data|] a]; cbn in Hack; subst a.
  - fold (Listeners.with_ack data). rewrite handleMessageRead_with_ack.
    destruct (handleMessageRead_delivery c st socket data u Hu)
      as [Hboth Hmissing].
    split_and!.
    + intros ? [= <-]. apply Hboth.
    + intros ? [= <-]. apply Hmissing.
    + by intros [=].
  - fold Listeners.without_payload. rewrite handleMessageRead_without_payload.
    split_and!; [by intros ? [=]..|]. by intros _.
Qed.

(** X6. A join, leave or active users request that comes with an
    acknowledgement function, from an authenticated socket: with an object
    that holds no group id it is answered with [INVALID_INPUT], with
    [null] for the object it is answered with [INTERNAL_ERROR] and the
    message of the handler.  In both cases it does nothing else: no service
    is called, nothing is emitted and the state stays. *)
Theorem missing_group_id st socket ev req u :
  user socket = Some u →
  Listeners.ack req = true →
  ev = group_join ∨ ev = group_leave ∨ ev = group_active_users →
  (∀ data, Listeners.payload req = Some data →
     truthy (groupId data) = false →
     Listeners.on socket ev req c st
     = {| outcome := Return tt; final := st;
          effects := [Ack (failure "Group ID is required"
                                   (Some (VStr "INVALID_INPUT")))] |})
  ∧ (Listeners.payload req = None →
     Listeners.on socket ev req c st
     = {| outcome := Return tt; final := st;
          effects := [Ack (internal_error
                             match ev with
                             | group_join => "Failed to join group room"
                             | group_leave => "Failed to leave group room"
                             | _ => "Failed to get active users"
                             end)] |}).
Proof.
  intros Hu Hack Hev.
  destruct req as [[data|] a]; cbn in Hack; subst a.
  - split; [|by intros [=]]. intros ? [= <-] Hgid.
    fold (Listeners.with_ack data). rewrite on_with_ack.
    by apply (missing_group_id_object c st socket ev data u).
  - split; [by intros ? [=]|]. intros _. fold Listeners.without_payload.
    destruct Hev as [->|[->| ->]]; cbn [Listeners.on].
    + apply handleJoinGroup_without_payload.
    + apply handleLeaveGroup_without_payload.
    + apply handleGetActiveUsers_without_payload.
Qed.

(** X2. A request that comes with an acknowledgement function is answered
    exactly once and its handler returns without throwing, whatever the
    payload (an object or [null]), the socket and the answers of the
    collaborators; the handlers of the two typing events return and never
    answer.  A request without an acknowledgement function is never
    answered, and unless it is a typing event its handler ends by throwing
    the TypeError of the call of the missing [callback]. *)
Theorem every_event_is_answered st socket ev req :
  let r := Listeners.on socket ev req c st in
  (Listeners.ack req = true ∨ expects_ack ev = false →
     outcome r = Return tt
     ∧ length (acks (effects r))
       = if expects_ack ev && Listeners.ack req then 1 else 0)
  ∧ (Listeners.ack req = false →
     acks (effects r) = []
     ∧ (expects_ack ev = true → outcome r = Throw no_callback_error)).
Proof.
  intros r. subst r. split.
  - intros Hanswered.
    destruct (expects_ack ev) eqn:Hev.
    + destruct Hanswered as [Hack|]; [|done].
      destruct req as [[data|] a]; cbn in Hack; subst a; cbn [andb Listeners.ack].
      * fold (Listeners.with_ack data). rewrite on_with_ack.
        destruct (on_answered c st socket ev data) as [Hout Hacks].
        by rewrite Hev in Hacks.
      * fold Listeners.without_payload.
        destruct ev; try discriminate Hev; cbn [Listeners.on].
        -- by rewrite handleSendMessage_without_payload.
        -- by rewrite handleMessageRead_without_payload.
        -- by rewrite handleJoinGroup_without_payload.
        -- by rewrite handleLeaveGroup_without_payload.
        -- by rewrite handleGetActiveUsers_without_payload.
    + cbn [andb]. destruct req as [[data|] a].
      * assert (Htyping : ∀ typing,
          Listeners.handleTyping typing socket
            {| Listeners.payload := Some data; Listeners.ack := a |} c st
          = handleTyping typing socket data c st)
          by (intros; apply handleTyping_object).
        destruct ev; try discriminate Hev; cbn [Listeners.on];
          unfold Listeners.handleTypingStart, Listeners.handleTypingStop;
          rewrite Htyping.
        -- by destruct (handleTyping_silent c st socket data true)
             as [->|(? & _ & _ & ->)].
        -- by destruct (handleTyping_silent c st socket data false)
             as [->|(? & _ & _ & ->)].
      * destruct ev; try discriminate Hev; cbn [Listeners.on];
          unfold Listeners.handleTypingStart, Listeners.handleTypingStop;
          by rewrite handleTyping_without_payload.
  - destruct req as [data a]. cbn [Listeners.ack]. intros ->. split.
    + apply on_never_acks.
    + apply on_rejects.
Qed.

End MissingFields.

(** C7 on the deployment of [Scenario]: alice sends a message without
    content, one with empty content, and one with [null] for the object. *)
Lemma send_message_missing_fields_witness :
  let missing := Listeners.with_ack (for_group "g1") in
  let empty := Listeners.with_ack
                 {| groupId := Some "g1"; content := Some ""; messageId := None |} in
  let r := Listeners.handleSendMessage Scenario.s1 missing Scenario.collab Scenario.st in
  let r' := Listeners.handleSendMessage Scenario.s1 empty Scenario.collab Scenario.st in
  let r'' := Listeners.handleSendMessage Scenario.s1 Listeners.without_payload
               Scenario.collab Scenario.st in
  (user Scenario.s1 = Some Scenario.alice
   ∧ send_needs_fields missing = true
   ∧ send_needs_fields empty = true
   ∧ send_needs_fields Listeners.without_payload = true)
  ∧ error <$> acks (effects r) = [Some (VStr "INVALID_INPUT")]
  ∧ calls (effects r) = []
  ∧ received "s2" (effects r) = []
  ∧ error <$> acks (effects r') = [Some (VStr "INVALID_INPUT")]
  ∧ saved (effects r') = []
  ∧ error <$> acks (effects r'') = [Some (VStr "INTERNAL_ERROR")]
  ∧ broadcasts (effects r'') = [].
Proof.
  intros missing empty r r' r''.
  split; [done|].
  destruct (send_message_missing_fields Scenario.collab Scenario.st Scenario.s1
              Scenario.alice missing eq_refl eq_refl eq_refl)
    as (Hack & _ & Hcalls & _ & _ & Hrecv & _).
  destruct (send_message_missing_fields Scenario.collab Scenario.st Scenario.s1
              Scenario.alice empty eq_refl eq_refl eq_refl)
    as (Hack' & _ & _ & Hsaved' & _).
  destruct (send_message_missing_fields Scenario.collab Scenario.st Scenario.s1
              Scenario.alice Listeners.without_payload eq_refl eq_refl eq_refl)
    as (_ & Hack'' & _ & _ & Hnone'' & _).
  unfold r, r', r''.
  rewrite (Hack ltac:(by eexists)), (Hack' ltac:(by eexists)), (Hack'' eq_refl).
  split_and!; [done|exact Hcalls|apply Hrecv|done|exact Hsaved'|done|exact Hnone''].
Defined.

(** C7 as the specification words it fails for a request with [null] for
    the object: group id and content are missing, and the answer is
    [INTERNAL_ERROR]. *)
Lemma send_without_payload_is_internal_error :
  ¬ send_missing_is_invalid_input Scenario.collab Scenario.st Scenario.s1
      Listeners.without_payload.
Proof.
  intros Hclaim. destruct (Hclaim eq_refl) as (response & Hacks & Herror).
  vm_compute in Hacks. injection Hacks as <-.
  vm_compute in Herror. discriminate Herror.
Qed.

(** C8 on the deployment of [Scenario]: bob, whose connection is in the
    room of [g1], reports a message as read; his own connection receives the
    notification like alice's second one.  A report without message id is
    answered with [INVALID_INPUT], one with [null] for the object with
    [INTERNAL_ERROR]. *)
Lemma read_receipt_request_witness :
  let data := {| groupId := Some "g1"; content := None; messageId := Some "m1" |} in
  let r := Listeners.handleMessageRead Scenario.s2 (Listeners.with_ack data)
             Scenario.collab Scenario.st in
  let notice := message_read "m1" "b2" "bob@example.com" "2024-05-01T10:00:00.000Z" in
  user Scenario.s2 = Some Scenario.bob
  ∧ acks (effects r) = [read_ok]
  ∧ received "s2" (effects r) = [notice]
  ∧ received "s4" (effects r) = [notice]
  ∧ received "s1" (effects r) = []
  ∧ acks (effects (Listeners.handleMessageRead Scenario.s2
                     (Listeners.with_ack (for_group "g1"))
                     Scenario.collab Scenario.st))
    = [failure "Message ID and group ID are required" (Some (VStr "INVALID_INPUT"))]
  ∧ acks (effects (Listeners.handleMessageRead Scenario.s2
                     Listeners.without_payload Scenario.collab Scenario.st))
    = [internal_error "Error processing read receipt"].
Proof.
  intros data r notice.
  destruct (read_receipt_request Scenario.collab Scenario.st Scenario.s2
              Scenario.bob (Listeners.with_ack data) eq_refl eq_refl)
    as (Hboth & _).
  destruct (Hboth data eq_refl (conj eq_refl eq_refl)) as (Hack & _ & Hrecv & _).
  destruct (read_receipt_request Scenario.collab Scenario.st Scenario.s2
              Scenario.bob (Listeners.with_ack (for_group "g1")) eq_refl eq_refl)
    as (_ & Hmissing & _).
  destruct (Hmissing _ eq_refl (or_introl eq_refl)) as (Hinvalid & _).
  destruct (read_receipt_request Scenario.collab Scenario.st Scenario.s2
              Scenario.bob Listeners.without_payload eq_refl eq_refl)
    as (_ & _ & Hnone).
  destruct (Hnone eq_refl) as (Hinternal & _).
  split_and!; [done|exact Hack| | | |exact Hinvalid|exact Hinternal];
    rewrite Hrecv; by vm_compute.
Defined.

(** C8 as the specification words it fails for a report with [null] for
    the object: message id and group id are missing, and the answer is
    [INTERNAL_ERROR]. *)
Lemma read_without_payload_is_internal_error :
  ¬ read_missing_is_invalid_input Scenario.collab Scenario.st Scenario.s2
      Listeners.without_payload.
Proof.
  intros Hclaim. destruct (Hclaim eq_refl) as (response & Hacks & Herror).
  vm_compute in Hacks. injection Hacks as <-.
  vm_compute in Herror. discriminate Herror.
Qed.

(** X6 on the deployment of [Scenario]: alice asks to join without saying
    which group, and with [null] for the object. *)
Lemma missing_group_id_witness :
  let data := {| groupId := None; content := None; messageId := None |} in
  acks (effects (Listeners.on Scenario.s1 SocketServer.group_join
                   (Listeners.with_ack data) Scenario.collab Scenario.st))
  = [failure "Group ID is required" (Some (VStr "INVALID_INPUT"))]
  ∧ acks (effects (Listeners.on Scenario.s1 SocketServer.group_join
                     Listeners.without_payload Scenario.collab Scenario.st))
    = [internal_error "Failed to join group room"].
Proof.
  intros data.
  destruct (missing_group_id Scenario.collab Scenario.st Scenario.s1
              SocketServer.group_join (Listeners.with_ack data) Scenario.alice
              eq_refl eq_refl (or_introl eq_refl)) as [Hobject _].
  destruct (missing_group_id Scenario.collab Scenario.st Scenario.s1
              SocketServer.group_join Listeners.without_payload Scenario.alice
              eq_refl eq_refl (or_introl eq_refl)) as [_ Hnull].
  by rewrite (Hobject data eq_refl eq_refl), (Hnull eq_refl).
Defined.

(** X2 on the deployment of [Scenario]: alice's first connection asks to
    join [g1] without an acknowledgement function: it is in the room
    afterwards, nothing is answered and the handler throws.  With the
    function the request is answered once. *)
Lemma every_event_is_answered_witness :
  let data := for_group "g1" in
  let r := Listeners.on Scenario.s1 SocketServer.group_join
             (Listeners.without_ack data) Scenario.collab Scenario.st in
  let r' := Listeners.on Scenario.s1 SocketServer.group_join
              (Listeners.with_ack data) Scenario.collab Scenario.st in
  acks (effects r) = []
  ∧ outcome r = Throw no_callback_error
  ∧ joined (final r) "group:g1" "s1"
  ∧ outcome r' = Return tt
  ∧ length (acks (effects r')) = 1.
Proof.
  intros data r r'.
  destruct (every_event_is_answered Scenario.collab Scenario.st Scenario.s1
              SocketServer.group_join (Listeners.without_ack data))
    as [_ Hwithout].
  destruct (Hwithout eq_refl) as [Hnone Hthrows].
  destruct (every_event_is_answered Scenario.collab Scenario.st Scenario.s1
              SocketServer.group_join (Listeners.with_ack data))
    as [Hwith _].
  destruct (Hwith (or_introl eq_refl)) as [Hreturns Honce].
  split_and!; [exact Hnone|exact (Hthrows eq_refl)| |exact Hreturns|exact Honce].
  refine (bool_decide_unpack _ _). by vm_compute.
Defined.
